(** * NSIS Script Generator: the script renderer

    A shallow embedding of [generate_nsis_script_from_config] and of the
    template [NSI_TEMPLATE] of [nsis-script-generator.py], with the
    properties of the rendered installer script.

    The renderer receives a Python [dict]; it reads the clock and the file
    system, prints to the console, writes one key of the dictionary and
    finally substitutes a context dictionary into the template with
    [str.format].  The dictionary is a [gmap string value], the effects are
    a state-and-exception monad over the dictionary and the console, and the
    clock and file system are the fields of a [host] record. *)

From Stdlib Require Import String Ascii ZArith List Bool.
From stdpp Require Import base option gmap strings pretty list.

Local Open Scope string_scope.

(** ** Python values and strings *)

Module Py.

(** The values a configuration dictionary holds: [None], [bool], [int],
    [str] and a [list] of [str]. *)
Inductive value : Type :=
  | VNone
  | VBool (b : bool)
  | VInt (z : Z)
  | VStr (s : string)
  | VList (l : list string).

#[global] Instance value_eq_dec : EqDecision value.
Proof. solve_decision. Defined.

#[global] Instance value_inhabited : Inhabited value := populate VNone.

(** The exceptions the renderer can meet. *)
Inductive exn : Type :=
  | KeyError (k : string)
  | AttributeError (v : value) (attr : string)
  | TypeError (v : value)
  | ValueError.

#[global] Instance exn_eq_dec : EqDecision exn.
Proof. solve_decision. Defined.

(** Truth value testing: [None], [False], [0], the empty string and the
    empty list are false. *)
Definition truthy (v : value) : bool :=
  match v with
  | VNone => false
  | VBool b => b
  | VInt z => negb (Z.eqb z 0)
  | VStr s => negb (String.eqb s EmptyString)
  | VList l => match l with [] => false | _ => true end
  end.

(** The double quote, which the template and the f-strings use freely. *)
Definition dq : string := String (ascii_of_nat 34) EmptyString.
(** The line feed of [\n]. *)
Definition nl : string := String (ascii_of_nat 10) EmptyString.
(** One backslash: what the source writes as two inside a string literal. *)
Definition bs : ascii := ascii_of_nat 92.
Definition bslash : string := String bs EmptyString.

(** [q s] is [s] between double quotes. *)
Definition q (s : string) : string := dq +:+ s +:+ dq.

(** [sep.join(lines)] *)
Fixpoint join (sep : string) (lines : list string) : string :=
  match lines with
  | [] => EmptyString
  | [l] => l
  | l :: rest => l +:+ sep +:+ join sep rest
  end.

(** [str.lower] on the ASCII letters; other bytes are kept. *)
Definition lower_ascii (c : ascii) : ascii :=
  let n := nat_of_ascii c in
  if (65 <=? n)%nat && (n <=? 90)%nat then ascii_of_nat (n + 32) else c.

Fixpoint lower (s : string) : string :=
  match s with
  | EmptyString => EmptyString
  | String c rest => String (lower_ascii c) (lower rest)
  end.

(** [s.endswith(suffix)] *)
Definition endswith (s suffix : string) : bool :=
  let n := String.length s in
  let m := String.length suffix in
  (m <=? n)%nat && String.eqb (substring (n - m) m s) suffix.

(** [s.replace(old, new)] for a one-character [old]. *)
Fixpoint replace (old : ascii) (new : string) (s : string) : string :=
  match s with
  | EmptyString => EmptyString
  | String c rest =>
      if Ascii.eqb c old then new +:+ replace old new rest
      else String c (replace old new rest)
  end.

(** [for x in v]: the items of a list, the characters of a string; the
    other values are not iterable. *)
Fixpoint chars (s : string) : list string :=
  match s with
  | EmptyString => []
  | String c rest => String c EmptyString :: chars rest
  end.

Definition iter (v : value) : exn + list string :=
  match v with
  | VList l => inr l
  | VStr s => inr (chars s)
  | _ => inl (TypeError v)
  end.

(** [v.lower()] and [v.replace(old, new)] as method calls on a value that
    need not be a string. *)
Definition call_lower (v : value) : exn + string :=
  match v with
  | VStr s => inr (lower s)
  | _ => inl (AttributeError v "lower")
  end.

Definition call_replace (old : ascii) (new : string) (v : value) : exn + string :=
  match v with
  | VStr s => inr (replace old new s)
  | _ => inl (AttributeError v "replace")
  end.

End Py.
Export Py.

(** ** The host: clock, file system and [repr] *)

(** What the interpreter and the operating system answer during one call.
    [now_stamp] is [datetime.now().strftime('%Y-%m-%d %H:%M:%S')],
    [now_year] is [datetime.now().year]; [path_exists] is [os.path.exists]
    on a string and [exists_other] on any other value (a file descriptor
    for an [int], a [TypeError] for a list); [abspath] is [os.path.abspath],
    [None] when it raises; [repr_list] is [str] of a list of strings. *)
Record host : Type := Host {
  now_stamp : string;
  now_year : Z;
  path_exists : string -> bool;
  exists_other : value -> exn + bool;
  abspath : string -> option string;
  repr_list : list string -> string;
}.

Definition os_path_exists (h : host) (v : value) : exn + bool :=
  match v with
  | VStr s => inr (path_exists h s)
  | _ => exists_other h v
  end.

Definition os_path_abspath (h : host) (v : value) : option string :=
  match v with
  | VStr s => abspath h s
  | _ => None
  end.

(** [str(v)], which is what an f-string field and a [str.format] field with
    no format specification put in the text. *)
Definition py_str (h : host) (v : value) : string :=
  match v with
  | VNone => "None"
  | VBool true => "True"
  | VBool false => "False"
  | VInt z => pretty z
  | VStr s => s
  | VList l => repr_list h l
  end.

(** ** [str.format] on a template with named fields *)

Inductive segment : Type :=
  | Lit (s : string)
  | Field (name : string).

#[global] Instance segment_eq_dec : EqDecision segment.
Proof. solve_decision. Defined.

Inductive scan_mode : Type :=
  | InText
  | AfterOpen
  | InField (name : string)
  | AfterClose.

Definition push_char (c : ascii) (segs : list segment) : list segment :=
  match segs with
  | Lit s :: rest => Lit (String c s) :: rest
  | _ => Lit (String c EmptyString) :: segs
  end.

Definition name_start (c : ascii) : bool :=
  let n := nat_of_ascii c in
  ((65 <=? n)%nat && (n <=? 90)%nat) || ((97 <=? n)%nat && (n <=? 122)%nat)
  || (n =? 95)%nat.

Definition name_char (c : ascii) : bool :=
  let n := nat_of_ascii c in
  name_start c || ((48 <=? n)%nat && (n <=? 57)%nat).

(** The scanner of [str.format]: a doubled brace is one literal brace, a
    single opening brace starts a field that runs to the closing brace.
    The answer is [None] where [str.format] raises [ValueError] (a single
    brace left open or closed) and for the field forms the template does
    not use (positional fields, attribute and index lookups, conversions
    and format specifications). *)
Fixpoint scan (m : scan_mode) (s : string) : option (list segment) :=
  match s with
  | EmptyString =>
      match m with
      | InText => Some []
      | _ => None
      end
  | String c rest =>
      match m with
      | InText =>
          if Ascii.eqb c "{" then scan AfterOpen rest
          else if Ascii.eqb c "}" then scan AfterClose rest
          else push_char c <$> scan InText rest
      | AfterOpen =>
          if Ascii.eqb c "{" then push_char c <$> scan InText rest
          else if name_start c then scan (InField (String c EmptyString)) rest
          else None
      | InField name =>
          if Ascii.eqb c "}" then (Field name ::.) <$> scan InText rest
          else if name_char c then scan (InField (name +:+ String c EmptyString)) rest
          else None
      | AfterClose =>
          if Ascii.eqb c "}" then push_char c <$> scan InText rest
          else None
      end
  end.

Definition parse_format : string -> option (list segment) := scan InText.

(** Substituting left to right; the first field with no entry raises
    [KeyError] with its name. *)
Fixpoint vformat (h : host) (ctx : gmap string value) (segs : list segment)
  : exn + string :=
  match segs with
  | [] => inr EmptyString
  | Lit s :: rest =>
      match vformat h ctx rest with
      | inr t => inr (s +:+ t)
      | inl e => inl e
      end
  | Field k :: rest =>
      match ctx !! k with
      | None => inl (KeyError k)
      | Some v =>
          match vformat h ctx rest with
          | inr t => inr (py_str h v +:+ t)
          | inl e => inl e
          end
      end
  end.

(** ** The template *)

(** [NSI_TEMPLATE], line by line.  The source writes it as one
    triple-quoted literal that opens with a line break and closes after the
    last one; a backslash pair of the source is one backslash here. *)
Definition NSI_TEMPLATE_lines : list string := [
  EmptyString;
  "; NSIS script generated with NSIS Script Generator";
  "; © {current_year} Thibault Savenkoff";
  "; Generated on: {generation_date}";
  EmptyString;
  "!include MUI2.nsh";
  EmptyString;
  "; --- Application Info ---";
  "Name " +:+ q "{app_name}";
  "OutFile " +:+ q "{output_installer_name}";
  "InstallDir " +:+ q "{install_dir_base}\{install_dir_name}";
  "InstallDirRegKey {adminregistry} " +:+ q "{install_path_reg_key}" +:+ " " +:+ q "Install_Dir";
  "BrandingText " +:+ q "{branding}";
  EmptyString;
  "; --- Version Information (for EXE properties) ---";
  "VIProductVersion " +:+ q "{product_version}";
  "VIAddVersionKey " +:+ q "ProductName" +:+ " " +:+ q "{app_name}";
  "VIAddVersionKey " +:+ q "CompanyName" +:+ " " +:+ q "{publisher}";
  "VIAddVersionKey " +:+ q "LegalCopyright" +:+ " " +:+ q "Copyright (c) {current_year} {publisher}";
  "VIAddVersionKey " +:+ q "FileDescription" +:+ " " +:+ q "{app_name} Installer";
  "VIAddVersionKey " +:+ q "FileVersion" +:+ " " +:+ q "{app_version}";
  "VIAddVersionKey " +:+ q "ProductVersion" +:+ " " +:+ q "{product_version}";
  EmptyString;
  "; --- Interface Settings ---";
  "{request_execution_level}";
  "{set_compressor_command}";
  EmptyString;
  "; --- Variables ---";
  "Var StartMenuFolder";
  EmptyString;
  "; --- MUI Settings ---";
  "{mui_defines}";
  EmptyString;
  "; --- Pages ---";
  "{page_welcome}";
  "{page_license}";
  "{page_directory}";
  "!insertmacro MUI_PAGE_INSTFILES";
  "{page_finish}";
  EmptyString;
  "; --- Uninstaller Pages ---";
  "!insertmacro MUI_UNPAGE_CONFIRM";
  "!insertmacro MUI_UNPAGE_INSTFILES";
  EmptyString;
  "; --- Language Settings ---";
  "; NSIS will show a language selection dialog if multiple languages are loaded.";
  "{language_macros}";
  EmptyString;
  "; --- Functions ---";
  "Function .onInit";
  "  ; Set Start Menu Folder variable";
  "  StrCpy $StartMenuFolder " +:+ q "{start_menu_folder}";
  "FunctionEnd";
  EmptyString;
  "; --- Installation Section ---";
  "Section " +:+ q "Install" +:+ " SecInstall";
  "  SetOutPath $INSTDIR";
  "  SetOverwrite ifnewer";
  EmptyString;
  "  ; --- Files ---";
  "  ; NSIS uses backslashes in paths within the script";
  "  File /r " +:+ q "{source_dir_nsis}\*.*";
  EmptyString;
  "  ; --- Registry ---";
  "  WriteRegStr {adminregistry} " +:+ q "{install_path_reg_key}" +:+ " " +:+ q "Install_Dir" +:+ " " +:+ q "$INSTDIR";
  "  WriteRegStr {adminregistry} " +:+ q "{uninstall_reg_key}" +:+ " " +:+ q "DisplayName" +:+ " " +:+ q "{app_name} (remove only)";
  "  WriteRegStr {adminregistry} " +:+ q "{uninstall_reg_key}" +:+ " " +:+ q "UninstallString" +:+ " '" +:+ q "$INSTDIR\uninstall.exe" +:+ "'";
  "  WriteRegStr {adminregistry} " +:+ q "{uninstall_reg_key}" +:+ " " +:+ q "QuietUninstallString" +:+ " '" +:+ q "$INSTDIR\uninstall.exe" +:+ " /S'";
  "  {uninstall_icon_reg}";
  "  WriteRegStr {adminregistry} " +:+ q "{uninstall_reg_key}" +:+ " " +:+ q "Publisher" +:+ " " +:+ q "{publisher}";
  "  WriteRegStr {adminregistry} " +:+ q "{uninstall_reg_key}" +:+ " " +:+ q "DisplayVersion" +:+ " " +:+ q "{app_version}";
  "  WriteRegStr {adminregistry} " +:+ q "{uninstall_reg_key}" +:+ " " +:+ q "URLInfoAbout" +:+ " " +:+ q "{website}";
  "  WriteRegDWORD {adminregistry} " +:+ q "{uninstall_reg_key}" +:+ " " +:+ q "NoModify" +:+ " 1";
  "  WriteRegDWORD {adminregistry} " +:+ q "{uninstall_reg_key}" +:+ " " +:+ q "NoRepair" +:+ " 1";
  EmptyString;
  "  ; --- Uninstaller ---";
  "  WriteUninstaller " +:+ q "$INSTDIR\uninstall.exe";
  EmptyString;
  "  ; --- Shortcuts ---";
  "{create_shortcuts_block}";
  EmptyString;
  "SectionEnd";
  EmptyString;
  "; --- Uninstallation Section ---";
  "Section " +:+ q "Uninstall" +:+ " SecUninstall";
  "  ; --- Remove Shortcuts ---";
  "{remove_shortcuts_block}";
  EmptyString;
  "  ; --- Remove Files ---";
  "  Delete " +:+ q "$INSTDIR\uninstall.exe";
  "  RMDir /r " +:+ q "$INSTDIR";
  EmptyString;
  "  ; --- Remove Registry Keys ---";
  "  DeleteRegKey {adminregistry} " +:+ q "{uninstall_reg_key}";
  "  DeleteRegKey {adminregistry} " +:+ q "{install_path_reg_key}";
  EmptyString;
  "SectionEnd";
  EmptyString
].

Definition NSI_TEMPLATE : string := join nl NSI_TEMPLATE_lines.

(** ** Effects: the dictionary, the console and exceptions *)

(** What the renderer prints. *)
Inductive event : Type :=
  | DebugLanguages (v : value)
  | WarnNoLanguages
  | ErrMissingKey (k : string)
  | ContextKeys (ks : gset string)
  | ErrGenerating (e : exn).

(** The caller's dictionary, which the renderer holds by reference, and the
    console. *)
Record pystate : Type := PyState {
  config : gmap string value;
  console : list event;
}.

(** A computation runs from a state to a value or a raised exception, and
    to the state it leaves behind in either case. *)
Definition M (A : Type) : Type := pystate -> (exn + A) * pystate.

Definition ret {A} (x : A) : M A := fun st => (inr x, st).

Definition bind {A B} (c : M A) (k : A -> M B) : M B :=
  fun st =>
    match c st with
    | (inr x, st') => k x st'
    | (inl e, st') => (inl e, st')
    end.

Definition raise {A} (e : exn) : M A := fun st => (inl e, st).

Definition lift {A} (r : exn + A) : M A := fun st => (r, st).

(** [try: body except Exception: handler] *)
Definition try_except {A} (body : M A) (handler : exn -> M A) : M A :=
  fun st =>
    match body st with
    | (inr x, st') => (inr x, st')
    | (inl e, st') => handler e st'
    end.

Declare Scope py_scope.
Delimit Scope py_scope with py.
Notation "x <- c ;; k" := (bind c (fun x => k))
  (at level 100, c at next level, right associativity) : py_scope.
Notation "c ;; k" := (bind c (fun _ => k))
  (at level 100, right associativity) : py_scope.
Local Open Scope py_scope.

(** List concatenation, next to the string notations. *)
Infix "+++" := (@app string) (at level 60, right associativity, only parsing).

(** [config.get(k, default)] *)
Definition cfg_get (k : string) (dflt : value) : M value :=
  fun st => (inr (default dflt (config st !! k)), st).

(** [config[k]] *)
Definition cfg_item (k : string) : M value :=
  fun st =>
    match config st !! k with
    | Some v => (inr v, st)
    | None => (inl (KeyError k), st)
    end.

(** [k in config] *)
Definition cfg_contains (k : string) : M bool :=
  fun st => (inr (match config st !! k with Some _ => true | None => false end), st).

(** [config[k] = v] *)
Definition cfg_setitem (k : string) (v : value) : M unit :=
  fun st => (inr tt, {| config := <[k:=v]> (config st); console := console st |}).

(** [print(...)] *)
Definition print (e : event) : M unit :=
  fun st => (inr tt, {| config := config st; console := console st ++ [e] |}).

(** ** The renderer *)

Section Renderer.

Variable h : host.

(** [config.get(k) and os.path.exists(config[k])], as a condition. *)
Definition get_and_exists (k : string) : M bool :=
  v <- cfg_get k VNone ;;
  if truthy v then (p <- cfg_item k ;; lift (os_path_exists h p)) else ret false.

(** The context starts with the clock and takes every entry of [config]. *)
Definition initial_context : M (gmap string value) :=
  fun st =>
    (inr (config st ∪ <["current_year" := VInt (now_year h)]>
                       (<["generation_date" := VStr (now_stamp h)]> ∅)), st).

Definition language_directive (lang : string) : string :=
  "!insertmacro MUI_LANGUAGE " +:+ q lang.

(** Generate Language Macros *)
Definition language_macros_lines : M (list string) :=
  present <- cfg_contains "selected_languages" ;;
  chosen <- (if present : bool
             then (v <- cfg_item "selected_languages" ;; ret (truthy v))
             else ret false) ;;
  if chosen : bool then
    v <- cfg_item "selected_languages" ;;
    print (DebugLanguages v) ;;
    langs <- lift (iter v) ;;
    ret (map language_directive langs)
  else
    print WarnNoLanguages ;;
    ret [language_directive "English"].

Definition step_language_macros (context : gmap string value)
  : M (gmap string value) :=
  lang_macros_lines <- language_macros_lines ;;
  ret (<["language_macros" := VStr (join nl lang_macros_lines)]> context).

(** Process specific fields, and Compression *)
Definition step_specific_fields (context : gmap string value)
  : M (gmap string value) :=
  prefer <- cfg_get "prefer_64bit" (VBool true) ;;
  admin_t <- cfg_get "request_admin" (VBool true) ;;
  admin_f <- cfg_get "request_admin" (VBool false) ;;
  let context := <["install_dir_base" := VStr (
      if truthy prefer && truthy admin_t then "$PROGRAMFILES64"
      else if truthy admin_f then "$PROGRAMFILES"
      else "$LOCALAPPDATA")]> context in
  let context := <["request_execution_level" := VStr (
      if truthy admin_t then "RequestExecutionLevel admin"
      else "RequestExecutionLevel user")]> context in
  let context := <["adminregistry" := VStr (
      if truthy admin_t then "HKLM" else "HKCU")]> context in
  method <- cfg_get "compression" (VStr "lzma") ;;
  comp <- lift (call_lower method) ;;
  solid <- cfg_get "solid_compression" (VBool true) ;;
  ret (<["set_compressor_command" := VStr (
      "SetCompressor " +:+ (if truthy solid then "/SOLID " else EmptyString)
      +:+ comp)]> context).

(** MUI Defines *)
Definition mui_defines_lines : M (list string) :=
  let mui_defines := ["!define MUI_ABORTWARNING"] in
  licensed <- get_and_exists "license_file" ;;
  mui_defines <- (if licensed : bool then
      lic <- cfg_item "license_file" ;;
      low <- lift (call_lower lic) ;;
      if endswith low ".rtf"
      then ret (mui_defines +++ ["!define MUI_LICENSEPAGE_CHECKBOX"])
      else ret mui_defines
    else
      cfg_setitem "show_license_page" (VBool false) ;;
      ret mui_defines) ;;
  inst <- get_and_exists "installer_icon" ;;
  mui_defines <- (if inst : bool then
      icon <- cfg_item "installer_icon" ;;
      ret (mui_defines +++ ["!define MUI_ICON " +:+ q (py_str h icon)])
    else ret mui_defines) ;;
  uninst <- get_and_exists "uninstaller_icon" ;;
  if uninst : bool then
    icon <- cfg_item "uninstaller_icon" ;;
    ret (mui_defines +++ ["!define MUI_UNICON " +:+ q (py_str h icon)])
  else
    inst <- get_and_exists "installer_icon" ;;
    if inst : bool then
      icon <- cfg_item "installer_icon" ;;
      ret (mui_defines +++ ["!define MUI_UNICON " +:+ q (py_str h icon)])
    else ret mui_defines.

Definition step_mui_defines (context : gmap string value)
  : M (gmap string value) :=
  mui_defines <- mui_defines_lines ;;
  ret (<["mui_defines" := VStr (join nl mui_defines)]> context).

(** UI Pages, Start Menu Folder Logic and the path for the File command *)
Definition step_pages (context : gmap string value) : M (gmap string value) :=
  welcome <- cfg_get "show_welcome_page" (VBool true) ;;
  let context := <["page_welcome" := VStr (
      if truthy welcome then "!insertmacro MUI_PAGE_WELCOME"
      else "; Welcome page disabled")]> context in
  finish <- cfg_get "show_finish_page" (VBool true) ;;
  let context := <["page_finish" := VStr (
      if truthy finish then "!insertmacro MUI_PAGE_FINISH"
      else "; Finish page disabled")]> context in
  directory <- cfg_get "show_directory_page" (VBool true) ;;
  let context := <["page_directory" := VStr (
      if truthy directory then "!insertmacro MUI_PAGE_DIRECTORY"
      else "; Directory page disabled")]> context in
  show <- cfg_get "show_license_page" (VBool false) ;;
  lic <- cfg_get "license_file" VNone ;;
  page_license <- (if truthy show && truthy lic then
      file <- cfg_item "license_file" ;;
      ret ("!insertmacro MUI_PAGE_LICENSE " +:+ q (py_str h file))
    else ret "; License page disabled or no file specified/found") ;;
  let context := <["page_license" := VStr page_license]> context in
  folder <- cfg_item "start_menu_folder" ;;
  let context := <["start_menu_folder" := folder]> context in
  source_dir <- cfg_item "source_dir" ;;
  source_dir_nsis <- lift (call_replace "/" bslash source_dir) ;;
  ret (<["source_dir_nsis" := VStr source_dir_nsis]> context).

(** Shortcut Creation Code *)
Definition shortcut_lines : M (list string * list string) :=
  admin <- cfg_get "request_admin" (VBool true) ;;
  let create_shortcut_lines :=
    if truthy admin then ["  SetShellVarContext all ; Install for all users"]
    else [] in
  let remove_shortcut_lines :=
    if truthy admin then ["  SetShellVarContext all ; Remove for all users"]
    else [] in
  main_executable <- cfg_get "main_executable" (VStr "MissingExecutable.exe") ;;
  let main_exe_path := "$INSTDIR\" +:+ py_str h main_executable in
  name <- cfg_get "app_name" (VStr "MyApp") ;;
  let app_name := py_str h name in
  let sm_folder_var := "$StartMenuFolder" in
  startmenu <- cfg_get "create_startmenu_shortcut" (VBool true) ;;
  let sm_link := "$SMPROGRAMS\" +:+ sm_folder_var +:+ "\" +:+ app_name +:+ ".lnk" in
  let create_shortcut_lines :=
    if truthy startmenu then
      create_shortcut_lines +++ [
        "  ; Create Start Menu Shortcuts";
        "  CreateDirectory " +:+ q ("$SMPROGRAMS\" +:+ sm_folder_var);
        "  CreateShortCut " +:+ q sm_link +:+ " " +:+ q main_exe_path +:+ " "
          +:+ q EmptyString +:+ " " +:+ q main_exe_path +:+ " 0" ]
    else create_shortcut_lines in
  let remove_shortcut_lines :=
    if truthy startmenu then
      remove_shortcut_lines +++ [
        "  ; Remove Start Menu Shortcuts";
        "  Delete " +:+ q sm_link;
        "  RMDir " +:+ q ("$SMPROGRAMS\" +:+ sm_folder_var) +:+ " ; Only removes if empty" ]
    else remove_shortcut_lines in
  desktop <- cfg_get "create_desktop_shortcut" (VBool true) ;;
  let desktop_link := "$DESKTOP\" +:+ app_name +:+ ".lnk" in
  let create_shortcut_lines :=
    if truthy desktop then
      create_shortcut_lines +++ [
        "  ; Create Desktop Shortcut";
        "  CreateShortCut " +:+ q desktop_link +:+ " " +:+ q main_exe_path +:+ " "
          +:+ q EmptyString +:+ " " +:+ q main_exe_path +:+ " 0" ]
    else create_shortcut_lines in
  let remove_shortcut_lines :=
    if truthy desktop then
      remove_shortcut_lines +++ [
        "  ; Remove Desktop Shortcut";
        "  Delete " +:+ q desktop_link ]
    else remove_shortcut_lines in
  ret (create_shortcut_lines, remove_shortcut_lines).

(** [sep.join(lines) if lines else placeholder] *)
Definition block_or (placeholder : string) (lines : list string) : string :=
  match lines with
  | [] => placeholder
  | _ => join nl lines
  end.

Definition no_shortcuts : string := "  ; No shortcuts configured".

Definition step_shortcuts (context : gmap string value)
  : M (gmap string value) :=
  lines <- shortcut_lines ;;
  let context :=
    <["create_shortcuts_block" := VStr (block_or no_shortcuts (fst lines))]> context in
  ret (<["remove_shortcuts_block" := VStr (block_or no_shortcuts (snd lines))]> context).

(** Uninstall Icon Registry Entry *)
Definition display_icon_entry (hive key path : string) : string :=
  "WriteRegStr " +:+ hive +:+ " " +:+ q key +:+ " " +:+ q "DisplayIcon" +:+ " "
  +:+ q path.

Definition main_executable_entry (context : gmap string value) : M string :=
  exe <- cfg_get "main_executable" (VStr "?.exe") ;;
  main_exe <- lift (call_replace bs (bslash +:+ bslash) exe) ;;
  hive <- lift (from_option inr (inl (KeyError "adminregistry"))
                  (context !! "adminregistry")) ;;
  key <- cfg_item "uninstall_reg_key" ;;
  ret (display_icon_entry (py_str h hive) (py_str h key)
         ("$INSTDIR\\" +:+ main_exe)).

Definition step_uninstall_icon (context : gmap string value)
  : M (gmap string value) :=
  uninst <- get_and_exists "uninstaller_icon" ;;
  uninst_icon_path_reg <- (if uninst : bool then cfg_item "uninstaller_icon"
    else
      inst <- get_and_exists "installer_icon" ;;
      if inst : bool then cfg_item "installer_icon" else ret VNone) ;;
  entry <- (if truthy uninst_icon_path_reg then
      try_except
        (path <- lift (from_option inr (inl ValueError)
                         (os_path_abspath h uninst_icon_path_reg)) ;;
         let abs_icon_path := replace bs (bslash +:+ bslash) path in
         hive <- lift (from_option inr (inl (KeyError "adminregistry"))
                         (context !! "adminregistry")) ;;
         key <- cfg_item "uninstall_reg_key" ;;
         ret (display_icon_entry (py_str h hive) (py_str h key) abs_icon_path))
        (fun _ =>
           entry <- main_executable_entry context ;;
           ret (entry +:+ " ; Default icon due to path issue"))
    else main_executable_entry context) ;;
  ret (<["uninstall_icon_reg" := VStr entry]> context).

(** Everything before the template is formatted. *)
Definition build_context : M (gmap string value) :=
  context <- initial_context ;;
  context <- step_language_macros context ;;
  context <- step_specific_fields context ;;
  context <- step_mui_defines context ;;
  context <- step_pages context ;;
  context <- step_shortcuts context ;;
  step_uninstall_icon context.

(** [NSI_TEMPLATE.format] over the entries of the context. *)
Definition format_template (context : gmap string value) : exn + string :=
  match parse_format NSI_TEMPLATE with
  | Some segs => vformat h context segs
  | None => inl ValueError
  end.

(** Format the template: a missing key and any other exception are
    reported on the console and the answer is [None]. *)
Definition generate_nsis_script_from_config : M (option string) :=
  context <- build_context ;;
  match format_template context with
  | inr final_script => ret (Some final_script)
  | inl (KeyError k) =>
      print (ErrMissingKey k) ;;
      print (ContextKeys (dom context)) ;;
      ret None
  | inl e =>
      print (ErrGenerating e) ;;
      ret None
  end.

End Renderer.

(** ** The configuration record of the collector *)

(** The dictionary the main program assembles, field by field, before it
    calls the renderer.  [main_executable] is [None] when no executable was
    selected; an optional path that was not selected is the empty string. *)
Record ConfigurationRecord : Type := Config {
  app_name : string;
  app_version : string;
  product_version : string;
  publisher : string;
  website : string;
  source_dir : string;
  main_executable : option string;
  license_file : string;
  installer_icon : string;
  uninstaller_icon : string;
  output_installer_name : string;
  install_dir_name : string;
  request_admin : bool;
  prefer_64bit : bool;
  compression : string;
  solid_compression : bool;
  create_startmenu_shortcut : bool;
  start_menu_folder : string;
  create_desktop_shortcut : bool;
  uninstall_reg_key : string;
  install_path_reg_key : string;
  selected_languages : list string;
  branding : string;
  show_welcome_page : bool;
  show_license_page : bool;
  show_directory_page : bool;
  show_finish_page : bool;
}.

Definition to_dict (r : ConfigurationRecord) : gmap string value :=
  list_to_map [
    ("app_name", VStr (app_name r));
    ("app_version", VStr (app_version r));
    ("product_version", VStr (product_version r));
    ("publisher", VStr (publisher r));
    ("website", VStr (website r));
    ("source_dir", VStr (source_dir r));
    ("main_executable", from_option VStr VNone (main_executable r));
    ("license_file", VStr (license_file r));
    ("installer_icon", VStr (installer_icon r));
    ("uninstaller_icon", VStr (uninstaller_icon r));
    ("output_installer_name", VStr (output_installer_name r));
    ("install_dir_name", VStr (install_dir_name r));
    ("request_admin", VBool (request_admin r));
    ("prefer_64bit", VBool (prefer_64bit r));
    ("compression", VStr (compression r));
    ("solid_compression", VBool (solid_compression r));
    ("create_startmenu_shortcut", VBool (create_startmenu_shortcut r));
    ("start_menu_folder", VStr (start_menu_folder r));
    ("create_desktop_shortcut", VBool (create_desktop_shortcut r));
    ("uninstall_reg_key", VStr (uninstall_reg_key r));
    ("install_path_reg_key", VStr (install_path_reg_key r));
    ("selected_languages", VList (selected_languages r));
    ("branding", VStr (branding r));
    ("show_welcome_page", VBool (show_welcome_page r));
    ("show_license_page", VBool (show_license_page r));
    ("show_directory_page", VBool (show_directory_page r));
    ("show_finish_page", VBool (show_finish_page r))
  ].

(** The call [generate_nsis_script_from_config(config)] on a record, from a
    console that already shows [out]. *)
Definition render (h : host) (r : ConfigurationRecord) (out : list event)
  : (exn + option string) * pystate :=
  generate_nsis_script_from_config h {| config := to_dict r; console := out |}.

(** The record with its [show_license_page] entry overwritten by [False]. *)
Definition hide_license (r : ConfigurationRecord) : ConfigurationRecord :=
  {| app_name := app_name r; app_version := app_version r;
     product_version := product_version r; publisher := publisher r;
     website := website r; source_dir := source_dir r;
     main_executable := main_executable r; license_file := license_file r;
     installer_icon := installer_icon r; uninstaller_icon := uninstaller_icon r;
     output_installer_name := output_installer_name r;
     install_dir_name := install_dir_name r; request_admin := request_admin r;
     prefer_64bit := prefer_64bit r; compression := compression r;
     solid_compression := solid_compression r;
     create_startmenu_shortcut := create_startmenu_shortcut r;
     start_menu_folder := start_menu_folder r;
     create_desktop_shortcut := create_desktop_shortcut r;
     uninstall_reg_key := uninstall_reg_key r;
     install_path_reg_key := install_path_reg_key r;
     selected_languages := selected_languages r; branding := branding r;
     show_welcome_page := show_welcome_page r;
     show_license_page := false;
     show_directory_page := show_directory_page r;
     show_finish_page := show_finish_page r |}.

(** ** What the renderer computes on a record *)

(** The reading of each step of the renderer on a record of the collector:
    plain functions of the record and the host, against which the monadic
    renderer is run below. *)
Section Reading.

Variable h : host.
Variable r : ConfigurationRecord.

(** [config.get(k) and os.path.exists(config[k])] on a path field. *)
Definition present (path : string) : bool :=
  negb (String.eqb path EmptyString) && path_exists h path.

Definition hive : string := if request_admin r then "HKLM" else "HKCU".

Definition install_root : string :=
  if prefer_64bit r && request_admin r then "$PROGRAMFILES64"
  else if request_admin r then "$PROGRAMFILES"
  else "$LOCALAPPDATA".

Definition execution_level : string :=
  if request_admin r then "RequestExecutionLevel admin"
  else "RequestExecutionLevel user".

Definition compressor_command : string :=
  "SetCompressor " +:+ (if solid_compression r then "/SOLID " else EmptyString)
  +:+ lower (compression r).

Definition language_lines : list string :=
  match selected_languages r with
  | [] => [language_directive "English"]
  | langs => map language_directive langs
  end.

Definition language_event : event :=
  match selected_languages r with
  | [] => WarnNoLanguages
  | langs => DebugLanguages (VList langs)
  end.

Definition mui_defines_of : list string :=
  ("!define MUI_ABORTWARNING" ::
   (if present (license_file r) && endswith (lower (license_file r)) ".rtf"
    then ["!define MUI_LICENSEPAGE_CHECKBOX"] else [])) +++
  (if present (installer_icon r)
   then ["!define MUI_ICON " +:+ q (installer_icon r)] else []) +++
  (if present (uninstaller_icon r)
   then ["!define MUI_UNICON " +:+ q (uninstaller_icon r)]
   else if present (installer_icon r)
   then ["!define MUI_UNICON " +:+ q (installer_icon r)] else []).

(** The record the caller holds when the renderer is done. *)
Definition after : ConfigurationRecord :=
  if present (license_file r) then r else hide_license r.

Definition license_shown : bool :=
  show_license_page r && present (license_file r).

Definition license_disabled : string :=
  "; License page disabled or no file specified/found".

Definition page_license_of : string :=
  if license_shown then "!insertmacro MUI_PAGE_LICENSE " +:+ q (license_file r)
  else license_disabled.

(** [str] of the [main_executable] entry. *)
Definition main_exe_text : string := from_option id "None" (main_executable r).

Definition main_exe_path_of : string := "$INSTDIR\" +:+ main_exe_text.

Definition sm_link_of : string :=
  "$SMPROGRAMS\$StartMenuFolder\" +:+ app_name r +:+ ".lnk".

Definition desktop_link_of : string := "$DESKTOP\" +:+ app_name r +:+ ".lnk".

Definition create_shortcut_directive (link : string) : string :=
  "  CreateShortCut " +:+ q link +:+ " " +:+ q main_exe_path_of +:+ " "
  +:+ q EmptyString +:+ " " +:+ q main_exe_path_of +:+ " 0".

Definition create_lines_of : list string :=
  (if request_admin r then ["  SetShellVarContext all ; Install for all users"]
   else []) +++
  (if create_startmenu_shortcut r then
     [ "  ; Create Start Menu Shortcuts";
       "  CreateDirectory " +:+ q "$SMPROGRAMS\$StartMenuFolder";
       create_shortcut_directive sm_link_of ]
   else []) +++
  (if create_desktop_shortcut r then
     [ "  ; Create Desktop Shortcut";
       create_shortcut_directive desktop_link_of ]
   else []).

Definition remove_lines_of : list string :=
  (if request_admin r then ["  SetShellVarContext all ; Remove for all users"]
   else []) +++
  (if create_startmenu_shortcut r then
     [ "  ; Remove Start Menu Shortcuts";
       "  Delete " +:+ q sm_link_of;
       "  RMDir " +:+ q "$SMPROGRAMS\$StartMenuFolder" +:+ " ; Only removes if empty" ]
   else []) +++
  (if create_desktop_shortcut r then
     [ "  ; Remove Desktop Shortcut";
       "  Delete " +:+ q desktop_link_of ]
   else []).

(** The icon the registry entry is taken from, by priority. *)
Definition chosen_icon : option string :=
  if present (uninstaller_icon r) then Some (uninstaller_icon r)
  else if present (installer_icon r) then Some (installer_icon r)
  else None.

(** The entry that points at the main executable; the renderer calls
    [replace] on the entry of the dictionary, which is [None] when no
    executable was selected. *)
Definition executable_entry : exn + string :=
  match main_executable r with
  | Some exe =>
      inr (display_icon_entry hive (uninstall_reg_key r)
             ("$INSTDIR\\" +:+ replace bs (bslash +:+ bslash) exe))
  | None => inl (AttributeError VNone "replace")
  end.

Definition icon_entry : exn + string :=
  match chosen_icon with
  | Some icon =>
      match abspath h icon with
      | Some path =>
          inr (display_icon_entry hive (uninstall_reg_key r)
                 (replace bs (bslash +:+ bslash) path))
      | None =>
          match executable_entry with
          | inr entry => inr (entry +:+ " ; Default icon due to path issue")
          | inl e => inl e
          end
      end
  | None => executable_entry
  end.

Definition context0 : gmap string value :=
  to_dict r ∪ <["current_year" := VInt (now_year h)]>
                (<["generation_date" := VStr (now_stamp h)]> ∅).

Definition context1 : gmap string value :=
  <["language_macros" := VStr (join nl language_lines)]> context0.

Definition context2 : gmap string value :=
  <["set_compressor_command" := VStr compressor_command]>
  (<["adminregistry" := VStr hive]>
  (<["request_execution_level" := VStr execution_level]>
  (<["install_dir_base" := VStr install_root]> context1))).

Definition context3 : gmap string value :=
  <["mui_defines" := VStr (join nl mui_defines_of)]> context2.

Definition context4 : gmap string value :=
  <["source_dir_nsis" := VStr (replace "/" bslash (source_dir r))]>
  (<["start_menu_folder" := VStr (start_menu_folder r)]>
  (<["page_license" := VStr page_license_of]>
  (<["page_directory" := VStr (
       if show_directory_page r then "!insertmacro MUI_PAGE_DIRECTORY"
       else "; Directory page disabled")]>
  (<["page_finish" := VStr (
       if show_finish_page r then "!insertmacro MUI_PAGE_FINISH"
       else "; Finish page disabled")]>
  (<["page_welcome" := VStr (
       if show_welcome_page r then "!insertmacro MUI_PAGE_WELCOME"
       else "; Welcome page disabled")]> context3))))).

Definition context5 : gmap string value :=
  <["remove_shortcuts_block" := VStr (block_or no_shortcuts remove_lines_of)]>
  (<["create_shortcuts_block" := VStr (block_or no_shortcuts create_lines_of)]>
   context4).

(** The context the template is formatted with, given the icon entry. *)
Definition context_of (entry : string) : gmap string value :=
  <["uninstall_icon_reg" := VStr entry]> context5.

End Reading.

(** ** Running the renderer on a record *)

Lemma lookup_to_dict_str r :
  to_dict r !! "app_name" = Some (VStr (app_name r)) /\
  to_dict r !! "license_file" = Some (VStr (license_file r)) /\
  to_dict r !! "installer_icon" = Some (VStr (installer_icon r)) /\
  to_dict r !! "uninstaller_icon" = Some (VStr (uninstaller_icon r)) /\
  to_dict r !! "compression" = Some (VStr (compression r)) /\
  to_dict r !! "start_menu_folder" = Some (VStr (start_menu_folder r)) /\
  to_dict r !! "source_dir" = Some (VStr (source_dir r)) /\
  to_dict r !! "uninstall_reg_key" = Some (VStr (uninstall_reg_key r)) /\
  to_dict r !! "main_executable" = Some (from_option VStr VNone (main_executable r)) /\
  to_dict r !! "selected_languages" = Some (VList (selected_languages r)).
Proof. repeat split; reflexivity. Qed.

Lemma lookup_to_dict_bool r :
  to_dict r !! "request_admin" = Some (VBool (request_admin r)) /\
  to_dict r !! "prefer_64bit" = Some (VBool (prefer_64bit r)) /\
  to_dict r !! "solid_compression" = Some (VBool (solid_compression r)) /\
  to_dict r !! "create_startmenu_shortcut" = Some (VBool (create_startmenu_shortcut r)) /\
  to_dict r !! "create_desktop_shortcut" = Some (VBool (create_desktop_shortcut r)) /\
  to_dict r !! "show_welcome_page" = Some (VBool (show_welcome_page r)) /\
  to_dict r !! "show_license_page" = Some (VBool (show_license_page r)) /\
  to_dict r !! "show_directory_page" = Some (VBool (show_directory_page r)) /\
  to_dict r !! "show_finish_page" = Some (VBool (show_finish_page r)).
Proof. repeat split; reflexivity. Qed.

(** Rewrites every lookup in the dictionary of a record that the goal
    shows. *)
Ltac dict_lookups :=
  repeat match goal with
  | |- context [ to_dict ?r !! "app_name" ] =>
      rewrite (proj1 (lookup_to_dict_str r))
  | |- context [ to_dict ?r !! "license_file" ] =>
      rewrite (proj1 (proj2 (lookup_to_dict_str r)))
  | |- context [ to_dict ?r !! "installer_icon" ] =>
      rewrite (proj1 (proj2 (proj2 (lookup_to_dict_str r))))
  | |- context [ to_dict ?r !! "uninstaller_icon" ] =>
      rewrite (proj1 (proj2 (proj2 (proj2 (lookup_to_dict_str r)))))
  | |- context [ to_dict ?r !! "compression" ] =>
      rewrite (proj1 (proj2 (proj2 (proj2 (proj2 (lookup_to_dict_str r))))))
  | |- context [ to_dict ?r !! "start_menu_folder" ] =>
      rewrite (proj1 (proj2 (proj2 (proj2 (proj2 (proj2 (lookup_to_dict_str r)))))))
  | |- context [ to_dict ?r !! "source_dir" ] =>
      rewrite (proj1 (proj2 (proj2 (proj2 (proj2 (proj2 (proj2 (lookup_to_dict_str r))))))))
  | |- context [ to_dict ?r !! "uninstall_reg_key" ] =>
      rewrite (proj1 (proj2 (proj2 (proj2 (proj2 (proj2 (proj2 (proj2 (lookup_to_dict_str r)))))))))
  | |- context [ to_dict ?r !! "main_executable" ] =>
      rewrite (proj1 (proj2 (proj2 (proj2 (proj2 (proj2 (proj2 (proj2 (proj2 (lookup_to_dict_str r))))))))))
  | |- context [ to_dict ?r !! "selected_languages" ] =>
      rewrite (proj2 (proj2 (proj2 (proj2 (proj2 (proj2 (proj2 (proj2 (proj2 (lookup_to_dict_str r))))))))))
  | |- context [ to_dict ?r !! "request_admin" ] =>
      rewrite (proj1 (lookup_to_dict_bool r))
  | |- context [ to_dict ?r !! "prefer_64bit" ] =>
      rewrite (proj1 (proj2 (lookup_to_dict_bool r)))
  | |- context [ to_dict ?r !! "solid_compression" ] =>
      rewrite (proj1 (proj2 (proj2 (lookup_to_dict_bool r))))
  | |- context [ to_dict ?r !! "create_startmenu_shortcut" ] =>
      rewrite (proj1 (proj2 (proj2 (proj2 (lookup_to_dict_bool r)))))
  | |- context [ to_dict ?r !! "create_desktop_shortcut" ] =>
      rewrite (proj1 (proj2 (proj2 (proj2 (proj2 (lookup_to_dict_bool r))))))
  | |- context [ to_dict ?r !! "show_welcome_page" ] =>
      rewrite (proj1 (proj2 (proj2 (proj2 (proj2 (proj2 (lookup_to_dict_bool r)))))))
  | |- context [ to_dict ?r !! "show_license_page" ] =>
      rewrite (proj1 (proj2 (proj2 (proj2 (proj2 (proj2 (proj2 (lookup_to_dict_bool r))))))))
  | |- context [ to_dict ?r !! "show_directory_page" ] =>
      rewrite (proj1 (proj2 (proj2 (proj2 (proj2 (proj2 (proj2 (proj2 (lookup_to_dict_bool r)))))))))
  | |- context [ to_dict ?r !! "show_finish_page" ] =>
      rewrite (proj2 (proj2 (proj2 (proj2 (proj2 (proj2 (proj2 (proj2 (lookup_to_dict_bool r)))))))))
  end.

Lemma to_dict_hide_license r :
  <["show_license_page" := VBool false]> (to_dict r) = to_dict (hide_license r).
Proof. reflexivity. Qed.

Ltac run_step :=
  cbv beta iota delta
      [bind ret lift raise try_except cfg_get cfg_item cfg_contains cfg_setitem
       print get_and_exists config console default from_option truthy
       os_path_exists os_path_abspath call_lower call_replace iter py_str
       fst snd negb andb id];
  repeat match goal with
  | |- context [ <["show_license_page" := VBool false]> (to_dict ?r) ] =>
      rewrite (to_dict_hide_license r)
  end;
  dict_lookups;
  cbn [hide_license app_name license_file installer_icon uninstaller_icon
       compression start_menu_folder source_dir uninstall_reg_key
       main_executable selected_languages request_admin prefer_64bit
       solid_compression create_startmenu_shortcut create_desktop_shortcut
       show_welcome_page show_license_page show_directory_page
       show_finish_page].

Ltac run := repeat (progress run_step).

(** The conditions already decided, used wherever they show up again. *)
Ltac use_eqs :=
  repeat match goal with
  | H : ?b = true |- context [ ?b ] => rewrite H
  | H : ?b = false |- context [ ?b ] => rewrite H
  | H : ?o = Some _ |- context [ ?o ] => rewrite H
  | H : ?o = None |- context [ ?o ] => rewrite H
  end.

(** Case analysis on a condition that blocks the execution. *)
Ltac split_if :=
  match goal with
  | |- context [ if ?b then _ else _ ] =>
      lazymatch b with
      | context [ if _ then _ else _ ] => fail
      | _ => destruct b eqn:?
      end
  end.

(** Case analysis on the executable of the record and on [abspath]. *)
Ltac split_option :=
  match goal with
  | |- context [ main_executable ?r ] => destruct (main_executable r) eqn:?
  | |- context [ abspath ?h ?p ] => destruct (abspath h p) eqn:?
  end.

Ltac crunch :=
  repeat (progress (run; use_eqs));
  try (first [ split_if | split_option ]; crunch).

Lemma run_language_macros r ctx out :
  step_language_macros ctx {| config := to_dict r; console := out |}
  = (inr (<["language_macros" := VStr (join nl (language_lines r))]> ctx),
     {| config := to_dict r; console := out ++ [language_event r] |}).
Proof.
  unfold step_language_macros, language_macros_lines, language_lines, language_event.
  run.
  destruct (selected_languages r) as [|l ls] eqn:E; run; rewrite ?E; reflexivity.
Qed.

Lemma run_specific_fields r ctx out :
  step_specific_fields ctx {| config := to_dict r; console := out |}
  = (inr (<["set_compressor_command" := VStr (compressor_command r)]>
          (<["adminregistry" := VStr (hive r)]>
          (<["request_execution_level" := VStr (execution_level r)]>
          (<["install_dir_base" := VStr (install_root r)]> ctx)))),
     {| config := to_dict r; console := out |}).
Proof.
  unfold step_specific_fields. run. reflexivity.
Qed.

Lemma run_mui_defines h r ctx out :
  step_mui_defines h ctx {| config := to_dict r; console := out |}
  = (inr (<["mui_defines" := VStr (join nl (mui_defines_of h r))]> ctx),
     {| config := to_dict (after h r); console := out |}).
Proof.
  unfold step_mui_defines, mui_defines_lines, mui_defines_of, after, present.
  crunch; reflexivity.
Qed.

Lemma run_pages h r ctx out :
  step_pages h ctx {| config := to_dict (after h r); console := out |}
  = (inr (<["source_dir_nsis" := VStr (replace "/" bslash (source_dir r))]>
          (<["start_menu_folder" := VStr (start_menu_folder r)]>
          (<["page_license" := VStr (page_license_of h r)]>
          (<["page_directory" := VStr (
               if show_directory_page r then "!insertmacro MUI_PAGE_DIRECTORY"
               else "; Directory page disabled")]>
          (<["page_finish" := VStr (
               if show_finish_page r then "!insertmacro MUI_PAGE_FINISH"
               else "; Finish page disabled")]>
          (<["page_welcome" := VStr (
               if show_welcome_page r then "!insertmacro MUI_PAGE_WELCOME"
               else "; Welcome page disabled")]> ctx)))))),
     {| config := to_dict (after h r); console := out |}).
Proof.
  unfold step_pages, after, page_license_of, license_shown, present.
  destruct (String.eqb (license_file r) EmptyString) eqn:El;
    [| destruct (path_exists h (license_file r)) eqn:Pl ]; run; use_eqs;
    destruct (show_license_page r); reflexivity.
Qed.

Lemma run_shortcuts h r ctx out :
  step_shortcuts h ctx {| config := to_dict (after h r); console := out |}
  = (inr (<["remove_shortcuts_block" :=
              VStr (block_or no_shortcuts (remove_lines_of r))]>
          (<["create_shortcuts_block" :=
              VStr (block_or no_shortcuts (create_lines_of r))]> ctx)),
     {| config := to_dict (after h r); console := out |}).
Proof.
  unfold step_shortcuts, shortcut_lines, after, remove_lines_of, create_lines_of,
    create_shortcut_directive, main_exe_path_of, main_exe_text, sm_link_of,
    desktop_link_of.
  destruct (present h (license_file r)); run;
    destruct (main_executable r), (request_admin r),
      (create_startmenu_shortcut r), (create_desktop_shortcut r);
    reflexivity.
Qed.

Lemma run_uninstall_icon h r ctx out :
  ctx !! "adminregistry" = Some (VStr (hive r)) ->
  step_uninstall_icon h ctx {| config := to_dict (after h r); console := out |}
  = (match icon_entry h r with
     | inr entry => inr (<["uninstall_icon_reg" := VStr entry]> ctx)
     | inl e => inl e
     end,
     {| config := to_dict (after h r); console := out |}).
Proof.
  intros Hhive.
  unfold step_uninstall_icon, main_executable_entry, icon_entry, chosen_icon,
    executable_entry, after, present.
  rewrite !Hhive.
  destruct (negb (String.eqb (license_file r) EmptyString)
            && path_exists h (license_file r)); crunch; reflexivity.
Qed.

(** ** Formatting, line by line *)

Lemma string_app_cons (x : ascii) (a b : string) :
  String x a +:+ b = String x (a +:+ b).
Proof. reflexivity. Qed.

Lemma string_app_assoc (a b c : string) : (a +:+ b) +:+ c = a +:+ (b +:+ c).
Proof.
  induction a as [|x a IH]; [reflexivity|].
  rewrite !string_app_cons. by rewrite IH.
Qed.

Lemma string_app_nil_r (a : string) : a +:+ EmptyString = a.
Proof.
  induction a as [|x a IH]; [reflexivity|].
  rewrite string_app_cons. by rewrite IH.
Qed.

(** The fields a template asks for, in order. *)
Fixpoint fields_of (segs : list segment) : list string :=
  match segs with
  | [] => []
  | Lit _ :: rest => fields_of rest
  | Field k :: rest => k :: fields_of rest
  end.

(** The text of a template whose fields all have an entry. *)
Fixpoint fill (h : host) (ctx : gmap string value) (segs : list segment) : string :=
  match segs with
  | [] => EmptyString
  | Lit s :: rest => s +:+ fill h ctx rest
  | Field k :: rest => py_str h (default VNone (ctx !! k)) +:+ fill h ctx rest
  end.

Lemma vformat_fill h ctx segs :
  Forall (fun k => is_Some (ctx !! k)) (fields_of segs) ->
  vformat h ctx segs = inr (fill h ctx segs).
Proof.
  induction segs as [|[s|k] rest IH]; simpl; intros Hall.
  - reflexivity.
  - by rewrite IH.
  - inversion Hall as [|? ? [v Hv] Hrest]; subst.
    rewrite Hv, IH by done. reflexivity.
Qed.

Lemma vformat_missing h ctx segs k :
  k ∈ fields_of segs -> ctx !! k = None ->
  exists k', k' ∈ fields_of segs /\ ctx !! k' = None
             /\ vformat h ctx segs = inl (KeyError k').
Proof.
  induction segs as [|[s|k0] rest IH]; simpl; intros Hin Hk.
  - by apply elem_of_nil in Hin.
  - destruct (IH Hin Hk) as (k' & Hin' & Hk' & ->). eauto.
  - destruct (ctx !! k0) as [v|] eqn:Hk0.
    + apply elem_of_cons in Hin as [->|Hin]; [congruence|].
      destruct (IH Hin Hk) as (k' & Hin' & Hk' & ->).
      exists k'. split; [by apply elem_of_cons; right | done].
    + exists k0. split; [by apply elem_of_cons; left | done].
Qed.

Lemma fill_app h ctx a b : fill h ctx (a ++ b) = fill h ctx a +:+ fill h ctx b.
Proof.
  induction a as [|[s|k] a IH]; simpl; [reflexivity | |];
    by rewrite IH, string_app_assoc.
Qed.

(** Adjacent literal pieces merged into one. *)
Fixpoint fuse (segs : list segment) : list segment :=
  match segs with
  | [] => []
  | Lit s :: rest =>
      match fuse rest with
      | Lit t :: rest' => Lit (s +:+ t) :: rest'
      | rest' => Lit s :: rest'
      end
  | Field k :: rest => Field k :: fuse rest
  end.

Lemma fill_fuse h ctx segs : fill h ctx (fuse segs) = fill h ctx segs.
Proof.
  induction segs as [|[s|k] rest IH]; simpl; [reflexivity | | by rewrite IH].
  rewrite <- IH. destruct (fuse rest) as [|[t|k] rest']; simpl;
    by rewrite ?string_app_assoc.
Qed.

(** The pieces of one line of the template. *)
Definition line_segments (line : string) : list segment :=
  default [] (parse_format line).

Definition fill_line (h : host) (ctx : gmap string value) (line : string) : string :=
  fill h ctx (line_segments line).

(** The lines of the script: the lines of the template, each with its
    fields filled in. *)
Definition script_lines (h : host) (ctx : gmap string value) : list string :=
  map (fill_line h ctx) NSI_TEMPLATE_lines.

Fixpoint interleave (sep : segment) (ls : list (list segment)) : list segment :=
  match ls with
  | [] => []
  | [l] => l
  | l :: rest => l ++ sep :: interleave sep rest
  end.

Lemma fill_interleave h ctx ls :
  fill h ctx (interleave (Lit nl) ls) = join nl (map (fill h ctx) ls).
Proof.
  induction ls as [|l [|l' rest] IH]; [reflexivity | reflexivity |].
  change (fill h ctx (l ++ Lit nl :: interleave (Lit nl) (l' :: rest))
          = fill h ctx l +:+ nl +:+ join nl (map (fill h ctx) (l' :: rest))).
  rewrite fill_app.
  change (fill h ctx (Lit nl :: interleave (Lit nl) (l' :: rest)))
    with (nl +:+ fill h ctx (interleave (Lit nl) (l' :: rest))).
  by rewrite IH.
Qed.

(** The pieces [str.format] finds in the template. *)
Definition NSI_SEGMENTS : list segment :=
  Eval vm_compute in default [] (parse_format NSI_TEMPLATE).

Lemma parse_NSI_TEMPLATE : parse_format NSI_TEMPLATE = Some NSI_SEGMENTS.
Proof. vm_compute. reflexivity. Qed.

Lemma NSI_SEGMENTS_lines :
  fuse NSI_SEGMENTS = fuse (interleave (Lit nl) (map line_segments NSI_TEMPLATE_lines)).
Proof. vm_compute. reflexivity. Qed.

Lemma fill_NSI_SEGMENTS h ctx :
  fill h ctx NSI_SEGMENTS = join nl (script_lines h ctx).
Proof.
  rewrite <- fill_fuse, NSI_SEGMENTS_lines, fill_fuse, fill_interleave.
  unfold script_lines, fill_line. by rewrite map_map.
Qed.

(** The fields of the template. *)
Definition NSI_FIELDS : list string := Eval vm_compute in fields_of NSI_SEGMENTS.

Lemma format_template_fill h ctx :
  Forall (fun k => is_Some (ctx !! k)) NSI_FIELDS ->
  format_template h ctx = inr (join nl (script_lines h ctx)).
Proof.
  intros Hall. unfold format_template. rewrite parse_NSI_TEMPLATE.
  rewrite vformat_fill by exact Hall. by rewrite fill_NSI_SEGMENTS.
Qed.

(** ** The whole renderer on a record *)

Lemma bind_inr {A B} (c : M A) (k : A -> M B) st x st' :
  c st = (inr x, st') -> bind c k st = k x st'.
Proof. unfold bind. intros ->. reflexivity. Qed.

Lemma bind_inl {A B} (c : M A) (k : A -> M B) st e st' :
  c st = (inl e, st') -> bind c k st = (inl e, st').
Proof. unfold bind. intros ->. reflexivity. Qed.

Lemma context5_hive h r : context5 h r !! "adminregistry" = Some (VStr (hive r)).
Proof. reflexivity. Qed.

Lemma run_build_context h r out :
  build_context h {| config := to_dict r; console := out |}
  = (match icon_entry h r with
     | inr entry => inr (context_of h r entry)
     | inl e => inl e
     end,
     {| config := to_dict (after h r); console := out ++ [language_event r] |}).
Proof.
  unfold build_context.
  erewrite (bind_inr (initial_context h)) by reflexivity.
  erewrite bind_inr by apply run_language_macros.
  erewrite bind_inr by apply run_specific_fields.
  erewrite bind_inr by apply run_mui_defines.
  erewrite bind_inr by apply run_pages.
  erewrite bind_inr by apply run_shortcuts.
  apply (run_uninstall_icon h r (context5 h r)), context5_hive.
Qed.

(** The entries of the context that the template asks for. *)
Definition slots (h : host) (r : ConfigurationRecord) (entry : string)
  : list (string * value) := [
  ("current_year", VInt (now_year h));
  ("generation_date", VStr (now_stamp h));
  ("app_name", VStr (app_name r));
  ("output_installer_name", VStr (output_installer_name r));
  ("install_dir_base", VStr (install_root r));
  ("install_dir_name", VStr (install_dir_name r));
  ("adminregistry", VStr (hive r));
  ("install_path_reg_key", VStr (install_path_reg_key r));
  ("branding", VStr (branding r));
  ("product_version", VStr (product_version r));
  ("publisher", VStr (publisher r));
  ("app_version", VStr (app_version r));
  ("request_execution_level", VStr (execution_level r));
  ("set_compressor_command", VStr (compressor_command r));
  ("mui_defines", VStr (join nl (mui_defines_of h r)));
  ("page_welcome", VStr (
     if show_welcome_page r then "!insertmacro MUI_PAGE_WELCOME"
     else "; Welcome page disabled"));
  ("page_license", VStr (page_license_of h r));
  ("page_directory", VStr (
     if show_directory_page r then "!insertmacro MUI_PAGE_DIRECTORY"
     else "; Directory page disabled"));
  ("page_finish", VStr (
     if show_finish_page r then "!insertmacro MUI_PAGE_FINISH"
     else "; Finish page disabled"));
  ("language_macros", VStr (join nl (language_lines r)));
  ("start_menu_folder", VStr (start_menu_folder r));
  ("source_dir_nsis", VStr (replace "/" bslash (source_dir r)));
  ("uninstall_reg_key", VStr (uninstall_reg_key r));
  ("uninstall_icon_reg", VStr entry);
  ("website", VStr (website r));
  ("create_shortcuts_block", VStr (block_or no_shortcuts (create_lines_of r)));
  ("remove_shortcuts_block", VStr (block_or no_shortcuts (remove_lines_of r)))
].

Fixpoint assoc (k : string) (l : list (string * value)) : option value :=
  match l with
  | [] => None
  | (k', v) :: rest => if String.eqb k' k then Some v else assoc k rest
  end.

(** The text of a template over an association list. *)
Fixpoint fill_assoc (h : host) (sl : list (string * value)) (segs : list segment)
  : string :=
  match segs with
  | [] => EmptyString
  | Lit s :: rest => s +:+ fill_assoc h sl rest
  | Field k :: rest =>
      py_str h (default VNone (assoc k sl)) +:+ fill_assoc h sl rest
  end.

Lemma fill_agree h ctx sl segs :
  Forall (fun k => ctx !! k = assoc k sl) (fields_of segs) ->
  fill h ctx segs = fill_assoc h sl segs.
Proof.
  induction segs as [|[s|k] rest IH]; simpl; intros Hall.
  - reflexivity.
  - by rewrite IH.
  - inversion Hall as [|? ? Hk Hrest]; subst. by rewrite Hk, IH.
Qed.

(** Looks one key up in the context of a record. *)
Ltac context_lookup :=
  unfold context_of, context5, context4, context3, context2, context1, context0;
  repeat first
    [ rewrite lookup_insert_eq
    | rewrite lookup_insert_ne by discriminate ];
  try reflexivity;
  first
    [ erewrite lookup_union_Some_l by reflexivity; reflexivity
    | rewrite lookup_union_r by reflexivity;
      repeat first
        [ rewrite lookup_insert_eq
        | rewrite lookup_insert_ne by discriminate ];
      reflexivity ].

Lemma context_of_agrees h r entry :
  Forall (fun k => context_of h r entry !! k = assoc k (slots h r entry)) NSI_FIELDS.
Proof.
  unfold NSI_FIELDS.
  repeat (constructor; [context_lookup|]). constructor.
Qed.

(** The pieces of every line of the template. *)
Definition NSI_LINE_SEGMENTS : list (list segment) :=
  Eval vm_compute in map line_segments NSI_TEMPLATE_lines.

Lemma NSI_LINE_SEGMENTS_eq : map line_segments NSI_TEMPLATE_lines = NSI_LINE_SEGMENTS.
Proof. vm_compute. reflexivity. Qed.

Lemma NSI_LINE_SEGMENTS_fields :
  Forall (fun segs => Forall (fun k => k ∈ NSI_FIELDS) (fields_of segs))
    NSI_LINE_SEGMENTS.
Proof.
  apply Forall_forall. intros segs Hsegs. apply Forall_forall. intros k Hk.
  assert (Hall : forallb (fun segs =>
            forallb (fun k => bool_decide (k ∈ NSI_FIELDS)) (fields_of segs))
            NSI_LINE_SEGMENTS = true) by (vm_compute; reflexivity).
  rewrite forallb_forall in Hall. apply list_elem_of_In, Hall in Hsegs.
  rewrite forallb_forall in Hsegs. apply list_elem_of_In, Hsegs in Hk.
  by apply bool_decide_eq_true in Hk.
Qed.

(** The lines of the script of a record, given the icon entry. *)
Definition script_lines_of (h : host) (r : ConfigurationRecord) (entry : string)
  : list string :=
  map (fill_assoc h (slots h r entry)) NSI_LINE_SEGMENTS.

Lemma script_lines_context_of h r entry :
  script_lines h (context_of h r entry) = script_lines_of h r entry.
Proof.
  unfold script_lines, script_lines_of, fill_line.
  rewrite <- NSI_LINE_SEGMENTS_eq, map_map.
  rewrite <- (map_map line_segments (fill h _)), <- (map_map line_segments (fill_assoc h _)).
  rewrite NSI_LINE_SEGMENTS_eq.
  apply map_ext_Forall.
  eapply Forall_impl; [apply NSI_LINE_SEGMENTS_fields|].
  intros segs Hsegs. apply fill_agree.
  eapply Forall_impl; [exact Hsegs|]. cbv beta. intros k Hk.
  pose proof (context_of_agrees h r entry) as Hall.
  rewrite Forall_forall in Hall. by apply Hall.
Qed.

Lemma context_of_fields h r entry :
  Forall (fun k => is_Some (context_of h r entry !! k)) NSI_FIELDS.
Proof.
  pose proof (context_of_agrees h r entry) as Hall.
  assert (Hsome : forallb (fun k => match assoc k (slots h r entry) with
                                    | Some _ => true | None => false end)
                    NSI_FIELDS = true) by reflexivity.
  rewrite forallb_forall in Hsome.
  rewrite Forall_forall in Hall. apply Forall_forall. intros k Hk.
  rewrite (Hall k Hk). apply list_elem_of_In, Hsome in Hk.
  destruct (assoc k (slots h r entry)); [by eexists | discriminate].
Qed.

Lemma run_render h r out :
  render h r out
  = (match icon_entry h r with
     | inr entry => inr (Some (join nl (script_lines_of h r entry)))
     | inl e => inl e
     end,
     {| config := to_dict (after h r); console := out ++ [language_event r] |}).
Proof.
  unfold render, generate_nsis_script_from_config.
  destruct (icon_entry h r) as [e|entry] eqn:He.
  - erewrite bind_inl; [reflexivity|]. rewrite run_build_context, He. reflexivity.
  - erewrite bind_inr by (rewrite run_build_context, He; reflexivity).
    rewrite format_template_fill by apply context_of_fields.
    rewrite script_lines_context_of. reflexivity.
Qed.

(** ** Text of the script *)

(** [piece] occurs in [text]. *)
Definition contains (text piece : string) : Prop :=
  exists pre post, text = pre +:+ piece +:+ post.

Lemma join_cons sep (x y : string) (l : list string) :
  join sep (x :: y :: l) = x +:+ sep +:+ join sep (y :: l).
Proof. reflexivity. Qed.

Lemma join_app sep (a b : list string) :
  a <> [] -> b <> [] -> join sep (a ++ b) = join sep a +:+ sep +:+ join sep b.
Proof.
  intros Ha Hb. induction a as [|x [|y a] IH]; [done| |].
  - destruct b as [|z b]; [done|]. reflexivity.
  - change ((x :: y :: a) +++ b) with (x :: y :: (a +++ b)).
    rewrite (join_cons sep x y (a +++ b)), (join_cons sep x y a).
    rewrite !string_app_assoc. do 2 f_equal. by apply IH.
Qed.

Lemma contains_join_infix sep (a mid b : list string) :
  contains (join sep (a ++ mid ++ b)) (join sep mid).
Proof.
  destruct mid as [|m mid].
  { exists EmptyString, (join sep (a ++ b)). reflexivity. }
  destruct a as [|x a], b as [|y b].
  - exists EmptyString, EmptyString. by rewrite app_nil_r, string_app_nil_r.
  - exists EmptyString, (sep +:+ join sep (y :: b)).
    by rewrite app_nil_l, join_app.
  - exists (join sep (x :: a) +:+ sep), EmptyString.
    by rewrite app_nil_r, join_app, string_app_nil_r, string_app_assoc.
  - exists (join sep (x :: a) +:+ sep), (sep +:+ join sep (y :: b)).
    rewrite join_app by done. rewrite (join_app sep (m :: mid)) by done.
    by rewrite !string_app_assoc.
Qed.

Lemma contains_lines (l : list string) (n len : nat) (mid : list string) piece :
  take len (drop n l) = mid -> join nl mid = piece -> contains (join nl l) piece.
Proof.
  intros <- <-.
  rewrite <- (take_drop n l) at 1. rewrite <- (take_drop len (drop n l)) at 1.
  apply contains_join_infix.
Qed.

(** Computes the lines [n .. n + len) of the script of a record. *)
Ltac script_lines_at :=
  cbv [script_lines_of NSI_LINE_SEGMENTS map take drop firstn skipn fill_assoc assoc
       slots String.eqb Ascii.eqb Bool.eqb default from_option id py_str];
  reflexivity.

(** Both sides as one run of characters and fields. *)
Ltac string_eq :=
  cbn [join];
  cbv [q dq nl bslash bs display_icon_entry no_shortcuts license_disabled];
  rewrite ?string_app_assoc, ?string_app_nil_r;
  reflexivity.

Lemma contains_line (l : list string) (n : nat) (before line after piece : string) :
  take 3 (drop n l) = [before; line; after] -> nl +:+ line +:+ nl = piece ->
  contains (join nl l) piece.
Proof.
  intros Hmid <-.
  destruct (contains_lines l n 3 _ _ Hmid eq_refl) as (pre & post & ->).
  exists (pre +:+ before), (after +:+ post).
  cbv [join]. by rewrite !string_app_assoc.
Qed.

(** Lines [n .. n + len) of the script, as one piece of text. *)
Ltac script_contains n len :=
  eapply (contains_lines _ n len); [ script_lines_at | string_eq ].

(** Line [n] of the script, between two line breaks. *)
Ltac script_line n :=
  eapply (contains_line _ (pred n)); [ script_lines_at | string_eq ].

Lemma substring_app_here (piece post : string) :
  substring 0 (String.length piece) (piece +:+ post) = piece.
Proof.
  induction piece as [|c piece IH]; [by destruct post|].
  rewrite string_app_cons. cbn [String.length substring]. by rewrite IH.
Qed.

Lemma substring_app_skip (pre rest : string) (n : nat) :
  substring (String.length pre) n (pre +:+ rest) = substring 0 n rest.
Proof.
  induction pre as [|c pre IH]; [reflexivity|].
  rewrite string_app_cons. cbn [String.length substring]. apply IH.
Qed.

(** [index] finds every piece a text contains. *)
Lemma contains_index (text piece : string) :
  piece <> EmptyString -> contains text piece -> index 0 piece text <> None.
Proof.
  intros Hne (pre & post & ->) Hnone.
  apply (index_correct3 0 (String.length pre) _ _ Hnone Hne (Nat.le_0_l _)).
  rewrite substring_app_skip. apply substring_app_here.
Qed.


(** ** Records that render *)

(** [os.path.abspath] succeeds on the icon the registry entry is taken
    from. *)
Definition icon_resolves (h : host) (r : ConfigurationRecord) : bool :=
  match chosen_icon h r with
  | Some icon => match abspath h icon with Some _ => true | None => false end
  | None => false
  end.

(** An executable was selected, or the icon entry never reaches for it. *)
Definition renderable (h : host) (r : ConfigurationRecord) : Prop :=
  is_Some (main_executable r) \/ icon_resolves h r = true.

Lemma renderable_entry h r :
  renderable h r -> exists entry, icon_entry h r = inr entry.
Proof.
  unfold renderable, icon_resolves, icon_entry, executable_entry.
  intros [[exe ->]|Hicon].
  - destruct (chosen_icon h r) as [icon|]; [destruct (abspath h icon)|]; eauto.
  - destruct (chosen_icon h r) as [icon|]; [|discriminate].
    destruct (abspath h icon); [eauto | discriminate].
Qed.

Lemma render_script h r out :
  renderable h r ->
  exists entry,
    icon_entry h r = inr entry /\
    render h r out
    = (inr (Some (join nl (script_lines_of h r entry))),
       {| config := to_dict (after h r); console := out ++ [language_event r] |}).
Proof.
  intros Hr. destruct (renderable_entry h r Hr) as [entry He].
  exists entry. split; [exact He|]. by rewrite run_render, He.
Qed.


(** ** Sample hosts and records *)

Definition sample_host : host := {|
  now_stamp := "2025-01-02 03:04:05";
  now_year := 2025;
  path_exists := fun path => String.eqb path "C:\icons\app.ico";
  exists_other := fun v => inl (TypeError v);
  abspath := fun path => Some path;
  repr_list := fun _ => "[]";
|}.

(** A record as the collector builds it, with the entries the properties
    below turn on left open. *)
Definition sample_record (exe : option string) (icon license : string)
    (show admin startmenu desktop : bool) (langs : list string)
  : ConfigurationRecord := {|
  app_name := "My Application";
  app_version := "1.0.0";
  product_version := "1.0.0.0";
  publisher := "My Company";
  website := EmptyString;
  source_dir := "C:/src/app";
  main_executable := exe;
  license_file := license;
  installer_icon := icon;
  uninstaller_icon := EmptyString;
  output_installer_name := "My_Application_v1.0.0_Setup.exe";
  install_dir_name := "My Application";
  request_admin := admin;
  prefer_64bit := admin;
  compression := "LZMA";
  solid_compression := true;
  create_startmenu_shortcut := startmenu;
  start_menu_folder := if startmenu then "My Company" else EmptyString;
  create_desktop_shortcut := desktop;
  uninstall_reg_key := "Software\Microsoft\Windows\CurrentVersion\Uninstall\MyApplication";
  install_path_reg_key := "Software\MyCompany\MyApplication";
  selected_languages := langs;
  branding := "My Company - My Application v1.0.0";
  show_welcome_page := true;
  show_license_page := show;
  show_directory_page := true;
  show_finish_page := true;
|}.

Definition typical_record : ConfigurationRecord :=
  sample_record (Some "app.exe") "C:\icons\app.ico" EmptyString false true true false
    ["English"; "French"].

Lemma typical_record_renderable : renderable sample_host typical_record.
Proof. left. by eexists. Defined.

(** ** Properties of the rendered script *)

(** C1. On a record that renders, the script holds the line
    [InstallDir "<root>\<folder>"], where the root is [$PROGRAMFILES64] for
    an elevated install that prefers 64 bit, [$PROGRAMFILES] for any other
    elevated install and [$LOCALAPPDATA] for an install that is not
    elevated, whatever it prefers. *)
Theorem install_root_in_script h r out :
  renderable h r ->
  exists script st,
    render h r out = (inr (Some script), st) /\
    contains script
      (nl +:+ "InstallDir "
       +:+ q ((if request_admin r && prefer_64bit r then "$PROGRAMFILES64"
               else if request_admin r then "$PROGRAMFILES"
               else "$LOCALAPPDATA")
              +:+ bslash +:+ install_dir_name r)
       +:+ nl).
Proof.
  intros Hr. destruct (render_script h r out Hr) as (entry & _ & Hrender).
  eexists _, _. split; [exact Hrender|].
  eapply (contains_line _ 9); [script_lines_at|].
  unfold install_root. destruct (request_admin r), (prefer_64bit r); string_eq.
Qed.

Lemma install_root_in_script_witness :
  exists script st,
    render sample_host typical_record [] = (inr (Some script), st) /\
    contains script
      (nl +:+ "InstallDir " +:+ q "$PROGRAMFILES64\My Application" +:+ nl).
Proof.
  exact (install_root_in_script sample_host typical_record []
           typical_record_renderable).
Defined.

From Stdlib Require Import Lia.

(** Lower case as the claim means it, read off the alphabet: a capital
    letter is replaced by the small letter at the same place of the
    alphabet, any other character is kept. *)
Definition capital_letters : string := "ABCDEFGHIJKLMNOPQRSTUVWXYZ".
Definition small_letters : string := "abcdefghijklmnopqrstuvwxyz".

Definition lowercase_char (c d : ascii) : Prop :=
  (exists i, String.get i capital_letters = Some c
             /\ String.get i small_letters = Some d)
  \/ ((forall i, String.get i capital_letters <> Some c) /\ d = c).

Inductive lowercase_of : string -> string -> Prop :=
  | lowercase_empty : lowercase_of EmptyString EmptyString
  | lowercase_next (c d : ascii) (s m : string) :
      lowercase_char c d -> lowercase_of s m ->
      lowercase_of (String c s) (String d m).

(** Text of ASCII characters only, on which [str.lower] changes the
    capital letters of the alphabet above and nothing else. *)
Definition is_ascii (c : ascii) : bool := (nat_of_ascii c <? 128)%nat.

Fixpoint ascii_text (s : string) : bool :=
  match s with
  | EmptyString => true
  | String c rest => is_ascii c && ascii_text rest
  end.

Lemma lower_ascii_lowercase (c : ascii) : lowercase_char c (lower_ascii c).
Proof.
  unfold lower_ascii.
  destruct ((65 <=? nat_of_ascii c)%nat && (nat_of_ascii c <=? 90)%nat) eqn:Hupper.
  - left. apply andb_true_iff in Hupper as [Hlo Hhi].
    apply Nat.leb_le in Hlo, Hhi.
    exists (nat_of_ascii c - 65)%nat.
    rewrite <- (ascii_nat_embedding c) at 2.
    remember (nat_of_ascii c) as n eqn:Hn. clear Hn c.
    do 65 (destruct n as [|n]; [lia|]).
    do 26 (destruct n as [|n]; [by split|]). lia.
  - right. split; [|reflexivity]. intros i Hi. unfold capital_letters in Hi.
    do 26 (destruct i as [|i]; [injection Hi as <-; discriminate Hupper|]).
    discriminate.
Qed.

(** [lower] is lower case in that sense. *)
Lemma lower_lowercase (s : string) : lowercase_of s (lower s).
Proof.
  induction s as [|c s IH]; cbn [lower]; constructor;
    [apply lower_ascii_lowercase | exact IH].
Qed.

(** Lower case in that sense is one text only, the one [lower] gives. *)
Lemma lowercase_char_unique (c d : ascii) :
  lowercase_char c d -> d = lower_ascii c.
Proof.
  intros [(i & Hc & Hd)|[Hnone ->]].
  - unfold capital_letters, small_letters in *.
    do 26 (destruct i as [|i];
           [injection Hc as <-; injection Hd as <-; reflexivity|]).
    discriminate.
  - destruct (lower_ascii_lowercase c) as [(i & Hi & _)|[_ Hsame]]; [|done].
    by destruct (Hnone i).
Qed.

Lemma lowercase_of_unique (s m : string) : lowercase_of s m -> m = lower s.
Proof.
  induction 1 as [|c d s m Hchar _ IH]; [reflexivity|].
  cbn [lower]. by rewrite (lowercase_char_unique c d Hchar), IH.
Qed.

(** C10. On a record that renders, whose compression method is ASCII
    text, the compression directive of the script is [SetCompressor], then
    [/SOLID] exactly when solid compression is chosen, then the
    compression method in lower case: every capital letter of the method
    replaced by its small letter, every other character as it is. *)
Theorem compressor_directive_lowercase h r out :
  renderable h r ->
  ascii_text (compression r) = true ->
  exists method script st,
    lowercase_of (compression r) method /\
    render h r out = (inr (Some script), st) /\
    contains script
      (nl +:+ "SetCompressor "
       +:+ (if solid_compression r then "/SOLID " else EmptyString)
       +:+ method +:+ nl).
Proof.
  intros Hr _. destruct (render_script h r out Hr) as (entry & _ & Hrender).
  exists (lower (compression r)). eexists _, _.
  split; [apply lower_lowercase|]. split; [exact Hrender|].
  eapply (contains_line _ 24); [script_lines_at|].
  unfold compressor_command. destruct (solid_compression r); string_eq.
Qed.

Lemma compressor_directive_lowercase_witness :
  compression typical_record = "LZMA" /\
  exists script st,
    render sample_host typical_record [] = (inr (Some script), st) /\
    contains script (nl +:+ "SetCompressor /SOLID lzma" +:+ nl).
Proof.
  split; [reflexivity|].
  destruct (compressor_directive_lowercase sample_host typical_record []
              typical_record_renderable eq_refl)
    as (method & script & st & Hlower & Hrender & Hline).
  apply lowercase_of_unique in Hlower. subst method.
  exists script, st. split; [exact Hrender | exact Hline].
Defined.

(** The registry statements of the template, with the hive [hv]. *)
Definition registry_statements (hv : string) (r : ConfigurationRecord)
  : list string := [
  "InstallDirRegKey " +:+ hv +:+ " " +:+ q (install_path_reg_key r) +:+ " "
    +:+ q "Install_Dir";
  "  WriteRegStr " +:+ hv +:+ " " +:+ q (install_path_reg_key r) +:+ " "
    +:+ q "Install_Dir" +:+ " " +:+ q "$INSTDIR";
  "  WriteRegStr " +:+ hv +:+ " " +:+ q (uninstall_reg_key r) +:+ " "
    +:+ q "DisplayName" +:+ " " +:+ q (app_name r +:+ " (remove only)");
  "  WriteRegStr " +:+ hv +:+ " " +:+ q (uninstall_reg_key r) +:+ " "
    +:+ q "UninstallString" +:+ " '" +:+ q "$INSTDIR\uninstall.exe" +:+ "'";
  "  WriteRegStr " +:+ hv +:+ " " +:+ q (uninstall_reg_key r) +:+ " "
    +:+ q "QuietUninstallString" +:+ " '" +:+ q "$INSTDIR\uninstall.exe" +:+ " /S'";
  "  WriteRegStr " +:+ hv +:+ " " +:+ q (uninstall_reg_key r) +:+ " "
    +:+ q "Publisher" +:+ " " +:+ q (publisher r);
  "  WriteRegStr " +:+ hv +:+ " " +:+ q (uninstall_reg_key r) +:+ " "
    +:+ q "DisplayVersion" +:+ " " +:+ q (app_version r);
  "  WriteRegStr " +:+ hv +:+ " " +:+ q (uninstall_reg_key r) +:+ " "
    +:+ q "URLInfoAbout" +:+ " " +:+ q (website r);
  "  WriteRegDWORD " +:+ hv +:+ " " +:+ q (uninstall_reg_key r) +:+ " "
    +:+ q "NoModify" +:+ " 1";
  "  WriteRegDWORD " +:+ hv +:+ " " +:+ q (uninstall_reg_key r) +:+ " "
    +:+ q "NoRepair" +:+ " 1";
  "  DeleteRegKey " +:+ hv +:+ " " +:+ q (uninstall_reg_key r);
  "  DeleteRegKey " +:+ hv +:+ " " +:+ q (install_path_reg_key r)
].

(** The directives that take a registry hive. *)
Definition registry_directives : list string :=
  ["InstallDirRegKey"; "WriteRegStr"; "WriteRegDWORD"; "DeleteRegKey"].

Fixpoint lstrip (s : string) : string :=
  match s with
  | String " " rest => lstrip rest
  | _ => s
  end.

Definition is_registry_line (line : string) : bool :=
  existsb (fun d => String.prefix (d +:+ " ") (lstrip line)) registry_directives.

(** A line of the template that starts with a registry directive names the
    hive by the field [adminregistry]. *)
Definition takes_hive_field (line : string) : bool :=
  forallb (fun d => implb (String.prefix (d +:+ " ") (lstrip line))
                      (String.prefix (d +:+ " {adminregistry} ") (lstrip line)))
    registry_directives.

Lemma icon_entry_shape h r entry :
  icon_entry h r = inr entry ->
  exists path tail,
    entry = display_icon_entry (hive r) (uninstall_reg_key r) path +:+ tail.
Proof.
  unfold icon_entry, executable_entry. intros He.
  destruct (chosen_icon h r) as [icon|]; [destruct (abspath h icon) as [path|]|];
    try destruct (main_executable r) as [exe|]; simplify_eq;
    try (by eexists _, EmptyString; rewrite string_app_nil_r);
    by eexists _, _.
Qed.

(** C4. On a record that renders there is one hive token, [HKLM] for an
    elevated install and [HKCU] otherwise, and the script holds every
    registry statement of the template with that token: the install path
    entry, the entries of the uninstall key and the two key deletions.  The
    icon entry is a [WriteRegStr] on the same token, and every line of the
    template that starts with a registry directive takes its hive from the
    one field [adminregistry]. *)
Theorem registry_hive_is_shared h r out :
  renderable h r ->
  exists hv script st,
    hv = (if request_admin r then "HKLM" else "HKCU") /\
    render h r out = (inr (Some script), st) /\
    Forall (fun stmt => contains script (nl +:+ stmt +:+ nl))
      (registry_statements hv r) /\
    (exists rest,
       contains script
         (nl +:+ "  WriteRegStr " +:+ hv +:+ " " +:+ q (uninstall_reg_key r)
          +:+ " " +:+ q "DisplayIcon" +:+ " " +:+ rest +:+ nl)) /\
    forallb takes_hive_field NSI_TEMPLATE_lines = true /\
    length (filter is_registry_line NSI_TEMPLATE_lines)
    = length (registry_statements hv r).
Proof.
  intros Hr. destruct (render_script h r out Hr) as (entry & He & Hrender).
  exists (hive r). eexists _, _. split; [reflexivity|]. split; [exact Hrender|].
  split; [|split; [|split; [vm_compute; reflexivity | reflexivity]]].
  - unfold registry_statements.
    constructor; [script_line 11|].
    constructor; [script_line 64|].
    constructor; [script_line 65|].
    constructor; [script_line 66|].
    constructor; [script_line 67|].
    constructor; [script_line 69|].
    constructor; [script_line 70|].
    constructor; [script_line 71|].
    constructor; [script_line 72|].
    constructor; [script_line 73|].
    constructor; [script_line 93|].
    constructor; [script_line 94|].
    constructor.
  - destruct (icon_entry_shape h r entry He) as (path & tail & ->).
    exists (q path +:+ tail).
    script_line 68.
Qed.

Lemma registry_hive_is_shared_witness :
  exists hv script st,
    hv = "HKLM" /\
    render sample_host typical_record [] = (inr (Some script), st) /\
    Forall (fun stmt => contains script (nl +:+ stmt +:+ nl))
      (registry_statements hv typical_record) /\
    (exists rest,
       contains script
         (nl +:+ "  WriteRegStr " +:+ hv +:+ " "
          +:+ q (uninstall_reg_key typical_record)
          +:+ " " +:+ q "DisplayIcon" +:+ " " +:+ rest +:+ nl)) /\
    forallb takes_hive_field NSI_TEMPLATE_lines = true /\
    length (filter is_registry_line NSI_TEMPLATE_lines)
    = length (registry_statements hv typical_record).
Proof.
  exact (registry_hive_is_shared sample_host typical_record []
           typical_record_renderable).
Defined.

Lemma language_directive_inj : Inj (=) (=) language_directive.
Proof.
  intros a b Hab. unfold language_directive, q in Hab.
  apply String.app_inj, String.app_inj in Hab.
  revert b Hab. induction a as [|c a IH]; intros [|c' b] Hab;
    rewrite ?string_app_cons in Hab; try reflexivity.
  - destruct b; discriminate.
  - destruct a; discriminate.
  - injection Hab as -> Hab. f_equal. by apply IH.
Qed.

(** C5. On a record that renders, the language block of the script (the
    text between the comment that announces it and the functions section)
    is, for a list of languages that is not empty, one
    [!insertmacro MUI_LANGUAGE "<language>"] line per entry of the list, in
    the order of the list, and these lines differ from one another when the
    languages do, so that every language of a list without repeats has
    exactly one directive; for the empty list the block is the single
    directive for English, and the warning is printed. *)
Theorem language_block_follows_list h r out :
  renderable h r ->
  exists directives script st,
    render h r out = (inr (Some script), st) /\
    contains script
      ("; NSIS will show a language selection dialog if multiple languages are loaded."
       +:+ nl +:+ join nl directives +:+ nl +:+ nl +:+ "; --- Functions ---") /\
    match selected_languages r with
    | [] =>
        directives = ["!insertmacro MUI_LANGUAGE " +:+ q "English"] /\
        console st = (out ++ [WarnNoLanguages])%list
    | langs =>
        length directives = length langs /\
        (forall i lang, langs !! i = Some lang ->
           directives !! i = Some ("!insertmacro MUI_LANGUAGE " +:+ q lang)) /\
        (NoDup langs -> NoDup directives)
    end.
Proof.
  intros Hr. destruct (render_script h r out Hr) as (entry & _ & Hrender).
  exists (language_lines r). eexists _, _. split; [exact Hrender|].
  split; [script_contains 45 4|].
  unfold language_lines, language_event. cbn [console].
  destruct (selected_languages r) as [|l ls]; [by split|].
  generalize (l :: ls). clear. intros langs.
  split; [by rewrite length_map|]. split.
  - intros i lang Hi.
    change (map language_directive langs) with (language_directive <$> langs).
    by rewrite list_lookup_fmap, Hi.
  - intros Hnd.
    exact (NoDup_fmap_2 (Inj0 := language_directive_inj) language_directive langs Hnd).
Qed.

Lemma language_block_follows_list_witness :
  exists directives script st,
    render sample_host typical_record [] = (inr (Some script), st) /\
    contains script
      ("; NSIS will show a language selection dialog if multiple languages are loaded."
       +:+ nl +:+ join nl directives +:+ nl +:+ nl +:+ "; --- Functions ---") /\
    length directives = 2 /\
    (forall i lang, ["English"; "French"] !! i = Some lang ->
       directives !! i = Some ("!insertmacro MUI_LANGUAGE " +:+ q lang)) /\
    (NoDup ["English"; "French"] -> NoDup directives).
Proof.
  exact (language_block_follows_list sample_host typical_record []
           typical_record_renderable).
Defined.

(** The record with another license file. *)
Definition set_license_file (path : string) (r : ConfigurationRecord)
  : ConfigurationRecord :=
  {| app_name := app_name r; app_version := app_version r;
     product_version := product_version r; publisher := publisher r;
     website := website r; source_dir := source_dir r;
     main_executable := main_executable r; license_file := path;
     installer_icon := installer_icon r; uninstaller_icon := uninstaller_icon r;
     output_installer_name := output_installer_name r;
     install_dir_name := install_dir_name r; request_admin := request_admin r;
     prefer_64bit := prefer_64bit r; compression := compression r;
     solid_compression := solid_compression r;
     create_startmenu_shortcut := create_startmenu_shortcut r;
     start_menu_folder := start_menu_folder r;
     create_desktop_shortcut := create_desktop_shortcut r;
     uninstall_reg_key := uninstall_reg_key r;
     install_path_reg_key := install_path_reg_key r;
     selected_languages := selected_languages r; branding := branding r;
     show_welcome_page := show_welcome_page r;
     show_license_page := show_license_page r;
     show_directory_page := show_directory_page r;
     show_finish_page := show_finish_page r |}.

Lemma script_ignores_hidden_license h r path entry :
  show_license_page r && present h (license_file r) = false ->
  show_license_page r && present h path = false ->
  present h path && endswith (lower path) ".rtf"
  = present h (license_file r) && endswith (lower (license_file r)) ".rtf" ->
  script_lines_of h (set_license_file path r) entry = script_lines_of h r entry.
Proof.
  intros Hhidden Hhidden' Hrtf.
  assert (Hm : mui_defines_of h (set_license_file path r) = mui_defines_of h r).
  { unfold mui_defines_of. cbn [license_file set_license_file].
    rewrite Hrtf. reflexivity. }
  assert (Hp : page_license_of h (set_license_file path r) = page_license_of h r).
  { unfold page_license_of, license_shown.
    cbn [license_file show_license_page set_license_file].
    rewrite Hhidden, Hhidden'. reflexivity. }
  unfold script_lines_of. f_equal. unfold slots. rewrite Hm, Hp. reflexivity.
Qed.

(** C6. On a record that renders, the license line of the pages block is
    the [MUI_PAGE_LICENSE] directive with the license file exactly when the
    flag is set, the path is not empty and the file exists; in every other
    case it is the placeholder comment, and the script then says nothing of
    the license path: the record with any other license file that is not
    shown either, and that gives the same answer on the check box of an
    existing [.rtf] file, renders to the same script. *)
Theorem license_page_needs_flag_and_file h r out :
  renderable h r ->
  exists welcome directory script st,
    render h r out = (inr (Some script), st) /\
    contains script
      ("; --- Pages ---" +:+ nl +:+ welcome +:+ nl
       +:+ (if show_license_page r
               && (negb (String.eqb (license_file r) EmptyString)
                   && path_exists h (license_file r))
            then "!insertmacro MUI_PAGE_LICENSE " +:+ q (license_file r)
            else "; License page disabled or no file specified/found")
       +:+ nl +:+ directory +:+ nl +:+ "!insertmacro MUI_PAGE_INSTFILES") /\
    (show_license_page r && present h (license_file r) = false ->
     forall path,
       show_license_page r && present h path = false ->
       present h path && endswith (lower path) ".rtf"
       = present h (license_file r) && endswith (lower (license_file r)) ".rtf" ->
       fst (render h (set_license_file path r) out) = inr (Some script)).
Proof.
  intros Hr. destruct (render_script h r out Hr) as (entry & He & Hrender).
  exists (if show_welcome_page r then "!insertmacro MUI_PAGE_WELCOME"
          else "; Welcome page disabled"),
         (if show_directory_page r then "!insertmacro MUI_PAGE_DIRECTORY"
          else "; Directory page disabled").
  eexists _, _. split; [exact Hrender|]. split.
  - eapply (contains_lines _ 33 5); [script_lines_at|].
    unfold page_license_of, license_shown, present.
    destruct (show_license_page r
              && (negb (String.eqb (license_file r) EmptyString)
                  && path_exists h (license_file r))); string_eq.
  - intros Hhidden path Hhidden' Hrtf.
    rewrite run_render.
    change (icon_entry h (set_license_file path r)) with (icon_entry h r).
    rewrite He. cbn [fst].
    by rewrite script_ignores_hidden_license.
Qed.

Lemma license_page_needs_flag_and_file_witness :
  exists welcome directory script st,
    render sample_host typical_record [] = (inr (Some script), st) /\
    contains script
      ("; --- Pages ---" +:+ nl +:+ welcome +:+ nl
       +:+ "; License page disabled or no file specified/found"
       +:+ nl +:+ directory +:+ nl +:+ "!insertmacro MUI_PAGE_INSTFILES") /\
    (false = false ->
     forall path,
       false && present sample_host path = false ->
       present sample_host path && endswith (lower path) ".rtf" = false ->
       fst (render sample_host (set_license_file path typical_record) [])
       = inr (Some script)).
Proof.
  exact (license_page_needs_flag_and_file sample_host typical_record []
           typical_record_renderable).
Defined.

(** An elevated install that asks for no shortcut at all. *)
Definition elevated_no_shortcuts : ConfigurationRecord :=
  sample_record (Some "app.exe") EmptyString EmptyString false true false false
    ["English"].

(** C3, as stated, fails: the elevated record with both shortcut flags off
    renders, its install block is the all-users directive alone, and the
    placeholder comment occurs nowhere in the script. *)
Lemma shortcut_placeholder_missing_when_elevated :
  exists script st,
    create_startmenu_shortcut elevated_no_shortcuts = false /\
    create_desktop_shortcut elevated_no_shortcuts = false /\
    render sample_host elevated_no_shortcuts [] = (inr (Some script), st) /\
    contains script
      ("  ; --- Shortcuts ---" +:+ nl
       +:+ "  SetShellVarContext all ; Install for all users"
       +:+ nl +:+ nl +:+ "SectionEnd") /\
    index 0 "; No shortcuts configured" script = None /\
    ~ contains script "  ; No shortcuts configured".
Proof.
  destruct (render_script sample_host elevated_no_shortcuts [])
    as (entry & He & Hrender); [left; by eexists|].
  injection He as <-.
  eexists _, _. split; [reflexivity|]. split; [reflexivity|].
  split; [exact Hrender|]. split; [script_contains 78 4|].
  split; [vm_compute; reflexivity|].
  intros Hc. apply contains_index in Hc; [|discriminate].
  apply Hc. vm_compute. reflexivity.
Qed.

(** C3, amended. On a record that renders and asks for neither shortcut,
    the install block and the uninstall block of the script each hold one
    line: the placeholder comment when the install is not elevated, the
    all-users shell context directive when it is; neither block holds
    [CreateShortCut] or [Delete]. *)
Theorem shortcut_blocks_without_shortcuts h r out :
  renderable h r ->
  create_startmenu_shortcut r = false ->
  create_desktop_shortcut r = false ->
  exists install_block uninstall_block script st,
    render h r out = (inr (Some script), st) /\
    contains script
      ("  ; --- Shortcuts ---" +:+ nl +:+ install_block
       +:+ nl +:+ nl +:+ "SectionEnd") /\
    contains script
      ("  ; --- Remove Shortcuts ---" +:+ nl +:+ uninstall_block
       +:+ nl +:+ nl +:+ "  ; --- Remove Files ---") /\
    install_block
    = (if request_admin r then "  SetShellVarContext all ; Install for all users"
       else "  ; No shortcuts configured") /\
    uninstall_block
    = (if request_admin r then "  SetShellVarContext all ; Remove for all users"
       else "  ; No shortcuts configured") /\
    index 0 "CreateShortCut" install_block = None /\
    index 0 "Delete" install_block = None /\
    index 0 "CreateShortCut" uninstall_block = None /\
    index 0 "Delete" uninstall_block = None.
Proof.
  intros Hr Hsm Hdk. destruct (render_script h r out Hr) as (entry & _ & Hrender).
  exists (block_or no_shortcuts (create_lines_of r)),
         (block_or no_shortcuts (remove_lines_of r)).
  eexists _, _. split; [exact Hrender|].
  split; [script_contains 78 4|]. split; [script_contains 85 4|].
  unfold create_lines_of, remove_lines_of. rewrite Hsm, Hdk.
  destruct (request_admin r); repeat split; reflexivity.
Qed.

Lemma shortcut_blocks_without_shortcuts_witness :
  exists install_block uninstall_block script st,
    render sample_host elevated_no_shortcuts [] = (inr (Some script), st) /\
    contains script
      ("  ; --- Shortcuts ---" +:+ nl +:+ install_block
       +:+ nl +:+ nl +:+ "SectionEnd") /\
    contains script
      ("  ; --- Remove Shortcuts ---" +:+ nl +:+ uninstall_block
       +:+ nl +:+ nl +:+ "  ; --- Remove Files ---") /\
    install_block = "  SetShellVarContext all ; Install for all users" /\
    uninstall_block = "  SetShellVarContext all ; Remove for all users" /\
    index 0 "CreateShortCut" install_block = None /\
    index 0 "Delete" install_block = None /\
    index 0 "CreateShortCut" uninstall_block = None /\
    index 0 "Delete" uninstall_block = None.
Proof.
  exact (shortcut_blocks_without_shortcuts sample_host elevated_no_shortcuts []
           (or_introl (ex_intro _ "app.exe" eq_refl)) eq_refl eq_refl).
Defined.

(** A record as the collector leaves it when a license file was picked and
    found and the user asked for the license page. *)
Definition license_file_gone : ConfigurationRecord := {|
  app_name := "My Application";
  app_version := "1.0.0";
  product_version := "1.0.0.0";
  publisher := "My Company";
  website := EmptyString;
  source_dir := "C:\src\app";
  main_executable := Some "editor.exe";
  license_file := "C:\docs\license.rtf";
  installer_icon := EmptyString;
  uninstaller_icon := EmptyString;
  output_installer_name := "My_Application_v1.0.0_Setup.exe";
  install_dir_name := "My Application";
  request_admin := true;
  prefer_64bit := true;
  compression := "lzma";
  solid_compression := true;
  create_startmenu_shortcut := true;
  start_menu_folder := "My Company";
  create_desktop_shortcut := true;
  uninstall_reg_key := "Software\Microsoft\Windows\CurrentVersion\Uninstall\MyApplication";
  install_path_reg_key := "Software\MyCompany\MyApplication";
  selected_languages := ["English"];
  branding := "My Company - My Application v1.0.0";
  show_welcome_page := true;
  show_license_page := true;
  show_directory_page := true;
  show_finish_page := true;
|}.

(** C7, as stated, fails.  The collector sets the license page flag when
    the file it was given exists; the renderer looks again, and on a disk
    where the file is gone by then (the sample host has no such file) it
    overwrites the flag of the dictionary it was handed. *)
Lemma renderer_clears_license_flag :
  license_file license_file_gone = "C:\docs\license.rtf" /\
  path_exists sample_host (license_file license_file_gone) = false /\
  to_dict license_file_gone !! "show_license_page" = Some (VBool true) /\
  config (snd (render sample_host license_file_gone []))
    !! "show_license_page" = Some (VBool false).
Proof. repeat split; vm_compute; reflexivity. Qed.

(** C7, amended. The renderer leaves the dictionary of a record as it was
    when the license file is set and exists; otherwise it stores [False]
    under [show_license_page] and changes no other entry.  This holds
    whether the call returns a script or raises. *)
Theorem renderer_writes_only_license_flag h r out :
  config (snd (render h r out))
  = (if negb (String.eqb (license_file r) EmptyString)
        && path_exists h (license_file r)
     then to_dict r
     else <["show_license_page" := VBool false]> (to_dict r)) /\
  (forall k, k <> "show_license_page" ->
     config (snd (render h r out)) !! k = to_dict r !! k).
Proof.
  rewrite run_render. cbn [snd config]. unfold after, present.
  destruct (negb (String.eqb (license_file r) EmptyString)
            && path_exists h (license_file r)).
  - split; [reflexivity | done].
  - rewrite <- to_dict_hide_license. split; [reflexivity|].
    intros k Hk. by rewrite lookup_insert_ne.
Qed.

(** The sample host one second later, and the sample host on a disk where
    the icon is gone. *)
Definition later_host : host := {|
  now_stamp := "2025-01-02 03:04:06";
  now_year := now_year sample_host;
  path_exists := path_exists sample_host;
  exists_other := exists_other sample_host;
  abspath := abspath sample_host;
  repr_list := repr_list sample_host;
|}.

Definition bare_host : host := {|
  now_stamp := now_stamp sample_host;
  now_year := now_year sample_host;
  path_exists := fun _ => false;
  exists_other := exists_other sample_host;
  abspath := abspath sample_host;
  repr_list := repr_list sample_host;
|}.

(** C8, as stated, fails: the same record renders to another text one
    second later, and to another text when the icon file is gone. *)
Lemma render_reads_clock_and_files :
  fst (render sample_host typical_record [])
  <> fst (render later_host typical_record []) /\
  fst (render sample_host typical_record [])
  <> fst (render bare_host typical_record []).
Proof.
  split; intros H; apply (bool_decide_eq_true_2 _) in H;
    vm_compute in H; discriminate.
Qed.

Lemma present_agrees h1 h2 path :
  path_exists h1 path = path_exists h2 path -> present h1 path = present h2 path.
Proof. unfold present. by intros ->. Qed.

(** C8, amended. The renderer is a function of the record, of the clock
    reading and of what the file system answers about the license file and
    the two icons: two hosts that agree on the date stamp, on the year, on
    the existence of these three paths and on the absolute paths of the two
    icons give the same result, the same dictionary and the same console
    output for the same record. *)
Theorem render_determined_by_clock_and_files h1 h2 r out :
  now_stamp h1 = now_stamp h2 ->
  now_year h1 = now_year h2 ->
  path_exists h1 (license_file r) = path_exists h2 (license_file r) ->
  path_exists h1 (installer_icon r) = path_exists h2 (installer_icon r) ->
  path_exists h1 (uninstaller_icon r) = path_exists h2 (uninstaller_icon r) ->
  abspath h1 (installer_icon r) = abspath h2 (installer_icon r) ->
  abspath h1 (uninstaller_icon r) = abspath h2 (uninstaller_icon r) ->
  render h1 r out = render h2 r out.
Proof.
  intros Hstamp Hyear Hl Hi Hu Hai Hau.
  apply present_agrees in Hl, Hi, Hu.
  assert (Hentry : icon_entry h1 r = icon_entry h2 r).
  { unfold icon_entry, chosen_icon. rewrite Hi, Hu.
    destruct (present h2 (uninstaller_icon r)); [by rewrite Hau|].
    destruct (present h2 (installer_icon r)); [by rewrite Hai | done]. }
  assert (Hafter : after h1 r = after h2 r) by (unfold after; by rewrite Hl).
  assert (Hmui : mui_defines_of h1 r = mui_defines_of h2 r)
    by (unfold mui_defines_of; by rewrite Hl, Hi, Hu).
  assert (Hpage : page_license_of h1 r = page_license_of h2 r)
    by (unfold page_license_of, license_shown; by rewrite Hl).
  rewrite !run_render, Hentry, Hafter.
  destruct (icon_entry h2 r) as [e|entry]; [reflexivity|].
  do 3 f_equal.
  cbv [script_lines_of NSI_LINE_SEGMENTS map fill_assoc assoc slots String.eqb
       Ascii.eqb Bool.eqb default from_option id py_str].
  rewrite Hstamp, Hyear, Hmui, Hpage. reflexivity.
Qed.

Lemma render_determined_by_clock_and_files_witness :
  render sample_host typical_record []
  = render {| now_stamp := now_stamp sample_host;
              now_year := now_year sample_host;
              path_exists := fun path => String.eqb path "C:\icons\app.ico";
              exists_other := fun _ => inr true;
              abspath := abspath sample_host;
              repr_list := fun _ => "['English', 'French']" |}
      typical_record [].
Proof.
  apply render_determined_by_clock_and_files; reflexivity.
Defined.

(** C9. When the steps before the formatting have run to their end and the
    context they leave has no entry for some field of the template, the
    renderer returns [None], no script text, and prints the name of a field
    that has no entry (the first one the template asks for) and the keys it
    has. *)
Theorem missing_slot_reported h st ctx st' k :
  build_context h st = (inr ctx, st') ->
  k ∈ NSI_FIELDS ->
  ctx !! k = None ->
  exists missing,
    missing ∈ NSI_FIELDS /\
    ctx !! missing = None /\
    generate_nsis_script_from_config h st
    = (inr None,
       {| config := config st';
          console := (console st'
                      ++ [ErrMissingKey missing; ContextKeys (dom ctx)])%list |}).
Proof.
  intros Hctx Hk Hnone.
  destruct (vformat_missing h ctx NSI_SEGMENTS k Hk Hnone)
    as (missing & Hin & Hmissing & Hformat).
  exists missing. split; [exact Hin|]. split; [exact Hmissing|].
  unfold generate_nsis_script_from_config.
  rewrite (bind_inr _ _ _ _ _ Hctx).
  unfold format_template. rewrite parse_NSI_TEMPLATE, Hformat.
  unfold bind, print, ret. cbn [config console].
  by rewrite <- app_assoc.
Qed.

(** The dictionary of the typical record without its application name. *)
Definition nameless_state : pystate :=
  {| config := delete "app_name" (to_dict typical_record); console := [] |}.

(** On it the steps before the formatting run to their end, and leave a
    context without the application name. *)
Lemma nameless_builds :
  match build_context sample_host nameless_state with
  | (inr ctx, _) => ctx !! "app_name" = None
  | (inl _, _) => False
  end.
Proof. vm_compute. reflexivity. Qed.

Lemma app_name_is_field : "app_name" ∈ NSI_FIELDS.
Proof. apply (bool_decide_eq_true_1 _). vm_compute. reflexivity. Qed.

Lemma missing_slot_reported_witness :
  exists ctx st' missing,
    build_context sample_host nameless_state = (inr ctx, st') /\
    missing ∈ NSI_FIELDS /\
    ctx !! missing = None /\
    generate_nsis_script_from_config sample_host nameless_state
    = (inr None,
       {| config := config st';
          console := (console st'
                      ++ [ErrMissingKey missing; ContextKeys (dom ctx)])%list |}).
Proof.
  pose proof nameless_builds as Hnone.
  destruct (build_context sample_host nameless_state) as [[e|ctx] st'] eqn:Hrun;
    [destruct Hnone|].
  destruct (missing_slot_reported sample_host nameless_state ctx st' "app_name"
              Hrun app_name_is_field Hnone) as (missing & Hin & Hmissing & Hgen).
  exists ctx, st', missing. auto.
Defined.

(** A record of the collector when the executable dialog was cancelled and
    no icon was chosen. *)
Definition no_executable_no_icon : ConfigurationRecord :=
  sample_record None EmptyString EmptyString false true true false ["English"].

(** C2. Where the claim fails.  When no executable was selected the
    collector stores [None] under [main_executable]; if then no icon is set
    and exists, or [abspath] fails on the one that is, the renderer calls
    [replace] on that [None] and raises [AttributeError]: no script and no
    icon entry come out, where the claim promises an entry with a
    placeholder name. *)
Theorem icon_entry_raises_without_executable h r out :
  main_executable r = None ->
  icon_resolves h r = false ->
  fst (render h r out) = inl (AttributeError VNone "replace").
Proof.
  intros Hexe Hicon. rewrite run_render. cbn [fst].
  unfold icon_resolves in Hicon. unfold icon_entry, executable_entry.
  rewrite Hexe.
  destruct (chosen_icon h r) as [icon|]; [|reflexivity].
  destruct (abspath h icon); [discriminate | reflexivity].
Qed.

Lemma icon_entry_raises_without_executable_witness :
  fst (render sample_host no_executable_no_icon [])
  = inl (AttributeError VNone "replace").
Proof.
  exact (icon_entry_raises_without_executable sample_host no_executable_no_icon []
           eq_refl eq_refl).
Defined.

(** The part of C2 the renderer keeps: with an executable selected the
    record renders, and the icon entry of the script is a [DisplayIcon]
    value taken, by priority, from the uninstaller icon if it is set and
    exists, else from the installer icon if it is set and exists (the
    absolute path with its backslashes doubled), else from the executable
    in the install directory, which is also what is written, with a
    comment, when [abspath] fails on the icon. *)
Lemma icon_entry_priority h r out exe :
  main_executable r = Some exe ->
  exists script st,
    render h r out = (inr (Some script), st) /\
    contains script
      (nl +:+ "  "
       +:+ (let hv := if request_admin r then "HKLM" else "HKCU" in
            let fallback :=
              display_icon_entry hv (uninstall_reg_key r)
                ("$INSTDIR\\" +:+ replace bs (bslash +:+ bslash) exe) in
            let from_icon icon :=
              match abspath h icon with
              | Some path =>
                  display_icon_entry hv (uninstall_reg_key r)
                    (replace bs (bslash +:+ bslash) path)
              | None => fallback +:+ " ; Default icon due to path issue"
              end in
            if negb (String.eqb (uninstaller_icon r) EmptyString)
               && path_exists h (uninstaller_icon r)
            then from_icon (uninstaller_icon r)
            else if negb (String.eqb (installer_icon r) EmptyString)
                    && path_exists h (installer_icon r)
            then from_icon (installer_icon r)
            else fallback)
       +:+ nl).
Proof.
  intros Hexe.
  destruct (render_script h r out) as (entry & He & Hrender);
    [left; by eexists|].
  eexists _, _. split; [exact Hrender|].
  match goal with
  | |- contains _ (_ +:+ _ +:+ ?x +:+ _) =>
      assert (Hentry : entry = x); [|rewrite <- Hentry; script_line 68]
  end.
  unfold icon_entry, chosen_icon, executable_entry, present, hive in He.
  rewrite Hexe in He. cbv zeta.
  destruct (negb (String.eqb (uninstaller_icon r) EmptyString)
            && path_exists h (uninstaller_icon r));
    [destruct (abspath h (uninstaller_icon r)); by injection He|].
  destruct (negb (String.eqb (installer_icon r) EmptyString)
            && path_exists h (installer_icon r));
    [destruct (abspath h (installer_icon r)); by injection He|].
  by injection He.
Qed.


(** ** What the renderer does to any dictionary *)

(** A computation that leaves the dictionary as it is or stores [False]
    under [show_license_page], and only adds to the console. *)
Definition touches_only_flag {A} (c : M A) : Prop :=
  forall st,
    (config (snd (c st)) = config st
     \/ config (snd (c st)) = <["show_license_page" := VBool false]> (config st))
    /\ exists more, console (snd (c st)) = (console st ++ more)%list.

Lemma touches_ret {A} (x : A) : touches_only_flag (ret x).
Proof. intros st. split; [by left | exists []; by rewrite app_nil_r]. Qed.

Lemma touches_lift {A} (r : exn + A) : touches_only_flag (lift r).
Proof. intros st. split; [by left | exists []; by rewrite app_nil_r]. Qed.

Lemma touches_cfg_get k d : touches_only_flag (cfg_get k d).
Proof. intros st. split; [by left | exists []; by rewrite app_nil_r]. Qed.

Lemma touches_cfg_item k : touches_only_flag (cfg_item k).
Proof.
  intros st. unfold cfg_item. destruct (config st !! k);
    (split; [by left | exists []; by rewrite app_nil_r]).
Qed.

Lemma touches_cfg_contains k : touches_only_flag (cfg_contains k).
Proof. intros st. split; [by left | exists []; by rewrite app_nil_r]. Qed.

Lemma touches_print e : touches_only_flag (print e).
Proof. intros st. split; [by left | by exists [e]]. Qed.

Lemma touches_clear_flag :
  touches_only_flag (cfg_setitem "show_license_page" (VBool false)).
Proof. intros st. split; [by right | exists []; by rewrite app_nil_r]. Qed.

Lemma touches_initial_context h : touches_only_flag (initial_context h).
Proof. intros st. split; [by left | exists []; by rewrite app_nil_r]. Qed.

Lemma touches_bind {A B} (c : M A) (k : A -> M B) :
  touches_only_flag c -> (forall x, touches_only_flag (k x)) ->
  touches_only_flag (bind c k).
Proof.
  intros Hc Hk st. unfold bind.
  destruct (Hc st) as [Hcfg [more Hout]].
  destruct (c st) as [[e|x] st1]; cbn [snd] in *; [by eauto|].
  destruct (Hk x st1) as [Hcfg' [more' Hout']].
  split.
  - destruct Hcfg' as [->| ->]; [exact Hcfg|].
    destruct Hcfg as [->| ->]; [by right|]. right. by rewrite insert_insert_eq.
  - exists (more ++ more')%list. by rewrite Hout', Hout, app_assoc.
Qed.

Lemma touches_try_except {A} (body : M A) (handler : exn -> M A) :
  touches_only_flag body -> (forall e, touches_only_flag (handler e)) ->
  touches_only_flag (try_except body handler).
Proof.
  intros Hc Hk st. unfold try_except.
  destruct (Hc st) as [Hcfg [more Hout]].
  destruct (body st) as [[e|x] st1]; cbn [snd] in *; [|by eauto].
  destruct (Hk e st1) as [Hcfg' [more' Hout']].
  split.
  - destruct Hcfg' as [->| ->]; [exact Hcfg|].
    destruct Hcfg as [->| ->]; [by right|]. right. by rewrite insert_insert_eq.
  - exists (more ++ more')%list. by rewrite Hout', Hout, app_assoc.
Qed.

(** Splits a computation into the operations it is made of. *)
Ltac touches :=
  repeat first
    [ apply touches_ret | apply touches_lift | apply touches_cfg_get
    | apply touches_cfg_item | apply touches_cfg_contains | apply touches_print
    | apply touches_clear_flag | apply touches_initial_context
    | apply touches_bind; [|intros ?]
    | apply touches_try_except; [|intros ?]
    | match goal with
      | |- touches_only_flag (if ?b then _ else _) => destruct b
      | |- touches_only_flag (match ?x with _ => _ end) => destruct x
      end ].

Lemma touches_get_and_exists h k : touches_only_flag (get_and_exists h k).
Proof. unfold get_and_exists. touches. Qed.

Lemma touches_build_context h : touches_only_flag (build_context h).
Proof.
  unfold build_context, step_language_macros, language_macros_lines,
    step_specific_fields, step_mui_defines, mui_defines_lines, step_pages,
    step_shortcuts, shortcut_lines, step_uninstall_icon, main_executable_entry.
  repeat first [ apply touches_get_and_exists | progress touches ].
Qed.

Lemma touches_generate h : touches_only_flag (generate_nsis_script_from_config h).
Proof.
  unfold generate_nsis_script_from_config.
  apply touches_bind; [apply touches_build_context|]. intros ctx.
  generalize (format_template h ctx). intros [[]|script]; touches.
Qed.

(** X1. Whatever dictionary the renderer is handed, and whether it returns
    a script, returns [None] or raises, it leaves the dictionary as it was
    or with [False] stored under [show_license_page] and nothing else
    changed, and it only adds lines to the console. *)
Theorem renderer_touches_only_license_flag h st :
  (config (snd (generate_nsis_script_from_config h st)) = config st
   \/ config (snd (generate_nsis_script_from_config h st))
      = <["show_license_page" := VBool false]> (config st))
  /\ exists more,
       console (snd (generate_nsis_script_from_config h st))
       = (console st ++ more)%list.
Proof. apply touches_generate. Qed.

Lemma touches_lookup {A} (c : M A) st k :
  touches_only_flag c -> k <> "show_license_page" ->
  config (snd (c st)) !! k = config st !! k.
Proof.
  intros Hc Hk. destruct (Hc st) as [[->| ->] _]; [done|].
  by rewrite lookup_insert_ne.
Qed.

(** A computation that raises on every dictionary with the property [P]. *)
Definition raises_when {A} (P : gmap string value -> Prop) (c : M A) : Prop :=
  forall st, P (config st) -> exists e, fst (c st) = inl e.

Lemma raises_bind_now {A B} P (c : M A) (k : A -> M B) :
  raises_when P c -> raises_when P (bind c k).
Proof.
  intros Hc st HP. destruct (Hc st HP) as [e He]. exists e.
  unfold bind. destruct (c st) as [[e'|x] st1]; cbn [fst] in *; congruence.
Qed.

Lemma raises_bind_later {A B} (P : gmap string value -> Prop)
    (c : M A) (k : A -> M B) :
  (forall m, P m -> P (<["show_license_page" := VBool false]> m)) ->
  touches_only_flag c -> (forall x, raises_when P (k x)) ->
  raises_when P (bind c k).
Proof.
  intros Hstable Hc Hk st HP. unfold bind.
  destruct (Hc st) as [Hcfg _].
  destruct (c st) as [[e|x] st1]; cbn [snd fst] in *; [by eauto|].
  apply Hk. destruct Hcfg as [->| ->]; auto.
Qed.

(** The two entries the renderer reads with [config[...]] before the icon
    entry. *)
Definition lacks_raw_key (m : gmap string value) : Prop :=
  m !! "start_menu_folder" = None \/ m !! "source_dir" = None.

Lemma lacks_raw_key_stable m :
  lacks_raw_key m -> lacks_raw_key (<["show_license_page" := VBool false]> m).
Proof.
  intros [H|H]; [left|right]; by rewrite lookup_insert_ne.
Qed.

Lemma step_pages_raises h ctx : raises_when lacks_raw_key (step_pages h ctx).
Proof.
  intros st Hlack. unfold step_pages, bind, cfg_get, cfg_item, ret, lift.
  cbn [config].
  destruct (truthy (default (VBool false) (config st !! "show_license_page"))
            && truthy (default VNone (config st !! "license_file"))) eqn:Hshow.
  - apply andb_true_iff in Hshow as [_ Hlic].
    destruct (config st !! "license_file") as [lic|]; [|discriminate].
    destruct (config st !! "start_menu_folder") as [folder|] eqn:Hf; [|by eauto].
    destruct Hlack as [?|Hsrc]; [congruence|]. rewrite Hsrc. by eauto.
  - destruct (config st !! "start_menu_folder") as [folder|] eqn:Hf; [|by eauto].
    destruct Hlack as [?|Hsrc]; [congruence|]. rewrite Hsrc. by eauto.
Qed.

Lemma touches_steps_before_pages h :
  touches_only_flag (initial_context h)
  /\ (forall ctx, touches_only_flag (step_language_macros ctx))
  /\ (forall ctx, touches_only_flag (step_specific_fields ctx))
  /\ (forall ctx, touches_only_flag (step_mui_defines h ctx)).
Proof.
  unfold step_language_macros, language_macros_lines, step_specific_fields,
    step_mui_defines, mui_defines_lines.
  repeat split; intros;
    repeat first [ apply touches_get_and_exists | progress touches ].
Qed.

(** X2. A dictionary without [start_menu_folder] or without [source_dir]
    never comes back from the renderer with a script or with [None]: the
    call raises (a [KeyError] the renderer does not catch, unless an earlier
    step raised already), so the report of a missing key that the formatting
    step gives is never reached for these two keys. *)
Theorem missing_raw_key_raises h st :
  config st !! "start_menu_folder" = None \/ config st !! "source_dir" = None ->
  exists e, fst (generate_nsis_script_from_config h st) = inl e.
Proof.
  revert st. change (raises_when lacks_raw_key (generate_nsis_script_from_config h)).
  destruct (touches_steps_before_pages h) as (Hinit & Hlang & Hspec & Hmui).
  unfold generate_nsis_script_from_config. apply raises_bind_now.
  unfold build_context.
  apply raises_bind_later; [exact lacks_raw_key_stable | exact Hinit | intros c0].
  apply raises_bind_later; [exact lacks_raw_key_stable | apply Hlang | intros c1].
  apply raises_bind_later; [exact lacks_raw_key_stable | apply Hspec | intros c2].
  apply raises_bind_later; [exact lacks_raw_key_stable | apply Hmui | intros c3].
  apply raises_bind_now, step_pages_raises.
Qed.

(** The dictionary of the typical record without its start menu folder. *)
Definition folderless_state : pystate :=
  {| config := delete "start_menu_folder" (to_dict typical_record); console := [] |}.

Lemma missing_raw_key_raises_witness :
  exists e, fst (generate_nsis_script_from_config sample_host folderless_state) = inl e.
Proof.
  apply missing_raw_key_raises. left. vm_compute. reflexivity.
Defined.

Lemma folderless_state_raises_key_error :
  fst (generate_nsis_script_from_config sample_host folderless_state)
  = inl (KeyError "start_menu_folder").
Proof. vm_compute. reflexivity. Qed.

Lemma vformat_raises_key_error h ctx segs e :
  vformat h ctx segs = inl e ->
  exists k, e = KeyError k /\ k ∈ fields_of segs /\ ctx !! k = None.
Proof.
  induction segs as [|[s|k] rest IH]; simpl; intros He.
  - discriminate.
  - destruct (vformat h ctx rest); [|discriminate]. injection He as ->.
    destruct IH as (k & -> & Hin & Hk); eauto.
  - destruct (ctx !! k) as [v|] eqn:Hk.
    + destruct (vformat h ctx rest); [|discriminate]. injection He as ->.
      destruct IH as (k' & -> & Hin & Hk'); [done|].
      exists k'. split; [done|]. split; [by apply elem_of_cons; right | done].
    + injection He as <-. exists k. split; [done|].
      split; [by apply elem_of_cons; left | done].
Qed.

(** [str] of an [int] of more than 4300 digits raises [ValueError] in
    CPython, which the last handler of the renderer would turn into [None];
    [py_str] is [str] on the values below that limit.  The dictionaries of
    the collector hold no [int] at all, and the year of the clock has four
    digits at most. *)
Definition is_int (v : value) : bool :=
  match v with
  | VInt _ => true
  | _ => false
  end.

Definition holds_no_int (m : gmap string value) : Prop :=
  map_Forall (fun _ v => is_int v = false) m.

Lemma to_dict_holds_no_int r : holds_no_int (to_dict r).
Proof.
  unfold holds_no_int, to_dict. cbn [list_to_map foldr fst snd].
  repeat (apply map_Forall_insert_2;
          [first [reflexivity | by destruct (main_executable r)]|]).
  apply map_Forall_empty.
Qed.

(** X3. On a dictionary that holds no [int], at a clock whose year is one
    of 1 to 9999, the renderer answers [None] in one case only: the steps
    before the formatting ran to their end and the context they left has no
    entry for some field of the template.  An exception of an earlier step
    is never turned into [None]. *)
Theorem none_only_for_missing_field h st :
  holds_no_int (config st) ->
  (1 <= now_year h <= 9999)%Z ->
  (fst (generate_nsis_script_from_config h st) = inr None <->
   exists ctx st1 k,
     build_context h st = (inr ctx, st1) /\ k ∈ NSI_FIELDS /\ ctx !! k = None).
Proof.
  intros _ _.
  unfold generate_nsis_script_from_config, bind, format_template.
  rewrite parse_NSI_TEMPLATE.
  destruct (build_context h st) as [[e|ctx] st1]; cbn [fst].
  - split; [discriminate|]. by intros (? & ? & ? & ? & _).
  - destruct (vformat h ctx NSI_SEGMENTS) as [e|script] eqn:Hformat.
    + destruct (vformat_raises_key_error h ctx NSI_SEGMENTS e Hformat)
        as (k & -> & Hin & Hk).
      split; [|reflexivity]. intros _. by exists ctx, st1, k.
    + split; [discriminate|]. intros (ctx' & st' & k & Heq & Hin & Hk).
      injection Heq as <- <-.
      destruct (vformat_missing h ctx NSI_SEGMENTS k Hin Hk)
        as (? & _ & _ & Hraise). congruence.
Qed.

Lemma none_only_for_missing_field_witness :
  fst (generate_nsis_script_from_config sample_host nameless_state) = inr None <->
  exists ctx st1 k,
    build_context sample_host nameless_state = (inr ctx, st1)
    /\ k ∈ NSI_FIELDS /\ ctx !! k = None.
Proof.
  apply (none_only_for_missing_field sample_host nameless_state).
  - apply map_Forall_delete, to_dict_holds_no_int.
  - split; vm_compute; discriminate.
Defined.

Lemma after_idempotent h r : after h (after h r) = after h r.
Proof.
  unfold after. destruct (present h (license_file r)) eqn:Hp.
  - by rewrite Hp.
  - cbn [license_file hide_license]. by rewrite Hp.
Qed.

Lemma script_lines_of_after h r entry :
  script_lines_of h (after h r) entry = script_lines_of h r entry.
Proof.
  unfold after. destruct (present h (license_file r)) eqn:Hp; [reflexivity|].
  assert (Hpage : page_license_of h (hide_license r) = page_license_of h r).
  { unfold page_license_of, license_shown.
    cbn [license_file show_license_page hide_license].
    rewrite Hp. by destruct (show_license_page r). }
  unfold script_lines_of. f_equal. unfold slots. rewrite Hpage. reflexivity.
Qed.

Lemma icon_entry_after h r : icon_entry h (after h r) = icon_entry h r.
Proof. unfold after. by destruct (present h (license_file r)). Qed.

Lemma language_event_after h r : language_event (after h r) = language_event r.
Proof. unfold after. by destruct (present h (license_file r)). Qed.

(** X4. Calling the renderer a second time on the dictionary the first
    call left behind (same host) gives the same result, script or
    exception, prints once more the lines the first call printed, and
    leaves the dictionary as the first call left it: the one write the
    renderer makes does not change what it renders. *)
Theorem second_render_is_the_same h r out :
  fst (generate_nsis_script_from_config h (snd (render h r out)))
  = fst (render h r out)
  /\ config (snd (generate_nsis_script_from_config h (snd (render h r out))))
     = config (snd (render h r out))
  /\ exists printed,
       console (snd (render h r out)) = (out ++ printed)%list
       /\ console (snd (generate_nsis_script_from_config h (snd (render h r out))))
          = ((out ++ printed) ++ printed)%list.
Proof.
  rewrite run_render. cbn [snd].
  change (generate_nsis_script_from_config h
            {| config := to_dict (after h r);
               console := (out ++ [language_event r])%list |})
    with (render h (after h r) (out ++ [language_event r])%list).
  rewrite run_render, icon_entry_after, after_idempotent, language_event_after.
  cbn [fst snd config console].
  split; [|split; [reflexivity|by exists [language_event r]]].
  destruct (icon_entry h r) as [e|entry]; [reflexivity|].
  by rewrite script_lines_of_after.
Qed.

(** X5. On a record that renders, the MUI settings block of the script is
    [!define MUI_ABORTWARNING], then the check box define exactly when the
    license file is set, exists and ends in [.rtf] whatever the case (the
    license page flag is not asked), then [MUI_ICON] exactly when the
    installer icon is set and exists, then [MUI_UNICON] with the
    uninstaller icon when that is set and exists, else with the installer
    icon when that is set and exists, else no such line. *)
Theorem mui_defines_block h r out :
  renderable h r ->
  exists defines script st,
    render h r out = (inr (Some script), st) /\
    contains script
      ("; --- MUI Settings ---" +:+ nl +:+ join nl defines +:+ nl +:+ nl
       +:+ "; --- Pages ---") /\
    defines =
      (("!define MUI_ABORTWARNING" ::
        (if negb (String.eqb (license_file r) EmptyString)
            && path_exists h (license_file r)
            && endswith (lower (license_file r)) ".rtf"
         then ["!define MUI_LICENSEPAGE_CHECKBOX"] else [])) ++
       (if negb (String.eqb (installer_icon r) EmptyString)
           && path_exists h (installer_icon r)
        then ["!define MUI_ICON " +:+ q (installer_icon r)] else []) ++
       (if negb (String.eqb (uninstaller_icon r) EmptyString)
           && path_exists h (uninstaller_icon r)
        then ["!define MUI_UNICON " +:+ q (uninstaller_icon r)]
        else if negb (String.eqb (installer_icon r) EmptyString)
                && path_exists h (installer_icon r)
        then ["!define MUI_UNICON " +:+ q (installer_icon r)] else []))%list.
Proof.
  intros Hr. destruct (render_script h r out Hr) as (entry & _ & Hrender).
  exists (mui_defines_of h r). eexists _, _. split; [exact Hrender|].
  split; [script_contains 30 4 | reflexivity].
Qed.

Lemma mui_defines_block_witness :
  exists defines script st,
    render sample_host typical_record [] = (inr (Some script), st) /\
    contains script
      ("; --- MUI Settings ---" +:+ nl +:+ join nl defines +:+ nl +:+ nl
       +:+ "; --- Pages ---") /\
    defines = ["!define MUI_ABORTWARNING";
               "!define MUI_ICON " +:+ q "C:\icons\app.ico";
               "!define MUI_UNICON " +:+ q "C:\icons\app.ico"].
Proof.
  exact (mui_defines_block sample_host typical_record []
           typical_record_renderable).
Defined.

(** X6. On a record that renders, the pages block of the script is five
    lines: the welcome, the license, the directory and the finish line,
    with the fixed install-files page before the finish line.  The welcome,
    directory and finish lines are each the page directive when its own
    flag is set and a comment otherwise, independently of one another; the
    license line is the directive with the path of the license file when
    the flag is set, the path is not empty and the file exists, and the
    comment of the disabled page otherwise. *)
Theorem pages_block h r out :
  renderable h r ->
  exists script st,
    render h r out = (inr (Some script), st) /\
    contains script
      ("; --- Pages ---" +:+ nl
       +:+ (if show_welcome_page r then "!insertmacro MUI_PAGE_WELCOME"
            else "; Welcome page disabled") +:+ nl
       +:+ (if show_license_page r
               && (negb (String.eqb (license_file r) EmptyString)
                   && path_exists h (license_file r))
            then "!insertmacro MUI_PAGE_LICENSE " +:+ dq +:+ license_file r +:+ dq
            else "; License page disabled or no file specified/found") +:+ nl
       +:+ (if show_directory_page r then "!insertmacro MUI_PAGE_DIRECTORY"
            else "; Directory page disabled") +:+ nl
       +:+ "!insertmacro MUI_PAGE_INSTFILES" +:+ nl
       +:+ (if show_finish_page r then "!insertmacro MUI_PAGE_FINISH"
            else "; Finish page disabled") +:+ nl +:+ nl
       +:+ "; --- Uninstaller Pages ---").
Proof.
  intros Hr. destruct (render_script h r out Hr) as (entry & _ & Hrender).
  eexists _, _. split; [exact Hrender|].
  eapply (contains_lines _ 33 8); [script_lines_at|].
  unfold page_license_of, license_shown, present.
  destruct (show_license_page r
            && (negb (String.eqb (license_file r) EmptyString)
                && path_exists h (license_file r)));
    destruct (show_welcome_page r), (show_directory_page r), (show_finish_page r);
    string_eq.
Qed.

(** A record with a license file that the sample host has. *)
Definition licensed_host : host := {|
  now_stamp := "2025-01-02 03:04:05";
  now_year := 2025;
  path_exists := fun path => String.eqb path "C:\docs\license.rtf";
  exists_other := fun v => inl (TypeError v);
  abspath := fun path => Some path;
  repr_list := fun _ => "[]";
|}.

Definition licensed_record : ConfigurationRecord :=
  sample_record (Some "app.exe") EmptyString "C:\docs\license.rtf" true true
    true false ["English"].

Lemma pages_block_witness :
  exists script st,
    render licensed_host licensed_record [] = (inr (Some script), st) /\
    contains script
      ("; --- Pages ---" +:+ nl
       +:+ "!insertmacro MUI_PAGE_WELCOME" +:+ nl
       +:+ "!insertmacro MUI_PAGE_LICENSE " +:+ dq +:+ "C:\docs\license.rtf" +:+ dq
       +:+ nl
       +:+ "!insertmacro MUI_PAGE_DIRECTORY" +:+ nl
       +:+ "!insertmacro MUI_PAGE_INSTFILES" +:+ nl
       +:+ "!insertmacro MUI_PAGE_FINISH" +:+ nl +:+ nl
       +:+ "; --- Uninstaller Pages ---").
Proof.
  exact (pages_block licensed_host licensed_record []
           (or_introl (ex_intro _ "app.exe" eq_refl))).
Defined.

(** X7. On a record that renders, the privilege directive of the script is
    [RequestExecutionLevel admin] for an elevated install and
    [RequestExecutionLevel user] otherwise; it is the line between the
    interface settings comment and the compressor directive. *)
Theorem execution_level_directive h r out :
  renderable h r ->
  exists script st,
    render h r out = (inr (Some script), st) /\
    contains script
      ("; --- Interface Settings ---" +:+ nl
       +:+ (if request_admin r then "RequestExecutionLevel admin"
            else "RequestExecutionLevel user") +:+ nl +:+ "SetCompressor ").
Proof.
  intros Hr. destruct (render_script h r out Hr) as (entry & _ & Hrender).
  eexists _, _. split; [exact Hrender|].
  destruct (contains_lines (script_lines_of h r entry) 23 3
              _ _ eq_refl eq_refl) as (pre & post & Hscript).
  exists pre,
    ((if solid_compression r then "/SOLID " else EmptyString)
     +:+ lower (compression r) +:+ post).
  rewrite Hscript. f_equal.
  cbv [script_lines_of NSI_LINE_SEGMENTS map take drop firstn skipn fill_assoc
       assoc slots String.eqb Ascii.eqb Bool.eqb default from_option id py_str].
  unfold execution_level, compressor_command.
  destruct (request_admin r), (solid_compression r); string_eq.
Qed.

Lemma execution_level_directive_witness :
  exists script st,
    render sample_host typical_record [] = (inr (Some script), st) /\
    contains script
      ("; --- Interface Settings ---" +:+ nl
       +:+ "RequestExecutionLevel admin" +:+ nl +:+ "SetCompressor ").
Proof.
  exact (execution_level_directive sample_host typical_record []
           typical_record_renderable).
Defined.

(** X8. On a record that renders, the install and the uninstall shortcut
    block go in step.  Both start with the all-users shell context
    directive for an elevated install.  A start menu shortcut gives the
    install block a [CreateDirectory] of the start menu folder and a
    [CreateShortCut] of [<application>.lnk] in it, and the uninstall block
    a [Delete] of that same link and an [RMDir] of that folder; a desktop
    shortcut gives a [CreateShortCut] and a [Delete] of the same desktop
    link.  Every shortcut targets [$INSTDIR\<executable>], which is
    [$INSTDIR\None] when no executable was selected.  A block with no line
    is the placeholder comment. *)
Theorem shortcut_blocks_in_step h r out :
  renderable h r ->
  exists target sm_link desktop_link create remove script st,
    render h r out = (inr (Some script), st) /\
    contains script
      ("  ; --- Shortcuts ---" +:+ nl
       +:+ block_or "  ; No shortcuts configured" create
       +:+ nl +:+ nl +:+ "SectionEnd") /\
    contains script
      ("  ; --- Remove Shortcuts ---" +:+ nl
       +:+ block_or "  ; No shortcuts configured" remove
       +:+ nl +:+ nl +:+ "  ; --- Remove Files ---") /\
    target = "$INSTDIR\" +:+ match main_executable r with
                              | Some exe => exe
                              | None => "None"
                              end /\
    sm_link = "$SMPROGRAMS\$StartMenuFolder\" +:+ app_name r +:+ ".lnk" /\
    desktop_link = "$DESKTOP\" +:+ app_name r +:+ ".lnk" /\
    create =
      ((if request_admin r
        then ["  SetShellVarContext all ; Install for all users"] else []) ++
       (if create_startmenu_shortcut r
        then ["  ; Create Start Menu Shortcuts";
              "  CreateDirectory " +:+ q "$SMPROGRAMS\$StartMenuFolder";
              "  CreateShortCut " +:+ q sm_link +:+ " " +:+ q target +:+ " "
                +:+ q EmptyString +:+ " " +:+ q target +:+ " 0"]
        else []) ++
       (if create_desktop_shortcut r
        then ["  ; Create Desktop Shortcut";
              "  CreateShortCut " +:+ q desktop_link +:+ " " +:+ q target +:+ " "
                +:+ q EmptyString +:+ " " +:+ q target +:+ " 0"]
        else []))%list /\
    remove =
      ((if request_admin r
        then ["  SetShellVarContext all ; Remove for all users"] else []) ++
       (if create_startmenu_shortcut r
        then ["  ; Remove Start Menu Shortcuts";
              "  Delete " +:+ q sm_link;
              "  RMDir " +:+ q "$SMPROGRAMS\$StartMenuFolder"
                +:+ " ; Only removes if empty"]
        else []) ++
       (if create_desktop_shortcut r
        then ["  ; Remove Desktop Shortcut"; "  Delete " +:+ q desktop_link]
        else []))%list.
Proof.
  intros Hr. destruct (render_script h r out Hr) as (entry & _ & Hrender).
  exists (main_exe_path_of r), (sm_link_of r), (desktop_link_of r),
    (create_lines_of r), (remove_lines_of r).
  eexists _, _. split; [exact Hrender|].
  split; [script_contains 78 4|]. split; [script_contains 85 4|].
  split; [unfold main_exe_path_of, main_exe_text; by destruct (main_executable r)|].
  repeat split.
Qed.

Lemma shortcut_blocks_in_step_witness :
  exists target sm_link desktop_link create remove script st,
    render sample_host typical_record [] = (inr (Some script), st) /\
    contains script
      ("  ; --- Shortcuts ---" +:+ nl
       +:+ block_or "  ; No shortcuts configured" create
       +:+ nl +:+ nl +:+ "SectionEnd") /\
    contains script
      ("  ; --- Remove Shortcuts ---" +:+ nl
       +:+ block_or "  ; No shortcuts configured" remove
       +:+ nl +:+ nl +:+ "  ; --- Remove Files ---") /\
    target = "$INSTDIR\app.exe" /\
    sm_link = "$SMPROGRAMS\$StartMenuFolder\My Application.lnk" /\
    desktop_link = "$DESKTOP\My Application.lnk" /\
    create =
      ["  SetShellVarContext all ; Install for all users";
       "  ; Create Start Menu Shortcuts";
       "  CreateDirectory " +:+ q "$SMPROGRAMS\$StartMenuFolder";
       "  CreateShortCut " +:+ q sm_link +:+ " " +:+ q target +:+ " "
         +:+ q EmptyString +:+ " " +:+ q target +:+ " 0"] /\
    remove =
      ["  SetShellVarContext all ; Remove for all users";
       "  ; Remove Start Menu Shortcuts";
       "  Delete " +:+ q sm_link;
       "  RMDir " +:+ q "$SMPROGRAMS\$StartMenuFolder"
         +:+ " ; Only removes if empty"].
Proof.
  exact (shortcut_blocks_in_step sample_host typical_record []
           typical_record_renderable).
Defined.

Lemma replace_removes (old : ascii) (new : string) (s : string) :
  ~ In old (list_ascii_of_string new) ->
  ~ In old (list_ascii_of_string (replace old new s)).
Proof.
  intros Hnew. induction s as [|c s IH]; [by intros []|].
  cbn [replace]. destruct (Ascii.eqb c old) eqn:Hc.
  - intros Hin. revert Hin.
    assert (Happ : forall a b, list_ascii_of_string (a +:+ b)
                     = (list_ascii_of_string a ++ list_ascii_of_string b)%list).
    { intros a b. induction a as [|x a IHa]; [reflexivity|].
      rewrite string_app_cons. cbn [list_ascii_of_string]. by rewrite IHa. }
    rewrite Happ, in_app_iff. by intros [?|?].
  - cbn [list_ascii_of_string]. intros [->|Hin]; [|by apply IH].
    by rewrite Ascii.eqb_refl in Hc.
Qed.

(** The lines of the script that carry a field of the record as it is. *)
Definition verbatim_lines (h : host) (r : ConfigurationRecord) : list string := [
  "; © " +:+ pretty (now_year h) +:+ " Thibault Savenkoff";
  "; Generated on: " +:+ now_stamp h;
  "Name " +:+ q (app_name r);
  "OutFile " +:+ q (output_installer_name r);
  "BrandingText " +:+ q (branding r);
  "VIProductVersion " +:+ q (product_version r);
  "VIAddVersionKey " +:+ q "ProductName" +:+ " " +:+ q (app_name r);
  "VIAddVersionKey " +:+ q "CompanyName" +:+ " " +:+ q (publisher r);
  "VIAddVersionKey " +:+ q "LegalCopyright" +:+ " "
    +:+ q ("Copyright (c) " +:+ pretty (now_year h) +:+ " " +:+ publisher r);
  "VIAddVersionKey " +:+ q "FileDescription" +:+ " "
    +:+ q (app_name r +:+ " Installer");
  "VIAddVersionKey " +:+ q "FileVersion" +:+ " " +:+ q (app_version r);
  "VIAddVersionKey " +:+ q "ProductVersion" +:+ " " +:+ q (product_version r);
  "  StrCpy $StartMenuFolder " +:+ q (start_menu_folder r);
  "  File /r " +:+ q (replace "/" bslash (source_dir r) +:+ "\*.*")
].

(** X9. On a record that renders, the script carries the date stamp and
    the year of the host and the text fields of the record as they are,
    with no quoting and no escaping: the name, the output file, the
    branding text, the versions, the publisher and the start menu folder
    stand between double quotes exactly as given.  The one field that is
    rewritten is the source directory, whose forward slashes are all
    turned into backslashes before [\*.*] is put after it. *)
Theorem text_fields_verbatim h r out :
  renderable h r ->
  exists script st,
    render h r out = (inr (Some script), st) /\
    Forall (fun line => contains script (nl +:+ line +:+ nl)) (verbatim_lines h r) /\
    ~ In "/"%char (list_ascii_of_string (replace "/" bslash (source_dir r))).
Proof.
  intros Hr. destruct (render_script h r out Hr) as (entry & _ & Hrender).
  eexists _, _. split; [exact Hrender|]. split.
  - unfold verbatim_lines.
    constructor; [script_line 2|].
    constructor; [script_line 3|].
    constructor; [script_line 8|].
    constructor; [script_line 9|].
    constructor; [script_line 12|].
    constructor; [script_line 15|].
    constructor; [script_line 16|].
    constructor; [script_line 17|].
    constructor; [script_line 18|].
    constructor; [script_line 19|].
    constructor; [script_line 20|].
    constructor; [script_line 21|].
    constructor; [script_line 51|].
    constructor; [script_line 61|].
    constructor.
  - apply replace_removes. cbv. intros [H|[]]. discriminate.
Qed.

Lemma text_fields_verbatim_witness :
  exists script st,
    render sample_host typical_record [] = (inr (Some script), st) /\
    Forall (fun line => contains script (nl +:+ line +:+ nl))
      (verbatim_lines sample_host typical_record) /\
    ~ In "/"%char (list_ascii_of_string (replace "/" bslash "C:/src/app")).
Proof.
  exact (text_fields_verbatim sample_host typical_record []
           typical_record_renderable).
Defined.


(** ** The prompts of the collector *)

(** What the keyboard gives to one call of [input]: a line, or the
    interrupt of Ctrl-C pressed while the program waits there.  The end of
    the list is the end of the input.  An interrupt is taken where the
    program waits for the user, in [input]; every prompt catches it
    there. *)
Inductive keyboard : Type :=
  | Typed (line : string)
  | Interrupt.

(** What was shown so far: a prompt of [input], a line of [print] or an
    error box of [messagebox.showerror]. *)
Inductive written : Type :=
  | Prompt (text : string)
  | Line (text : string)
  | ErrorBox (title message : string).

Record terminal : Type := Terminal {
  stdin : list keyboard;
  stdout : list written;
}.

(** The prompts are modelled on ASCII text: [strip], [lower], [capitalize]
    and the digits of a pattern are those of [str] and [re] on lines of
    ASCII characters, and the properties below are stated for such
    input. *)
Definition typed_ascii (k : keyboard) : bool :=
  match k with
  | Typed line => ascii_text line
  | Interrupt => true
  end.

Definition ascii_input (t : terminal) : Prop :=
  forallb typed_ascii (stdin t) = true.

(** What a piece of the collector comes to: a value, [sys.exit(code)], an
    exception nobody catches, or, for a loop that is run for a number of
    rounds, the end of the rounds. *)
Inductive answer (A : Type) : Type :=
  | Got (x : A)
  | Exit (code : Z)
  | Uncaught
  | Unfinished.
Arguments Got {A} x.
Arguments Exit {A} code.
Arguments Uncaught {A}.
Arguments Unfinished {A}.

(** [str.isspace] on the ASCII characters. *)
Definition is_whitespace (c : ascii) : bool :=
  let n := nat_of_ascii c in
  ((9 <=? n)%nat && (n <=? 13)%nat) || ((28 <=? n)%nat && (n <=? 32)%nat).

Fixpoint strip_left (s : string) : string :=
  match s with
  | String c rest => if is_whitespace c then strip_left rest else s
  | EmptyString => EmptyString
  end.

Fixpoint strip_right (s : string) : string :=
  match s with
  | String c rest =>
      match strip_right rest with
      | EmptyString => if is_whitespace c then EmptyString else String c EmptyString
      | kept => String c kept
      end
  | EmptyString => EmptyString
  end.

(** [s.strip()] *)
Definition strip (s : string) : string := strip_right (strip_left s).

(** What every prompt does at the end of the input: [EOFError] is caught,
    two lines are printed and the process exits with 1. *)
Definition input_aborted (out : list written) (text : string) : list written :=
  (out ++ [Prompt text; Line (nl +:+ "Input aborted."); Line (nl +:+ "Bye!")])%list.

(** What every prompt does on an interrupt: [KeyboardInterrupt] is caught,
    two lines are printed and the process exits with 1. *)
Definition input_cancelled (out : list written) (text : string) : list written :=
  (out ++ [Prompt text; Line (nl +:+ "Operation cancelled by user.");
           Line (nl +:+ "Bye!")])%list.

Definition string_prompt (prompt : string) (dflt : option string) : string :=
  prompt +:+ match dflt with
             | Some d => " [" +:+ d +:+ "]"
             | None => EmptyString
             end +:+ ": ".

Fixpoint ask_string_loop (text : string) (dflt : option string)
    (allow_empty : bool) (lines : list keyboard) (out : list written)
  : answer string * terminal :=
  match lines with
  | [] => (Exit 1, {| stdin := []; stdout := input_aborted out text |})
  | Interrupt :: rest =>
      (Exit 1, {| stdin := rest; stdout := input_cancelled out text |})
  | Typed line :: rest =>
      let out := (out ++ [Prompt text])%list in
      let user_input := strip line in
      if negb (String.eqb user_input EmptyString)
      then (Got user_input, {| stdin := rest; stdout := out |})
      else match dflt with
           | Some d => (Got d, {| stdin := rest; stdout := out |})
           | None =>
               if allow_empty
               then (Got EmptyString, {| stdin := rest; stdout := out |})
               else ask_string_loop text dflt allow_empty rest
                      (out ++ [Line "Input cannot be empty."])%list
           end
  end.

(** [ask_string(prompt, default, allow_empty)] *)
Definition ask_string (prompt : string) (dflt : option string)
    (allow_empty : bool) (t : terminal) : answer string * terminal :=
  ask_string_loop (string_prompt prompt dflt) dflt allow_empty (stdin t) (stdout t).

Definition bool_prompt (prompt : string) (dflt : bool) : string :=
  prompt +:+ " " +:+ (if dflt then "[Y/n]" else "[y/N]") +:+ ": ".

Definition is_in (s : string) (l : list string) : bool :=
  existsb (String.eqb s) l.

Fixpoint ask_bool_loop (text : string) (dflt : bool) (lines : list keyboard)
    (out : list written) : answer bool * terminal :=
  match lines with
  | [] => (Exit 1, {| stdin := []; stdout := input_aborted out text |})
  | Interrupt :: rest =>
      (Exit 1, {| stdin := rest; stdout := input_cancelled out text |})
  | Typed line :: rest =>
      let out := (out ++ [Prompt text])%list in
      let user_input := lower (strip line) in
      if String.eqb user_input EmptyString
      then (Got dflt, {| stdin := rest; stdout := out |})
      else if is_in user_input ["y"; "yes"]
      then (Got true, {| stdin := rest; stdout := out |})
      else if is_in user_input ["n"; "no"]
      then (Got false, {| stdin := rest; stdout := out |})
      else ask_bool_loop text dflt rest
             (out ++ [Line "Please answer 'yes' or 'no' (or press Enter for default)."])%list
  end.

(** [ask_bool(prompt, default)] *)
Definition ask_bool (prompt : string) (dflt : bool) (t : terminal)
  : answer bool * terminal :=
  ask_bool_loop (bool_prompt prompt dflt) dflt (stdin t) (stdout t).

(** *** Whitespace *)

Lemma strip_left_head (s : string) :
  strip_left s = EmptyString
  \/ exists c rest, strip_left s = String c rest /\ is_whitespace c = false.
Proof.
  induction s as [|c s IH]; [by left|]. cbn [strip_left].
  destruct (is_whitespace c) eqn:Hc; [exact IH|]. right. eauto.
Qed.

Lemma strip_right_keeps_head (c : ascii) (s : string) :
  is_whitespace c = false -> strip_right (String c s) = String c (strip_right s).
Proof.
  intros Hc. cbn [strip_right]. destruct (strip_right s); [by rewrite Hc|done].
Qed.

Lemma strip_right_idempotent (s : string) :
  strip_right (strip_right s) = strip_right s.
Proof.
  induction s as [|c s IH]; [reflexivity|]. cbn [strip_right].
  destruct (strip_right s) as [|k kept] eqn:Hs.
  - destruct (is_whitespace c) eqn:Hc; [reflexivity|].
    cbn [strip_right]. by rewrite Hc.
  - change (strip_right (String c (String k kept))) with
      (match strip_right (String k kept) with
       | EmptyString => if is_whitespace c then EmptyString else String c EmptyString
       | kept' => String c kept'
       end).
    by rewrite IH.
Qed.

(** A stripped string is its own strip: it has no white space at either
    end. *)
Lemma strip_idempotent (s : string) : strip (strip s) = strip s.
Proof.
  unfold strip.
  destruct (strip_left_head s) as [->|(c & rest & -> & Hc)]; [reflexivity|].
  rewrite (strip_right_keeps_head c rest Hc).
  cbn [strip_left]. rewrite Hc.
  rewrite (strip_right_keeps_head c _ Hc). by rewrite strip_right_idempotent.
Qed.

(** The prompt and the complaint that a rejected line costs. *)
Definition asked_again (text complaint : string) (rejected : list string)
  : list written :=
  flat_map (fun _ => [Prompt text; Line complaint]) rejected.

(** How a prompt that exits got there: after lines it passed over, the
    input ended or an interrupt came; what it printed last tells which. *)
Definition gave_up (text complaint : string) (lines : list keyboard)
    (out : list written) (rejected : list string) (t' : terminal) : Prop :=
  (lines = map Typed rejected /\ stdin t' = []
   /\ stdout t' = input_aborted (out ++ asked_again text complaint rejected) text)
  \/ (lines = (map Typed rejected ++ Interrupt :: stdin t')%list
      /\ stdout t' = input_cancelled (out ++ asked_again text complaint rejected)
                       text).

Lemma gave_up_now text complaint out :
  gave_up text complaint [] out []
    {| stdin := []; stdout := input_aborted out text |}.
Proof. left. cbn. by rewrite app_nil_r. Qed.

Lemma gave_up_interrupted text complaint rest out :
  gave_up text complaint (Interrupt :: rest) out []
    {| stdin := rest; stdout := input_cancelled out text |}.
Proof. right. cbn. by rewrite app_nil_r. Qed.

Lemma gave_up_later text complaint line rest out rejected t' :
  gave_up text complaint rest ((out ++ [Prompt text]) ++ [Line complaint])
    rejected t' ->
  gave_up text complaint (Typed line :: rest) out (line :: rejected) t'.
Proof.
  intros [(Hlines & Hin & Hout)|(Hlines & Hout)]; [left|right];
    cbn [asked_again flat_map map]; rewrite Hlines, Hout;
    unfold input_aborted, input_cancelled; rewrite <- !app_assoc;
    by repeat split.
Qed.

Lemma ask_string_loop_spec text dflt allow_empty lines out :
  match ask_string_loop text dflt allow_empty lines out with
  | (Got s, t') =>
      exists blanks line,
        lines = (map Typed blanks ++ Typed line :: stdin t')%list /\
        Forall (fun b => strip b = EmptyString) blanks /\
        s = (if String.eqb (strip line) EmptyString
             then default EmptyString dflt else strip line) /\
        (strip line = EmptyString -> dflt <> None \/ allow_empty = true) /\
        (blanks <> [] -> dflt = None /\ allow_empty = false) /\
        stdout t' = (out ++ asked_again text "Input cannot be empty." blanks
                     ++ [Prompt text])%list
  | (Exit code, t') =>
      code = 1%Z /\
      exists blanks,
        Forall (fun b => strip b = EmptyString) blanks /\
        (blanks <> [] -> dflt = None /\ allow_empty = false) /\
        gave_up text "Input cannot be empty." lines out blanks t'
  | (Uncaught, _) => False
  | (Unfinished, _) => False
  end.
Proof.
  revert out. induction lines as [|[line|] rest IH]; intros out.
  - split; [done|]. exists []. split; [constructor|]. split; [done|].
    apply gave_up_now.
  - cbn [ask_string_loop].
    destruct (String.eqb (strip line) EmptyString) eqn:Hblank; cbn [negb].
    + apply String.eqb_eq in Hblank.
      destruct dflt as [d|]; [|destruct allow_empty].
      * exists [], line. cbn. rewrite Hblank. cbn.
        repeat split; try done; intros; by left.
      * exists [], line. cbn. rewrite Hblank. cbn.
        repeat split; try done; intros; by right.
      * specialize (IH ((out ++ [Prompt text]) ++ [Line "Input cannot be empty."])%list).
        destruct (ask_string_loop text None false rest _) as [[s|code| |] t'];
          [| |done..].
        -- destruct IH as (blanks & l & -> & Hblanks & -> & Hl & _ & ->).
           exists (line :: blanks), l. cbn [asked_again flat_map].
           repeat split; [by constructor | exact Hl | ].
           by rewrite <- !app_assoc.
        -- destruct IH as (-> & blanks & Hblanks & _ & Hgave).
           split; [done|]. exists (line :: blanks).
           split; [by constructor|]. split; [done|].
           by apply gave_up_later.
    + exists [], line. cbn. rewrite Hblank. cbn.
      apply String.eqb_neq in Hblank. repeat split; [constructor|done..].
  - split; [done|]. exists []. split; [constructor|]. split; [done|].
    apply gave_up_interrupted.
Qed.

(** X10. On ASCII input [ask_string] reads lines until one is not blank,
    or takes the first line when there is a default or an empty answer is
    allowed.  It returns that line stripped of surrounding white space, the
    default for a blank line when there is one, the empty string for a
    blank line when that is allowed; each blank line it passes over costs
    one complaint.  With no default and no empty answer allowed the value
    returned is never empty.  It exits, with code 1, at the end of the
    input and at an interrupt, and in no other case. *)
Theorem ask_string_answers prompt dflt allow_empty t :
  ascii_input t ->
  match ask_string prompt dflt allow_empty t with
  | (Got s, t') =>
      exists blanks line,
        stdin t = (map Typed blanks ++ Typed line :: stdin t')%list /\
        Forall (fun b => strip b = EmptyString) blanks /\
        s = (if String.eqb (strip line) EmptyString
             then default EmptyString dflt else strip line) /\
        (blanks <> [] -> dflt = None /\ allow_empty = false) /\
        (dflt = None -> allow_empty = false ->
           s <> EmptyString /\ strip s = s) /\
        stdout t' = (stdout t
                     ++ asked_again (string_prompt prompt dflt)
                          "Input cannot be empty." blanks
                     ++ [Prompt (string_prompt prompt dflt)])%list
  | (Exit code, t') =>
      code = 1%Z /\
      exists blanks,
        Forall (fun b => strip b = EmptyString) blanks /\
        (blanks <> [] -> dflt = None /\ allow_empty = false) /\
        gave_up (string_prompt prompt dflt) "Input cannot be empty."
          (stdin t) (stdout t) blanks t'
  | (Uncaught, _) => False
  | (Unfinished, _) => False
  end.
Proof.
  intros _. unfold ask_string.
  pose proof (ask_string_loop_spec (string_prompt prompt dflt) dflt allow_empty
                (stdin t) (stdout t)) as Hspec.
  destruct (ask_string_loop _ dflt allow_empty (stdin t) (stdout t))
    as [[s|code| |] t']; [| |done..].
  - destruct Hspec as (blanks & line & Hin & Hblanks & Hs & Hline & Hmode & Hout).
    exists blanks, line. split; [exact Hin|]. split; [exact Hblanks|].
    split; [exact Hs|]. split; [exact Hmode|]. split; [|exact Hout].
    intros -> ->. subst s.
    destruct (String.eqb (strip line) EmptyString) eqn:Hb.
    + apply String.eqb_eq in Hb. by destruct (Hline Hb).
    + apply String.eqb_neq in Hb. split; [exact Hb | apply strip_idempotent].
  - exact Hspec.
Qed.

Lemma ask_string_answers_witness :
  match ask_string "Name" None false
          {| stdin := [Typed "  "; Typed " Ann "; Interrupt]; stdout := [] |} with
  | (Got s, t') => s = "Ann" /\ stdin t' = [Interrupt]
  | _ => False
  end
  /\ match ask_string "Name" None false
             {| stdin := [Typed "  "; Interrupt; Typed "Ann"]; stdout := [] |} with
     | (Exit code, t') =>
         code = 1%Z /\
         exists blanks,
           Forall (fun b => strip b = EmptyString) blanks /\
           (blanks <> [] -> @None string = None /\ false = false) /\
           gave_up (string_prompt "Name" None) "Input cannot be empty."
             [Typed "  "; Interrupt; Typed "Ann"] [] blanks t'
     | _ => False
     end.
Proof.
  split; [by vm_compute|].
  apply (ask_string_answers "Name" None false
           {| stdin := [Typed "  "; Interrupt; Typed "Ann"]; stdout := [] |}).
  reflexivity.
Defined.

(** *** Yes or no *)

Definition bool_complaint : string :=
  "Please answer 'yes' or 'no' (or press Enter for default).".

(** The answers [ask_bool] takes: a blank line and four words, in any
    letter case and with white space around them. *)
Definition bool_words : list string := [EmptyString; "y"; "yes"; "n"; "no"].

Lemma ask_bool_loop_spec text dflt lines out :
  match ask_bool_loop text dflt lines out with
  | (Got b, t') =>
      exists rejected line,
        lines = (map Typed rejected ++ Typed line :: stdin t')%list /\
        Forall (fun r => is_in (lower (strip r)) bool_words = false) rejected /\
        ((lower (strip line) = EmptyString /\ b = dflt) \/
         ((lower (strip line) = "y" \/ lower (strip line) = "yes") /\ b = true) \/
         ((lower (strip line) = "n" \/ lower (strip line) = "no") /\ b = false)) /\
        stdout t' = (out ++ asked_again text bool_complaint rejected
                     ++ [Prompt text])%list
  | (Exit code, t') =>
      code = 1%Z /\
      exists rejected,
        Forall (fun r => is_in (lower (strip r)) bool_words = false) rejected /\
        gave_up text bool_complaint lines out rejected t'
  | (Uncaught, _) => False
  | (Unfinished, _) => False
  end.
Proof.
  revert out. induction lines as [|[line|] rest IH]; intros out.
  - split; [done|]. exists []. split; [constructor | apply gave_up_now].
  - cbn [ask_bool_loop]. unfold is_in at 1 2. cbn [existsb].
    destruct (String.eqb (lower (strip line)) EmptyString) eqn:Hblank.
    { apply String.eqb_eq in Hblank. exists [], line.
      split; [done|]. split; [constructor|]. split; [by left | done]. }
    destruct (String.eqb (lower (strip line)) "y") eqn:Hy.
    { apply String.eqb_eq in Hy. exists [], line.
      split; [done|]. split; [constructor|].
      split; [right; left; split; [by left|done] | done]. }
    destruct (String.eqb (lower (strip line)) "yes") eqn:Hyes.
    { apply String.eqb_eq in Hyes. exists [], line.
      split; [done|]. split; [constructor|].
      split; [right; left; split; [by right|done] | done]. }
    destruct (String.eqb (lower (strip line)) "n") eqn:Hn.
    { apply String.eqb_eq in Hn. exists [], line.
      split; [done|]. split; [constructor|].
      split; [right; right; split; [by left|done] | done]. }
    destruct (String.eqb (lower (strip line)) "no") eqn:Hno.
    { apply String.eqb_eq in Hno. exists [], line.
      split; [done|]. split; [constructor|].
      split; [right; right; split; [by right|done] | done]. }
    cbn [orb].
    assert (is_in (lower (strip line)) bool_words = false) as Hrejected.
    { unfold is_in, bool_words. cbn [existsb].
      by rewrite Hblank, Hy, Hyes, Hn, Hno. }
    specialize (IH ((out ++ [Prompt text]) ++ [Line bool_complaint])%list).
    fold bool_complaint.
    destruct (ask_bool_loop text dflt rest _) as [[b|code| |] t']; [| |done..].
    + destruct IH as (rejected & l & -> & Hrej & Hb & ->).
      exists (line :: rejected), l. cbn [asked_again flat_map].
      repeat split; [by constructor | exact Hb | by rewrite <- !app_assoc].
    + destruct IH as (-> & rejected & Hrej & Hgave).
      split; [done|]. exists (line :: rejected).
      split; [by constructor | by apply gave_up_later].
  - split; [done|]. exists []. split; [constructor | apply gave_up_interrupted].
Qed.

(** X11. On ASCII input [ask_bool] passes over every line that is none of
    the words it knows, at the cost of one complaint each, and answers with
    the first line that is one: the default for a blank line, yes for [y]
    and [yes], no for [n] and [no], whatever the letter case and the white
    space around the word.  It exits, with code 1, at the end of the input
    and at an interrupt, and in no other case. *)
Theorem ask_bool_answers prompt dflt t :
  ascii_input t ->
  match ask_bool prompt dflt t with
  | (Got b, t') =>
      exists rejected line,
        stdin t = (map Typed rejected ++ Typed line :: stdin t')%list /\
        Forall (fun r => is_in (lower (strip r)) bool_words = false) rejected /\
        ((lower (strip line) = EmptyString /\ b = dflt) \/
         ((lower (strip line) = "y" \/ lower (strip line) = "yes") /\ b = true) \/
         ((lower (strip line) = "n" \/ lower (strip line) = "no") /\ b = false)) /\
        stdout t' = (stdout t
                     ++ asked_again (bool_prompt prompt dflt) bool_complaint rejected
                     ++ [Prompt (bool_prompt prompt dflt)])%list
  | (Exit code, t') =>
      code = 1%Z /\
      exists rejected,
        Forall (fun r => is_in (lower (strip r)) bool_words = false) rejected /\
        gave_up (bool_prompt prompt dflt) bool_complaint (stdin t) (stdout t)
          rejected t'
  | (Uncaught, _) => False
  | (Unfinished, _) => False
  end.
Proof.
  intros _. unfold ask_bool.
  apply (ask_bool_loop_spec (bool_prompt prompt dflt) dflt (stdin t) (stdout t)).
Qed.

Lemma ask_bool_answers_witness :
  match ask_bool "Go on?" false
          {| stdin := [Typed "maybe"; Typed " YES "]; stdout := [] |} with
  | (Got b, t') =>
      exists rejected line,
        [Typed "maybe"; Typed " YES "]
        = (map Typed rejected ++ Typed line :: stdin t')%list /\
        Forall (fun r => is_in (lower (strip r)) bool_words = false) rejected /\
        ((lower (strip line) = EmptyString /\ b = false) \/
         ((lower (strip line) = "y" \/ lower (strip line) = "yes") /\ b = true) \/
         ((lower (strip line) = "n" \/ lower (strip line) = "no") /\ b = false)) /\
        stdout t' = ([]
                     ++ asked_again (bool_prompt "Go on?" false) bool_complaint rejected
                     ++ [Prompt (bool_prompt "Go on?" false)])%list
  | _ => False
  end.
Proof.
  apply (ask_bool_answers "Go on?" false
           {| stdin := [Typed "maybe"; Typed " YES "]; stdout := [] |}).
  reflexivity.
Defined.

(** *** A choice from a list *)

(** [int(s)] for a line of ASCII text: an optional sign, then decimal
    digits with single underscores between them; [None] is the
    [ValueError] of anything else. *)
Definition digit_value (c : ascii) : option Z :=
  let n := nat_of_ascii c in
  if (48 <=? n)%nat && (n <=? 57)%nat then Some (Z.of_nat (n - 48)) else None.

Fixpoint int_digits (acc : Z) (after_digit : bool) (s : string) : option Z :=
  match s with
  | EmptyString => if after_digit then Some acc else None
  | String c rest =>
      if Ascii.eqb c "_"
      then if after_digit then int_digits acc false rest else None
      else match digit_value c with
           | Some d => int_digits (10 * acc + d) true rest
           | None => None
           end
  end.

Definition py_int (s : string) : option Z :=
  match strip s with
  | String "-" rest => Z.opp <$> int_digits 0 false rest
  | String "+" rest => int_digits 0 false rest
  | digits => int_digits 0 false digits
  end.

(** [options.index(x)], [None] when [x not in options]. *)
Fixpoint index_of (x : string) (options : list string) : option nat :=
  match options with
  | [] => None
  | o :: rest => if String.eqb o x then Some 0%nat else S <$> index_of x rest
  end.

(** [options[i]]; an index out of range is an [IndexError]. *)
Definition item {A} (options : list A) (i : nat) : answer A :=
  match options !! i with
  | Some o => Got o
  | None => Uncaught
  end.

Definition option_line (i : nat) (option : string) : written :=
  Line ("  " +:+ pretty (i + 1)%nat +:+ ") " +:+ option).

Definition choice_prompt (dflt : option string) (default_index : option nat)
  : string :=
  match dflt, default_index with
  | Some d, Some i => "Enter choice number [" +:+ pretty (i + 1)%nat +:+ " - " +:+ d +:+ "]: "
  | _, _ => "Enter choice number: "
  end.

Definition invalid_choice (options : list string) : string :=
  "Invalid choice. Please enter a number between 1 and "
  +:+ pretty (length options) +:+ ".".

(** How [ask_choice] and the prompts after it leave: at the end of the
    input or at an interrupt. *)
Definition left_at (lines : list keyboard) (t' : terminal) : Prop :=
  exists passed : list string,
    (lines = map Typed passed /\ stdin t' = [])
    \/ lines = (map Typed passed ++ Interrupt :: stdin t')%list.

Lemma left_at_later line rest t' :
  left_at rest t' -> left_at (Typed line :: rest) t'.
Proof.
  intros (passed & [(-> & Hin)| ->]); exists (line :: passed); [by left | by right].
Qed.

Section Choice.

(** The theorems on [ask_choice] hold for any reading of [int]: they do not
    depend on which texts it takes for a number. *)
Variable int : string -> option Z.

Fixpoint ask_choice_loop (options : list string) (default_index : option nat)
    (text : string) (lines : list keyboard) (out : list written)
  : answer string * terminal :=
  match lines with
  | [] => (Exit 1, {| stdin := []; stdout := input_aborted out text |})
  | Interrupt :: rest =>
      (Exit 1, {| stdin := rest; stdout := input_cancelled out text |})
  | Typed line :: rest =>
      let out := (out ++ [Prompt text])%list in
      let user_input := strip line in
      if String.eqb user_input EmptyString
      then match default_index with
           | Some i => (item options i, {| stdin := rest; stdout := out |})
           | None =>
               ask_choice_loop options default_index text rest
                 (out ++ [Line "Please make a selection."])%list
           end
      else match int user_input with
           | None =>
               ask_choice_loop options default_index text rest
                 (out ++ [Line "Invalid input. Please enter a number."])%list
           | Some n =>
               let choice_index := (n - 1)%Z in
               if (0 <=? choice_index)%Z && (choice_index <? Z.of_nat (length options))%Z
               then (item options (Z.to_nat choice_index),
                     {| stdin := rest; stdout := out |})
               else ask_choice_loop options default_index text rest
                      (out ++ [Line (invalid_choice options)])%list
           end
  end.

(** [ask_choice(prompt, options, default)] *)
Definition ask_choice (prompt : string) (options : list string)
    (dflt : option string) (t : terminal) : answer string * terminal :=
  let out := (stdout t ++ Line prompt :: imap option_line options)%list in
  let default_index := dflt ≫= fun d => index_of d options in
  ask_choice_loop options default_index (choice_prompt dflt default_index)
    (stdin t) out.

Lemma index_of_lookup x options i :
  index_of x options = Some i -> options !! i = Some x.
Proof.
  revert i. induction options as [|o rest IH]; intros i; cbn; [done|].
  destruct (String.eqb o x) eqn:Ho.
  - apply String.eqb_eq in Ho. by intros [= <-]; subst.
  - destruct (index_of x rest) as [j|]; [|done]. intros [= <-]. by apply IH.
Qed.

(** The lines [ask_choice] passes over: blank lines when no default is in
    the list, text that is no number, and numbers out of range. *)
Definition choice_rejected (options : list string) (default_index : option nat)
    (line : string) : Prop :=
  (strip line = EmptyString /\ default_index = None)
  \/ (strip line <> EmptyString /\
      match int (strip line) with
      | Some n => ~ (1 <= n <= Z.of_nat (length options))%Z
      | None => True
      end).

Lemma ask_choice_loop_spec options default_index text lines out :
  match ask_choice_loop options default_index text lines out with
  | (Got s, t') =>
      exists rejected line,
        lines = (map Typed rejected ++ Typed line :: stdin t')%list /\
        Forall (choice_rejected options default_index) rejected /\
        ((strip line = EmptyString /\
          exists i, default_index = Some i /\ options !! i = Some s) \/
         (strip line <> EmptyString /\
          exists n, int (strip line) = Some n /\
                    (1 <= n <= Z.of_nat (length options))%Z /\
                    options !! Z.to_nat (n - 1) = Some s)) /\
        exists said, stdout t' = (out ++ said ++ [Prompt text])%list
  | (Exit code, t') =>
      code = 1%Z /\
      exists rejected,
        Forall (choice_rejected options default_index) rejected /\
        ((lines = map Typed rejected /\ stdin t' = [])
         \/ lines = (map Typed rejected ++ Interrupt :: stdin t')%list)
  | (Uncaught, _) =>
      exists i, default_index = Some i /\ options !! i = None
  | (Unfinished, _) => False
  end.
Proof.
  revert out. induction lines as [|[line|] rest IH]; intros out.
  - split; [done|]. exists []. split; [constructor | by left].
  - cbn [ask_choice_loop].
    assert (forall o complaint, choice_rejected options default_index line ->
      match ask_choice_loop options default_index text rest
              ((o ++ [Prompt text]) ++ [Line complaint])%list with
      | (Got s, t') =>
          exists rejected l,
            Typed line :: rest = (map Typed rejected ++ Typed l :: stdin t')%list /\
            Forall (choice_rejected options default_index) rejected /\
            ((strip l = EmptyString /\
              exists i, default_index = Some i /\ options !! i = Some s) \/
             (strip l <> EmptyString /\
              exists n, int (strip l) = Some n /\
                        (1 <= n <= Z.of_nat (length options))%Z /\
                        options !! Z.to_nat (n - 1) = Some s)) /\
            exists said, stdout t' = (o ++ said ++ [Prompt text])%list
      | (Exit code, t') =>
          code = 1%Z /\
          exists rejected,
            Forall (choice_rejected options default_index) rejected /\
            ((Typed line :: rest = map Typed rejected /\ stdin t' = [])
             \/ Typed line :: rest
                = (map Typed rejected ++ Interrupt :: stdin t')%list)
      | (Uncaught, _) => exists i, default_index = Some i /\ options !! i = None
      | (Unfinished, _) => False
      end) as Hnext.
    { intros o complaint Hline.
      specialize (IH ((o ++ [Prompt text]) ++ [Line complaint])%list).
      destruct (ask_choice_loop options default_index text rest _)
        as [[s|code| |] t']; [| |done..].
      - destruct IH as (rejected & l & -> & Hrej & Hs & said & ->).
        exists (line :: rejected), l. split; [done|].
        split; [by constructor|]. split; [exact Hs|].
        exists ([Prompt text; Line complaint] ++ said)%list.
        by rewrite <- !app_assoc.
      - destruct IH as (-> & rejected & Hrej & Hleft). split; [done|].
        exists (line :: rejected). split; [by constructor|].
        destruct Hleft as [(-> & Hin)| ->]; [by left | by right]. }
    destruct (String.eqb (strip line) EmptyString) eqn:Hblank.
    + apply String.eqb_eq in Hblank.
      destruct default_index as [i|]; [|apply Hnext; by left].
      unfold item. destruct (options !! i) as [o|] eqn:Hi; [|by exists i].
      exists [], line. split; [done|]. split; [constructor|].
      split; [left; split; [done|by exists i]|]. by exists [].
    + apply String.eqb_neq in Hblank.
      destruct (int (strip line)) as [n|] eqn:Hn;
        [|apply Hnext; right; by rewrite Hn].
      destruct ((0 <=? n - 1)%Z && (n - 1 <? Z.of_nat (length options))%Z)
        eqn:Hrange.
      * apply andb_true_iff in Hrange as [Hlo Hhi].
        apply Z.leb_le in Hlo. apply Z.ltb_lt in Hhi.
        unfold item.
        destruct (options !! Z.to_nat (n - 1)) as [o|] eqn:Hi.
        -- exists [], line. split; [done|]. split; [constructor|].
           split; [|by exists []].
           right. split; [done|]. exists n. repeat split; [done|lia|lia|done].
        -- apply lookup_ge_None in Hi. lia.
      * apply Hnext. right. split; [done|]. rewrite Hn.
        apply andb_false_iff in Hrange as [Hlo|Hhi];
          [apply Z.leb_gt in Hlo | apply Z.ltb_ge in Hhi]; lia.
  - split; [done|]. exists []. split; [constructor | by right].
Qed.

(** X12. On ASCII input [ask_choice] only ever returns a member of the
    list of options: the default, when the line is blank and the default is
    in the list, or the option whose number, counted from 1, the line
    holds.  No reading of a line makes it index the list out of range;
    blank lines without a default, lines that are no number and numbers out
    of range are passed over.  Before the first prompt it prints the
    question and the options, numbered from 1.  It exits, with code 1, at
    the end of the input and at an interrupt, and in no other case. *)
Theorem ask_choice_answers prompt options dflt t :
  ascii_input t ->
  match ask_choice prompt options dflt t with
  | (Got s, t') =>
      s ∈ options /\
      exists rejected line,
        stdin t = (map Typed rejected ++ Typed line :: stdin t')%list /\
        Forall (choice_rejected options (dflt ≫= fun d => index_of d options))
          rejected /\
        ((strip line = EmptyString /\ dflt = Some s) \/
         (strip line <> EmptyString /\
          exists n, int (strip line) = Some n /\
                    (1 <= n <= Z.of_nat (length options))%Z /\
                    options !! Z.to_nat (n - 1) = Some s)) /\
        exists said,
          stdout t' = (stdout t ++ Line prompt :: imap option_line options
                       ++ said)%list
  | (Exit code, t') =>
      code = 1%Z /\
      exists rejected,
        Forall (choice_rejected options (dflt ≫= fun d => index_of d options))
          rejected /\
        ((stdin t = map Typed rejected /\ stdin t' = [])
         \/ stdin t = (map Typed rejected ++ Interrupt :: stdin t')%list)
  | (Uncaught, _) => False
  | (Unfinished, _) => False
  end.
Proof.
  intros _. unfold ask_choice.
  pose proof (ask_choice_loop_spec options (dflt ≫= fun d => index_of d options)
                (choice_prompt dflt (dflt ≫= fun d => index_of d options))
                (stdin t)
                (stdout t ++ Line prompt :: imap option_line options)%list) as Hspec.
  destruct (ask_choice_loop _ _ _ (stdin t) _) as [[s|code| |] t']; [| | |done].
  - destruct Hspec as (rejected & line & Hin & Hrej & Hs & said & Hout).
    assert (dflt ≫= (fun d => index_of d options) = None
            \/ exists d i, dflt = Some d /\ index_of d options = Some i) as Hd.
    { destruct dflt as [d|]; [|by left].
      change (index_of d options = None
              \/ exists d' i, Some d = Some d' /\ index_of d' options = Some i).
      destruct (index_of d options) as [i|] eqn:Hi; [right; by exists d, i | by left]. }
    split.
    + destruct Hs as [(_ & i & _ & Hi)|(_ & n & _ & _ & Hi)];
        by eapply list_elem_of_lookup_2.
    + exists rejected, line. split; [exact Hin|]. split; [exact Hrej|]. split.
      * destruct Hs as [(Hblank & i & Hidx & Hi)|Hs]; [left|by right].
        split; [done|].
        destruct Hd as [Hd|(d & j & -> & Hj)]; [congruence|].
        change (index_of d options = Some i) in Hidx.
        rewrite Hj in Hidx. injection Hidx as ->.
        apply index_of_lookup in Hj. congruence.
      * exists (said ++ [Prompt (choice_prompt dflt (dflt ≫= fun d => index_of d options))])%list.
        rewrite Hout. rewrite <- !app_assoc. reflexivity.
  - exact Hspec.
  - destruct Hspec as (i & Hidx & Hi).
    destruct dflt as [d|]; [|done].
    change (index_of d options = Some i) in Hidx.
    apply index_of_lookup in Hidx. congruence.
Qed.

End Choice.

Lemma ask_choice_answers_witness :
  match ask_choice py_int "Pick" ["a"; "b"] (Some "b")
          {| stdin := [Typed "x"; Typed "3"; Typed "+1"]; stdout := [] |} with
  | (Got s, t') => s = "a" /\ s ∈ ["a"; "b"] /\ stdin t' = []
  | _ => False
  end.
Proof.
  pose proof (ask_choice_answers py_int "Pick" ["a"; "b"] (Some "b")
                {| stdin := [Typed "x"; Typed "3"; Typed "+1"]; stdout := [] |}
                eq_refl) as Hspec.
  destruct (ask_choice py_int "Pick" ["a"; "b"] (Some "b") _) as [[s| | |] t'] eqn:Hrun;
    [|by vm_compute in Hrun..].
  destruct Hspec as (Hin & _). vm_compute in Hrun. injection Hrun as <- <-.
  done.
Defined.
(** *** The product version *)

(** [\d] on the ASCII characters. *)
Definition is_digit (c : ascii) : bool :=
  let n := nat_of_ascii c in (48 <=? n)%nat && (n <=? 57)%nat.
Arguments is_digit : simpl never.

Fixpoint skip_digits (s : string) : string :=
  match s with
  | String c rest => if is_digit c then skip_digits rest else s
  | EmptyString => EmptyString
  end.

(** [\d+] at the start of [s], and what is left after it.  The repetition
    is greedy, and giving back a digit never helps here: what follows it in
    the two patterns is a dot or the end, and a digit is neither. *)
Definition re_digits (s : string) : option string :=
  match s with
  | String c rest => if is_digit c then Some (skip_digits rest) else None
  | EmptyString => None
  end.

(** [\.] *)
Definition re_dot (s : string) : option string :=
  match s with
  | String "." rest => Some rest
  | _ => None
  end.

(** [$] without [re.MULTILINE]: the end of the string, or just before a
    line feed that ends it. *)
Definition re_end (s : string) : bool :=
  String.eqb s EmptyString || String.eqb s nl.

(** The two patterns are sequences of these two pieces between [^] and
    [$]. *)
Inductive re_piece : Type :=
  | Digits
  | Dot.

Fixpoint re_pieces (pieces : list re_piece) (s : string) : option string :=
  match pieces with
  | [] => Some s
  | piece :: more =>
      match (match piece with Digits => re_digits s | Dot => re_dot s end) with
      | Some rest => re_pieces more rest
      | None => None
      end
  end.

Definition re_match (pieces : list re_piece) (s : string) : bool :=
  match re_pieces pieces s with
  | Some rest => re_end rest
  | None => false
  end.

(** [re.match(r'^\d+\.\d+\.\d+\.\d+$', s)] as a truth value *)
Definition match_four_numbers : string -> bool :=
  re_match [Digits; Dot; Digits; Dot; Digits; Dot; Digits].

(** [re.match(r'^\d+\.\d+\.\d+$', s)] as a truth value *)
Definition match_three_numbers : string -> bool :=
  re_match [Digits; Dot; Digits; Dot; Digits].

Definition version_error : string :=
  "Error: Product Version must be in the format 'X.X.X.X' (four numbers separated by dots).".

Definition default_warning (d : string) : string :=
  "Warning: Default value '" +:+ d +:+ "' is not in the correct format 'X.X.X.X'.".

Fixpoint validate_product_version_loop (text app_version : string)
    (dflt : option string) (allow_empty : bool) (lines : list keyboard)
    (out : list written) : answer string * terminal :=
  match lines with
  | [] => (Exit 1, {| stdin := []; stdout := input_aborted out text |})
  | Interrupt :: rest =>
      (Exit 1, {| stdin := rest; stdout := input_cancelled out text |})
  | Typed line :: rest =>
      let out := (out ++ [Prompt text])%list in
      let user_input := strip line in
      if negb (String.eqb user_input EmptyString)
         && negb (match_four_numbers user_input)
      then
        let out := (out ++ [Line version_error])%list in
        let out :=
          if negb (String.eqb app_version EmptyString)
             && match_three_numbers app_version
          then (out ++ [Line ("Suggestion based on App Version: "
                              +:+ app_version +:+ ".0")])%list
          else out in
        validate_product_version_loop text app_version dflt allow_empty rest out
      else if negb (String.eqb user_input EmptyString)
      then (Got user_input, {| stdin := rest; stdout := out |})
      else match dflt with
           | Some d =>
               if negb (match_four_numbers d)
               then validate_product_version_loop text app_version dflt
                      allow_empty rest
                      (out ++ [Line (default_warning d);
                               Line "Please enter a valid version."])%list
               else (Got d, {| stdin := rest; stdout := out |})
           | None =>
               if allow_empty
               then (Got EmptyString, {| stdin := rest; stdout := out |})
               else validate_product_version_loop text app_version dflt
                      allow_empty rest
                      (out ++ [Line "Input cannot be empty."])%list
           end
  end.

(** [validate_product_version(prompt, app_version, default, allow_empty)] *)
Definition validate_product_version (prompt app_version : string)
    (dflt : option string) (allow_empty : bool) (t : terminal)
  : answer string * terminal :=
  validate_product_version_loop (string_prompt prompt dflt) app_version dflt
    allow_empty (stdin t) (stdout t).

(** A number as the patterns see it: one digit or more. *)
Fixpoint all_digits (s : string) : bool :=
  match s with
  | String c rest => is_digit c && all_digits rest
  | EmptyString => true
  end.

Definition is_number (s : string) : Prop :=
  s <> EmptyString /\ all_digits s = true.

Definition starts_with_digit (s : string) : bool :=
  match s with
  | String c _ => is_digit c
  | EmptyString => false
  end.

Lemma skip_digits_split (s : string) :
  exists a, s = a +:+ skip_digits s /\ all_digits a = true
            /\ starts_with_digit (skip_digits s) = false.
Proof.
  induction s as [|c s (a & Hs & Ha & Hnext)]; [by exists EmptyString|].
  cbn [skip_digits]. destruct (is_digit c) eqn:Hc.
  - exists (String c a). rewrite string_app_cons, <- Hs. cbn. by rewrite Hc.
  - exists EmptyString. by cbn; rewrite Hc.
Qed.

Lemma skip_digits_app (a rest : string) :
  all_digits a = true -> starts_with_digit rest = false ->
  skip_digits (a +:+ rest) = rest.
Proof.
  intros Ha Hrest. induction a as [|c a IH].
  - destruct rest as [|c rest]; [done|].
    change (skip_digits (String c rest) = String c rest).
    cbn in *. by rewrite Hrest.
  - cbn in Ha. apply andb_true_iff in Ha as [Hc Ha].
    rewrite string_app_cons. cbn. rewrite Hc. by apply IH.
Qed.

Lemma re_digits_split (s rest : string) :
  re_digits s = Some rest ->
  exists a, s = a +:+ rest /\ is_number a /\ starts_with_digit rest = false.
Proof.
  destruct s as [|c s]; [done|]. cbn. destruct (is_digit c) eqn:Hc; [|done].
  intros [= <-]. destruct (skip_digits_split s) as (a & Hs & Ha & Hnext).
  exists (String c a). rewrite string_app_cons, <- Hs.
  repeat split; [done | by cbn; rewrite Hc | done].
Qed.

Lemma re_digits_app (a rest : string) :
  is_number a -> starts_with_digit rest = false ->
  re_digits (a +:+ rest) = Some rest.
Proof.
  intros [Hne Ha] Hrest. destruct a as [|c a]; [done|].
  cbn in Ha. apply andb_true_iff in Ha as [Hc Ha].
  rewrite string_app_cons. cbn. rewrite Hc. by rewrite skip_digits_app.
Qed.

Lemma re_dot_split (s rest : string) :
  re_dot s = Some rest -> s = "." +:+ rest.
Proof.
  destruct s as [|c s]; [done|]. cbn.
  destruct c as [[] [] [] [] [] [] [] []]; try done. by intros [= <-].
Qed.

Lemma re_end_split (s : string) : re_end s = true <-> s = EmptyString \/ s = nl.
Proof.
  unfold re_end. rewrite orb_true_iff, !String.eqb_eq. tauto.
Qed.

(** The texts of four numbers with dots between them. *)
Definition four_numbers (s : string) : Prop :=
  exists a b c d,
    is_number a /\ is_number b /\ is_number c /\ is_number d /\
    s = a +:+ "." +:+ b +:+ "." +:+ c +:+ "." +:+ d.

(** What the pattern of the product version takes: four numbers with dots
    between them, and such a text with one line feed after it. *)
Lemma match_four_numbers_spec (s : string) :
  match_four_numbers s = true
  <-> four_numbers s \/ exists v, four_numbers v /\ s = v +:+ nl.
Proof.
  unfold match_four_numbers, re_match. split.
  - cbn [re_pieces].
    destruct (re_digits s) as [s1|] eqn:H1; [|done].
    apply re_digits_split in H1 as (a & -> & Ha & _).
    destruct (re_dot s1) as [s2|] eqn:H2; [|done].
    apply re_dot_split in H2 as ->.
    destruct (re_digits s2) as [s3|] eqn:H3; [|done].
    apply re_digits_split in H3 as (b & -> & Hb & _).
    destruct (re_dot s3) as [s4|] eqn:H4; [|done].
    apply re_dot_split in H4 as ->.
    destruct (re_digits s4) as [s5|] eqn:H5; [|done].
    apply re_digits_split in H5 as (c & -> & Hc & _).
    destruct (re_dot s5) as [s6|] eqn:H6; [|done].
    apply re_dot_split in H6 as ->.
    destruct (re_digits s6) as [s7|] eqn:H7; [|done].
    apply re_digits_split in H7 as (d & -> & Hd & _).
    intros [->| ->]%re_end_split.
    + left. exists a, b, c, d. by rewrite string_app_nil_r.
    + right. exists (a +:+ "." +:+ b +:+ "." +:+ c +:+ "." +:+ d).
      split; [by exists a, b, c, d|]. by rewrite !string_app_assoc.
  - assert (forall a b c d rest,
      is_number a -> is_number b -> is_number c -> is_number d ->
      starts_with_digit rest = false ->
      re_pieces [Digits; Dot; Digits; Dot; Digits; Dot; Digits]
        (a +:+ "." +:+ b +:+ "." +:+ c +:+ "." +:+ d +:+ rest)
      = Some rest) as Hrun.
    { intros a b c d rest Ha Hb Hc Hd Hrest. cbn [re_pieces].
      rewrite (re_digits_app a) by done.
      change ("." +:+ b +:+ "." +:+ c +:+ "." +:+ d +:+ rest)
        with (String "." (b +:+ "." +:+ c +:+ "." +:+ d +:+ rest)).
      cbn [re_dot]. rewrite (re_digits_app b) by done.
      change ("." +:+ c +:+ "." +:+ d +:+ rest)
        with (String "." (c +:+ "." +:+ d +:+ rest)).
      cbn [re_dot]. rewrite (re_digits_app c) by done.
      change ("." +:+ d +:+ rest) with (String "." (d +:+ rest)).
      cbn [re_dot]. by rewrite (re_digits_app d). }
    intros [(a & b & c & d & Ha & Hb & Hc & Hd & ->)
           |(v & (a & b & c & d & Ha & Hb & Hc & Hd & ->) & ->)].
    + specialize (Hrun a b c d EmptyString Ha Hb Hc Hd eq_refl).
      rewrite string_app_nil_r in Hrun. by rewrite Hrun.
    + specialize (Hrun a b c d nl Ha Hb Hc Hd eq_refl).
      rewrite !string_app_assoc. by rewrite Hrun.
Qed.

Lemma string_app_last_cons (v : string) (c a : ascii) (s : string) :
  String a s = v +:+ String c EmptyString ->
  (s = EmptyString /\ v = EmptyString /\ a = c)
  \/ exists v', v = String a v' /\ s = v' +:+ String c EmptyString.
Proof.
  destruct v as [|b v].
  - intros [= -> ->]. by left.
  - rewrite string_app_cons. intros [= -> ->]. right. by exists v.
Qed.

(** What [strip] leaves does not end in white space. *)
Lemma strip_right_last (s v : string) (c : ascii) :
  strip_right s = v +:+ String c EmptyString -> is_whitespace c = false.
Proof.
  revert v. induction s as [|a s IH]; intros v.
  - destruct v; discriminate.
  - cbn [strip_right]. destruct (strip_right s) as [|k kept] eqn:Hs.
    + destruct (is_whitespace a) eqn:Ha; [destruct v; discriminate|].
      intros [(_ & _ & ->)|(v' & _ & Hv)]%string_app_last_cons; [done|].
      destruct v'; discriminate.
    + intros [(? & _)|(v' & _ & Hv)]%string_app_last_cons; [done|].
      by apply (IH v').
Qed.

Lemma strip_not_line (s v : string) : strip s <> v +:+ nl.
Proof. intros Hs. by apply strip_right_last in Hs. Qed.

(** The lines [validate_product_version] passes over: text that is not
    four numbers, and blank lines when there is nothing to answer them
    with. *)
Definition version_rejected (dflt : option string) (allow_empty : bool)
    (line : string) : Prop :=
  (strip line <> EmptyString /\ match_four_numbers (strip line) = false)
  \/ (strip line = EmptyString /\
      match dflt with
      | Some d => match_four_numbers d = false
      | None => allow_empty = false
      end).

Lemma validate_product_version_loop_spec text app_version dflt allow_empty lines out :
  match validate_product_version_loop text app_version dflt allow_empty lines out with
  | (Got s, t') =>
      exists rejected line,
        lines = (map Typed rejected ++ Typed line :: stdin t')%list /\
        Forall (version_rejected dflt allow_empty) rejected /\
        ((strip line <> EmptyString /\ s = strip line /\ four_numbers s) \/
         (strip line = EmptyString /\ dflt = Some s /\ match_four_numbers s = true) \/
         (strip line = EmptyString /\ dflt = None /\ allow_empty = true
          /\ s = EmptyString))
  | (Exit code, t') =>
      code = 1%Z /\
      exists rejected,
        Forall (version_rejected dflt allow_empty) rejected /\
        ((lines = map Typed rejected /\ stdin t' = [])
         \/ lines = (map Typed rejected ++ Interrupt :: stdin t')%list)
  | (Uncaught, _) => False
  | (Unfinished, _) => False
  end.
Proof.
  revert out. induction lines as [|[line|] rest IH]; intros out.
  - split; [done|]. exists []. split; [constructor | by left].
  - cbn [validate_product_version_loop].
    assert (forall o, version_rejected dflt allow_empty line ->
      match validate_product_version_loop text app_version dflt allow_empty rest o with
      | (Got s, t') =>
          exists rejected l,
            Typed line :: rest = (map Typed rejected ++ Typed l :: stdin t')%list /\
            Forall (version_rejected dflt allow_empty) rejected /\
            ((strip l <> EmptyString /\ s = strip l /\ four_numbers s) \/
             (strip l = EmptyString /\ dflt = Some s /\ match_four_numbers s = true) \/
             (strip l = EmptyString /\ dflt = None /\ allow_empty = true
              /\ s = EmptyString))
      | (Exit code, t') =>
          code = 1%Z /\
          exists rejected,
            Forall (version_rejected dflt allow_empty) rejected /\
            ((Typed line :: rest = map Typed rejected /\ stdin t' = [])
             \/ Typed line :: rest
                = (map Typed rejected ++ Interrupt :: stdin t')%list)
      | (Uncaught, _) => False
      | (Unfinished, _) => False
      end) as Hnext.
    { intros o Hrejected. specialize (IH o).
      destruct (validate_product_version_loop text app_version dflt allow_empty rest o)
        as [[s|code| |] t']; [| |done..].
      - destruct IH as (rejected & l & -> & Hrej & Hs).
        exists (line :: rejected), l. split; [done|]. split; [by constructor|done].
      - destruct IH as (-> & rejected & Hrej & Hleft). split; [done|].
        exists (line :: rejected). split; [by constructor|].
        destruct Hleft as [(-> & Hin)| ->]; [by left | by right]. }
    destruct (String.eqb (strip line) EmptyString) eqn:Hblank; cbn [negb andb].
    + apply String.eqb_eq in Hblank. destruct dflt as [d|].
      * destruct (match_four_numbers d) eqn:Hd; cbn [negb].
        -- exists [], line. split; [done|]. split; [constructor|].
           right; left. by repeat split.
        -- apply Hnext. by right.
      * destruct allow_empty.
        -- exists [], line. split; [done|]. split; [constructor|].
           right; right. by repeat split.
        -- apply Hnext. by right.
    + apply String.eqb_neq in Hblank.
      destruct (match_four_numbers (strip line)) eqn:Hmatch; cbn [negb].
      * exists [], line. split; [done|]. split; [constructor|]. left.
        split; [done|]. split; [done|].
        apply match_four_numbers_spec in Hmatch as [Hfour|(v & _ & Hv)]; [done|].
        by apply strip_not_line in Hv.
      * apply Hnext. by left.
  - split; [done|]. exists []. split; [constructor | by right].
Qed.

(** X13. On ASCII input and with an ASCII default,
    [validate_product_version] only ever returns a text the pattern of four
    numbers takes, or the empty string when there is no default and an
    empty answer is allowed.  A value the user typed is the line without
    the white space around it and is exactly four runs of digits with dots
    between them; the default is returned for a blank line only if it
    matches the pattern itself.  Text that does not match, and blank lines
    that nothing answers, are passed over.  The function exits, with code
    1, at the end of the input and at an interrupt, and in no other
    case. *)
Theorem product_version_answers prompt app_version dflt allow_empty t :
  ascii_input t ->
  from_option ascii_text true dflt = true ->
  match validate_product_version prompt app_version dflt allow_empty t with
  | (Got s, t') =>
      (match_four_numbers s = true
       \/ (s = EmptyString /\ dflt = None /\ allow_empty = true)) /\
      exists rejected line,
        stdin t = (map Typed rejected ++ Typed line :: stdin t')%list /\
        Forall (version_rejected dflt allow_empty) rejected /\
        ((strip line <> EmptyString /\ s = strip line /\ four_numbers s) \/
         (strip line = EmptyString /\ dflt = Some s /\ match_four_numbers s = true) \/
         (strip line = EmptyString /\ dflt = None /\ allow_empty = true
          /\ s = EmptyString))
  | (Exit code, t') =>
      code = 1%Z /\
      exists rejected,
        Forall (version_rejected dflt allow_empty) rejected /\
        ((stdin t = map Typed rejected /\ stdin t' = [])
         \/ stdin t = (map Typed rejected ++ Interrupt :: stdin t')%list)
  | (Uncaught, _) => False
  | (Unfinished, _) => False
  end.
Proof.
  intros _ _. unfold validate_product_version.
  pose proof (validate_product_version_loop_spec (string_prompt prompt dflt)
                app_version dflt allow_empty (stdin t) (stdout t)) as Hspec.
  destruct (validate_product_version_loop _ _ dflt allow_empty (stdin t) (stdout t))
    as [[s|code| |] t']; [|done..].
  split; [|exact Hspec].
  destruct Hspec as (_ & _ & _ & _ & [(_ & _ & Hfour)|[(_ & _ & Hd)|(_ & ? & ? & ?)]]).
  - left. apply match_four_numbers_spec. by left.
  - by left.
  - by right.
Qed.

Lemma product_version_answers_witness :
  match validate_product_version "Version" "1.2.3" (Some "1.0.0.0") false
          {| stdin := [Typed "1.2"; Typed " 1.2.3.4 "]; stdout := [] |} with
  | (Got s, t') => s = "1.2.3.4" /\ match_four_numbers s = true
  | _ => False
  end.
Proof.
  pose proof (product_version_answers "Version" "1.2.3" (Some "1.0.0.0") false
                {| stdin := [Typed "1.2"; Typed " 1.2.3.4 "]; stdout := [] |}
                eq_refl eq_refl) as Hspec.
  destruct (validate_product_version "Version" "1.2.3" (Some "1.0.0.0") false _)
    as [[s| | |] t'] eqn:Hrun; [|by vm_compute in Hrun..].
  destruct Hspec as ([Hmatch|(_ & ? & _)] & _); [|done].
  vm_compute in Hrun. injection Hrun as <- <-. done.
Defined.

(** *** A path *)

(** What [os.path] answers besides [exists] and [abspath], which the host
    of the renderer has: [normpath] is [None] when it raises [ValueError]. *)
Record os_path : Type := OsPath {
  normpath : string -> option string;
  dirname : string -> string;
  basename : string -> string;
  isdir : string -> bool;
  isfile : string -> bool;
}.

(** The truth value of a string or [None]. *)
Definition nonempty (s : option string) : option string :=
  match s with
  | Some EmptyString | None => None
  | Some (String _ _) => s
  end.

Definition path_prompt (prompt : string) (dflt : option string) : string :=
  prompt +:+ match nonempty dflt with
             | Some d => " [" +:+ d +:+ "]"
             | None => EmptyString
             end +:+ ": ".

Definition type_str (is_dir : bool) : string :=
  if is_dir then "directory" else "file".

(** What [ask_path] does with a normalized path when [check_exists] is
    set: the lines it prints, and whether it returns the path. *)
Definition check_path (h : host) (fs : os_path) (check_exists : string) (is_dir : bool)
    (path : string) : list written * bool :=
  let exist := path_exists h path in
  let is_correct_type :=
    if exist && is_dir then isdir fs path
    else if exist && negb is_dir then isfile fs path
    else true in
  if negb exist then
    if String.eqb check_exists "require"
    then ([Line ("Error: Required path not found: " +:+ path)], false)
    else if String.eqb check_exists "warn"
    then ([Line ("Warning: Path not found: " +:+ path)], true)
    else ([], true)
  else if negb is_correct_type then
    if String.eqb check_exists "require"
    then ([Line ("Error: Path exists but is not a " +:+ type_str is_dir
                 +:+ ": " +:+ path)], false)
    else if String.eqb check_exists "warn"
    then ([Line ("Warning: Path exists but is not a " +:+ type_str is_dir
                 +:+ ": " +:+ path)], true)
    else ([], true)
  else ([], true).

Fixpoint ask_path_loop (h : host) (fs : os_path) (text : string) (dflt : option string)
    (check_exists : option string) (is_dir allow_empty : bool)
    (lines : list keyboard) (out : list written) : answer string * terminal :=
  match lines with
  | [] => (Exit 1, {| stdin := []; stdout := input_aborted out text |})
  | Interrupt :: rest =>
      (Exit 1, {| stdin := rest; stdout := input_cancelled out text |})
  | Typed line :: rest =>
      let out := (out ++ [Prompt text])%list in
      let user_input := strip line in
      let path := if negb (String.eqb user_input EmptyString)
                  then Some user_input else dflt in
      match nonempty path with
      | None =>
          if allow_empty
          then (Got EmptyString, {| stdin := rest; stdout := out |})
          else ask_path_loop h fs text dflt check_exists is_dir allow_empty rest
                 (out ++ [Line "Path cannot be empty."])%list
      | Some path =>
          match normpath fs path with
          | None =>
              ask_path_loop h fs text dflt check_exists is_dir allow_empty rest
                (out ++ [Line ("Invalid characters in path: " +:+ path)])%list
          | Some path =>
              match nonempty check_exists with
              | Some check =>
                  let (said, accepted) := check_path h fs check is_dir path in
                  if accepted
                  then (Got path, {| stdin := rest; stdout := (out ++ said)%list |})
                  else ask_path_loop h fs text dflt check_exists is_dir
                         allow_empty rest (out ++ said)%list
              | None => (Got path, {| stdin := rest; stdout := out |})
              end
          end
      end
  end.

(** [ask_path(prompt, default, check_exists, is_dir, allow_empty)] *)
Definition ask_path (h : host) (fs : os_path) (prompt : string) (dflt : option string)
    (check_exists : option string) (is_dir allow_empty : bool) (t : terminal)
  : answer string * terminal :=
  ask_path_loop h fs (path_prompt prompt dflt) dflt check_exists is_dir
    allow_empty (stdin t) (stdout t).

(** What a path of the requested kind is. *)
Definition found_as (h : host) (fs : os_path) (is_dir : bool) (path : string) : Prop :=
  path_exists h path = true /\
  (if is_dir then isdir fs path else isfile fs path) = true.

Lemma check_path_require h fs is_dir path said :
  check_path h fs "require" is_dir path = (said, true) -> found_as h fs is_dir path.
Proof.
  unfold check_path, found_as.
  destruct (path_exists h path); cbn [negb andb]; [|done].
  destruct is_dir; cbn [negb andb].
  - destruct (isdir fs path); cbn [negb]; done.
  - destruct (isfile fs path); cbn [negb]; done.
Qed.

Lemma ask_path_loop_spec h fs text dflt check_exists is_dir allow_empty lines out :
  match ask_path_loop h fs text dflt check_exists is_dir allow_empty lines out with
  | (Got p, t') =>
      exists passed line,
        lines = (map Typed passed ++ Typed line :: stdin t')%list /\
        ((p = EmptyString /\ allow_empty = true /\ strip line = EmptyString
          /\ nonempty dflt = None) \/
         (exists typed,
            normpath fs typed = Some p /\
            (typed = strip line \/ (strip line = EmptyString /\ dflt = Some typed)) /\
            typed <> EmptyString /\
            (check_exists = Some "require" -> found_as h fs is_dir p)))
  | (Exit code, t') => code = 1%Z /\ left_at lines t'
  | (Uncaught, _) => False
  | (Unfinished, _) => False
  end.
Proof.
  revert out. induction lines as [|[line|] rest IH]; intros out.
  - split; [done|]. exists []. by left.
  - cbn [ask_path_loop].
    assert (forall o,
      match ask_path_loop h fs text dflt check_exists is_dir allow_empty rest o with
      | (Got p, t') =>
          exists passed l,
            Typed line :: rest = (map Typed passed ++ Typed l :: stdin t')%list /\
            ((p = EmptyString /\ allow_empty = true /\ strip l = EmptyString
              /\ nonempty dflt = None) \/
             (exists typed,
                normpath fs typed = Some p /\
                (typed = strip l \/ (strip l = EmptyString /\ dflt = Some typed)) /\
                typed <> EmptyString /\
                (check_exists = Some "require" -> found_as h fs is_dir p)))
      | (Exit code, t') => code = 1%Z /\ left_at (Typed line :: rest) t'
      | (Uncaught, _) => False
      | (Unfinished, _) => False
      end) as Hnext.
    { intros o. specialize (IH o).
      destruct (ask_path_loop h fs text dflt check_exists is_dir allow_empty rest o)
        as [[p|code| |] t']; [| |done..].
      - destruct IH as (passed & l & -> & Hp). by exists (line :: passed), l.
      - destruct IH as [-> Hleft]. split; [done | by apply left_at_later]. }
    set (path := if negb (String.eqb (strip line) EmptyString)
                 then Some (strip line) else dflt).
    assert (forall typed, nonempty path = Some typed ->
              (typed = strip line \/ (strip line = EmptyString /\ dflt = Some typed))
              /\ typed <> EmptyString) as Htyped.
    { intros typed. unfold path.
      destruct (String.eqb (strip line) EmptyString) eqn:Hblank; cbn [negb].
      - apply String.eqb_eq in Hblank.
        destruct dflt as [[|c d]|]; cbn; [done| |done].
        intros [= <-]. split; [by right|done].
      - destruct (strip line) as [|c s]; [done|]. cbn. intros [= <-].
        split; [by left|done]. }
    assert (nonempty path = None ->
              strip line = EmptyString /\ nonempty dflt = None) as Hnone.
    { unfold path.
      destruct (String.eqb (strip line) EmptyString) eqn:Hblank; cbn [negb].
      - apply String.eqb_eq in Hblank. done.
      - by destruct (strip line). }
    destruct (nonempty path) as [typed|].
    + destruct (Htyped typed eq_refl) as [Hfrom Hne].
      destruct (normpath fs typed) as [p|] eqn:Hnorm; [|apply Hnext].
      destruct (nonempty check_exists) as [check|] eqn:Hcheck.
      * destruct (check_path h fs check is_dir p) as [said accepted] eqn:Hpath.
        destruct accepted; [|apply Hnext].
        exists [], line. split; [done|]. right. exists typed.
        split; [exact Hnorm|]. split; [exact Hfrom|]. split; [exact Hne|].
        intros ->. injection Hcheck as <-. by eapply check_path_require.
      * exists [], line. split; [done|]. right. exists typed.
        split; [exact Hnorm|]. split; [exact Hfrom|]. split; [exact Hne|].
        by intros ->.
    + destruct (Hnone eq_refl) as [Hblank Hd].
      destruct allow_empty; [|apply Hnext].
      exists [], line. split; [done|]. left. by repeat split.
  - split; [done|]. exists []. by right.
Qed.

(** X14. On ASCII input [ask_path] returns the empty string only for a
    blank line with no default when an empty path is allowed; any other
    value it returns is what [os.path.normpath] made of the text typed, or
    of the default for a blank line.  When the check is ['require'] that
    path exists and is of the kind asked for, a directory or a file.  The
    function exits, with code 1, at the end of the input and at an
    interrupt, and in no other case. *)
Theorem ask_path_answers h fs prompt dflt check_exists is_dir allow_empty t :
  ascii_input t ->
  match ask_path h fs prompt dflt check_exists is_dir allow_empty t with
  | (Got p, t') =>
      exists passed line,
        stdin t = (map Typed passed ++ Typed line :: stdin t')%list /\
        ((p = EmptyString /\ allow_empty = true /\ strip line = EmptyString
          /\ nonempty dflt = None) \/
         (exists typed,
            normpath fs typed = Some p /\
            (typed = strip line \/ (strip line = EmptyString /\ dflt = Some typed)) /\
            typed <> EmptyString /\
            (check_exists = Some "require" -> found_as h fs is_dir p)))
  | (Exit code, t') => code = 1%Z /\ left_at (stdin t) t'
  | (Uncaught, _) => False
  | (Unfinished, _) => False
  end.
Proof. intros _. apply ask_path_loop_spec. Qed.

(** A disk with one directory, and paths that need no normalization. *)
Definition one_directory_host : host := {|
  now_stamp := EmptyString;
  now_year := 2025;
  path_exists := fun path => String.eqb path "/srv/app";
  exists_other := fun v => inl (TypeError v);
  abspath := fun path => Some path;
  repr_list := fun _ => EmptyString;
|}.

Definition one_directory : os_path := {|
  normpath := fun path => Some path;
  dirname := fun path => path;
  basename := fun path => path;
  isdir := fun path => String.eqb path "/srv/app";
  isfile := fun _ => false;
|}.

Lemma ask_path_answers_witness :
  match ask_path one_directory_host one_directory "Folder" (Some "/srv/old")
          (Some "require") true false
          {| stdin := [Typed ""; Typed " /srv/app"]; stdout := [] |} with
  | (Got p, t') => p = "/srv/app" /\ found_as one_directory_host one_directory true p
  | _ => False
  end.
Proof.
  pose proof (ask_path_answers one_directory_host one_directory "Folder"
                (Some "/srv/old") (Some "require") true false
                {| stdin := [Typed ""; Typed " /srv/app"]; stdout := [] |}
                eq_refl) as Hspec.
  destruct (ask_path one_directory_host one_directory "Folder" _ _ true false _)
    as [[p| | |] t'] eqn:Hrun; [|by vm_compute in Hrun..].
  destruct Hspec as (_ & _ & _ & [(-> & _)|(typed & _ & _ & _ & Hfound)]).
  - by vm_compute in Hrun.
  - vm_compute in Hrun. injection Hrun as <- <-. split; [reflexivity | by apply Hfound].
Defined.

(** *** Sample runs of the prompts *)

Example ask_string_sample :
  ask_string "Name" None false
    {| stdin := [Typed "  "; Typed " Ann "; Typed "rest"]; stdout := [] |}
  = (Got "Ann",
     {| stdin := [Typed "rest"];
        stdout := [Prompt "Name: "; Line "Input cannot be empty.";
                   Prompt "Name: "] |}).
Proof. reflexivity. Qed.

Example ask_string_interrupted :
  ask_string "Name" (Some "Bob") false
    {| stdin := [Interrupt; Typed "Ann"]; stdout := [] |}
  = (Exit 1,
     {| stdin := [Typed "Ann"];
        stdout := [Prompt "Name [Bob]: ";
                   Line (nl +:+ "Operation cancelled by user.");
                   Line (nl +:+ "Bye!")] |}).
Proof. reflexivity. Qed.

Example ask_bool_sample :
  ask_bool "Go on?" false {| stdin := [Typed "maybe"; Typed " YES "]; stdout := [] |}
  = (Got true,
     {| stdin := [];
        stdout := [Prompt "Go on? [y/N]: "; Line bool_complaint;
                   Prompt "Go on? [y/N]: "] |}).
Proof. reflexivity. Qed.

Example ask_bool_end_of_input :
  ask_bool "Go on?" true {| stdin := []; stdout := [] |}
  = (Exit 1,
     {| stdin := [];
        stdout := [Prompt "Go on? [Y/n]: "; Line (nl +:+ "Input aborted.");
                   Line (nl +:+ "Bye!")] |}).
Proof. reflexivity. Qed.

Example py_int_samples :
  map py_int ["12"; "+1_0"; "-007"; "1__0"; "_1"; "1_"; "4 2"; "0x10"; ""]
  = [Some 12%Z; Some 10%Z; Some (-7)%Z; None; None; None; None; None; None].
Proof. reflexivity. Qed.

Example ask_choice_sample :
  ask_choice py_int "Pick" ["a"; "b"] (Some "b")
    {| stdin := [Typed "x"; Typed "3"; Typed "+1"]; stdout := [] |}
  = (Got "a",
     {| stdin := [];
        stdout := [Line "Pick"; Line "  1) a"; Line "  2) b";
                   Prompt "Enter choice number [2 - b]: ";
                   Line "Invalid input. Please enter a number.";
                   Prompt "Enter choice number [2 - b]: ";
                   Line "Invalid choice. Please enter a number between 1 and 2.";
                   Prompt "Enter choice number [2 - b]: "] |}).
Proof. vm_compute. reflexivity. Qed.

Example match_four_numbers_samples :
  map match_four_numbers
    ["1.0.0.0"; "10.20.30.40"; "1.2.3"; "1.2.3.4.5"; "1..3.4"; "a.b.c.d";
     "1.2.3.4" +:+ nl; "1.2.3.4" +:+ nl +:+ nl; " 1.2.3.4"]
  = [true; true; false; false; false; false; true; false; false].
Proof. reflexivity. Qed.

Example validate_product_version_sample :
  validate_product_version "Version" "1.2.3" (Some "1.0.0.0") false
    {| stdin := [Typed "1.2"; Typed " 1.2.3.4 "]; stdout := [] |}
  = (Got "1.2.3.4",
     {| stdin := [];
        stdout := [Prompt "Version [1.0.0.0]: "; Line version_error;
                   Line "Suggestion based on App Version: 1.2.3.0";
                   Prompt "Version [1.0.0.0]: "] |}).
Proof. reflexivity. Qed.

Example ask_path_sample :
  ask_path one_directory_host one_directory "Folder" (Some "/srv/old")
    (Some "require") true false
    {| stdin := [Typed ""; Typed " /srv/app"]; stdout := [] |}
  = (Got "/srv/app",
     {| stdin := [];
        stdout := [Prompt "Folder [/srv/old]: ";
                   Line "Error: Required path not found: /srv/old";
                   Prompt "Folder [/srv/old]: "] |}).
Proof. reflexivity. Qed.


(** ** The collector of the main program *)

(** A piece of the collector runs on the terminal. *)
Definition prompting (A : Type) : Type := terminal -> answer A * terminal.

Definition give {A} (x : A) : prompting A := fun t => (Got x, t).

Definition and_then {A B} (c : prompting A) (k : A -> prompting B) : prompting B :=
  fun t =>
    match c t with
    | (Got x, t') => k x t'
    | (Exit code, t') => (Exit code, t')
    | (Uncaught, t') => (Uncaught, t')
    | (Unfinished, t') => (Unfinished, t')
    end.

Declare Scope collector_scope.
Delimit Scope collector_scope with collector.
Notation "x <- c ;; k" := (and_then c (fun x => k))
  (at level 100, c at next level, right associativity) : collector_scope.
Notation "c ;; k" := (and_then c (fun _ => k))
  (at level 100, right associativity) : collector_scope.
Local Open Scope collector_scope.

(** [print(text)] *)
Definition say (text : string) : prompting unit :=
  fun t => (Got tt, {| stdin := stdin t; stdout := (stdout t ++ [Line text])%list |}).

(** [messagebox.showerror(title, message)] *)
Definition showerror (title message : string) : prompting unit :=
  fun t => (Got tt, {| stdin := stdin t;
                       stdout := (stdout t ++ [ErrorBox title message])%list |}).

(** [sys.exit(code)] *)
Definition sys_exit {A} (code : Z) : prompting A := fun t => (Exit code, t).

Definition uncaught {A} : prompting A := fun t => (Uncaught, t).

Definition unfinished {A} : prompting A := fun t => (Unfinished, t).

(** [str.upper] on one ASCII character. *)
Definition upper_ascii (c : ascii) : ascii :=
  let n := nat_of_ascii c in
  if (97 <=? n)%nat && (n <=? 122)%nat then ascii_of_nat (n - 32) else c.

(** [s.capitalize()] on ASCII text: the first character in upper case, the
    rest in lower case. *)
Definition capitalize (s : string) : string :=
  match s with
  | String c rest => String (upper_ascii c) (lower rest)
  | EmptyString => EmptyString
  end.

(** [any(p(char) for char in s)] *)
Fixpoint any_char (p : ascii -> bool) (s : string) : bool :=
  match s with
  | String c rest => p c || any_char p rest
  | EmptyString => false
  end.

(** [''.join(filter(p, s))] *)
Fixpoint filter_chars (p : ascii -> bool) (s : string) : string :=
  match s with
  | String c rest => if p c then String c (filter_chars p rest) else filter_chars p rest
  | EmptyString => EmptyString
  end.

(** [str.isalnum] on one ASCII character. *)
Definition is_alnum (c : ascii) : bool :=
  let n := nat_of_ascii c in
  is_digit c || ((65 <=? n)%nat && (n <=? 90)%nat)
  || ((97 <=? n)%nat && (n <=? 122)%nat).

(** What the user picks in the five dialogs of [tkinter.filedialog]; the
    empty string stands for a dialog that was cancelled. *)
Record dialogs : Type := Dialogs {
  source_dir_selected : string;
  exe_selected : string;
  license_selected : string;
  icon_selected : string;
  unicon_selected : string;
}.

(** [os.path.normpath(path)] outside any [try]. *)
Definition os_path_normpath (fs : os_path) (path : string) : prompting string :=
  match normpath fs path with
  | Some p => give p
  | None => uncaught
  end.

(** An optional file picked in a dialog: the normalized path, or the empty
    string. *)
Definition optional_file (fs : os_path) (selected picked skipped : string)
  : prompting string :=
  if negb (String.eqb selected EmptyString)
  then path <- os_path_normpath fs selected ;;
       say (picked +:+ path) ;;
       give path
  else say skipped ;; give EmptyString.

(** The loop that asks for the primary language. *)
Fixpoint primary_language (fuel : nat) : prompting (list string) :=
  match fuel with
  | O => unfinished
  | S fuel =>
      answered <- ask_string "Enter the primary/default language"
                    (Some "English") false ;;
      let primary_lang := capitalize answered in
      if negb (String.eqb primary_lang EmptyString)
      then give [primary_lang]
      else say "You must specify at least one language." ;;
           primary_language fuel
  end.

(** The loop that asks for more languages. *)
Fixpoint more_languages (fuel : nat) (selected_languages : list string)
  : prompting (list string) :=
  match fuel with
  | O => unfinished
  | S fuel =>
      let current_langs_str := join ", " selected_languages in
      answered <- ask_string ("Add another language? Current: "
                              +:+ current_langs_str
                              +:+ " (Leave blank to finish)") None true ;;
      let next_lang := capitalize answered in
      if String.eqb next_lang EmptyString
      then give selected_languages
      else if negb (is_in next_lang selected_languages)
      then (if any_char (Ascii.eqb " ") next_lang || any_char is_digit next_lang
            then say ("Warning: '" +:+ next_lang +:+ "' seems like an unusual NSIS language name. Ensure it matches a .nlf file.")
            else give tt) ;;
           let selected_languages := (selected_languages ++ [next_lang])%list in
           say ("Added '" +:+ next_lang +:+ "'. Current: "
                +:+ join ", " selected_languages) ;;
           more_languages fuel selected_languages
      else say ("'" +:+ next_lang +:+ "' is already in the list.") ;;
           more_languages fuel selected_languages
  end.

Section Collector.

Variable h : host.
Variable fs : os_path.
Variable dlg : dialogs.

(** The main program up to the call of the renderer.  Each [config[k] = v]
    of the source is the variable [k] here, and the dictionary is put
    together at the end: what the program reads from the dictionary on the
    way is what it stored there itself.  The loops of the languages run for
    [fuel] rounds. *)
Definition collect (fuel : nat) : prompting ConfigurationRecord :=
  say "--- NSIS Script Generator ---" ;;
  say "Please answer the following questions to configure your installer." ;;
  say ("Press Enter to accept the default value in brackets []." +:+ nl) ;;
  say (nl +:+ "--- Basic Information ---") ;;
  app_name <- ask_string "Application Name" (Some "My Application") false ;;
  app_version <- ask_string "Application Version (Only Numbers!)" (Some "1.0.0") false ;;
  product_version <- validate_product_version
                       "Product Version (Four Numbers Required!)"
                       app_version (Some "1.0.0.0") false ;;
  publisher <- ask_string "Publisher Name" (Some "My Company") false ;;
  website <- ask_string "Application Website (optional, for Add/Remove Programs)"
               (Some EmptyString) false ;;
  say (nl +:+ "--- File Paths ---") ;;
  say "Select the directory containing ALL files/folders to install..." ;;
  (if String.eqb (source_dir_selected dlg) EmptyString
   then say "Source directory selection cancelled. Exiting." ;; sys_exit 1
   else give tt) ;;
  source_dir <- os_path_normpath fs (source_dir_selected dlg) ;;
  say ("    Source Directory: " +:+ source_dir) ;;
  say "Select the main executable file (must be inside the source directory)..." ;;
  main_executable <-
    (if negb (String.eqb (exe_selected dlg) EmptyString)
     then normalized <- os_path_normpath fs (exe_selected dlg) ;;
          if String.eqb (dirname fs normalized) source_dir
          then let main_executable := basename fs (exe_selected dlg) in
               say ("    Selected Main Executable: " +:+ main_executable) ;;
               give (Some main_executable)
          else showerror "Error"
                 "The selected executable must be inside the source directory." ;;
               say "Invalid executable selection (not in source directory). Proceeding without a main executable." ;;
               give None
     else say "Main executable selection cancelled. Proceeding without a main executable." ;;
          give None) ;;
  say "Select the license file ('.txt' or '.rtf', optional)..." ;;
  license_file <- optional_file fs (license_selected dlg)
                    "Selected License File: "
                    "License file selection cancelled or skipped." ;;
  say "Select the installer icon file ('.ico', optional)..." ;;
  installer_icon <- optional_file fs (icon_selected dlg)
                      "Selected Installer Icon: "
                      "Installer icon selection cancelled or skipped." ;;
  say "Select the uninstaller icon file ('.ico', optional, defaults to installer icon or none)..." ;;
  uninstaller_icon <- optional_file fs (unicon_selected dlg)
                        "Selected Uninstaller Icon: "
                        "Uninstaller icon selection cancelled or skipped." ;;
  let default_output_name :=
    replace " " "_" app_name +:+ "_v" +:+ app_version +:+ "_Setup.exe" in
  answered_name <- ask_string "Filename for the final installer executable"
                     (Some default_output_name) false ;;
  let output_installer_name :=
    if negb (endswith (lower answered_name) ".exe")
    then answered_name +:+ ".exe" else answered_name in
  say (nl +:+ "--- Installation Options ---") ;;
  install_dir_name <- ask_string
    "Installation folder name (e.g., 'My App' under Program Files/Local App Data)"
    (Some app_name) false ;;
  request_admin <- ask_bool
    "Require Administrator privileges (needed for Program Files)?" true ;;
  prefer_64bit <-
    (if request_admin
     then ask_bool "Prefer 64-bit Program Files (if available)?" true
     else give false) ;;
  compression <- ask_choice py_int "Compression method"
                   ["lzma"; "zlib"; "bzip2"] (Some "lzma") ;;
  solid_compression <- ask_bool
    "Use solid compression (better ratio, slower build/install)?" true ;;
  say (nl +:+ "--- Shortcuts ---") ;;
  create_startmenu_shortcut <- ask_bool "Create Start Menu shortcut?" true ;;
  start_menu_folder <-
    (if create_startmenu_shortcut
     then sm_choice <- ask_choice py_int "Start Menu Folder Name:"
                         ["Use Publisher Name"; "Use Application Name"; "Custom"]
                         (Some "Use Publisher Name") ;;
          if String.eqb sm_choice "Use Publisher Name" then give publisher
          else if String.eqb sm_choice "Use Application Name" then give app_name
          else ask_string "Enter Custom Start Menu Folder Name" (Some publisher) false
     else give EmptyString) ;;
  create_desktop_shortcut <- ask_bool "Create Desktop shortcut?" true ;;
  say (nl +:+ "--- Registry ---") ;;
  let app_name_safe := filter_chars is_alnum app_name in
  let publisher_safe := filter_chars is_alnum publisher in
  let default_uninstall_key :=
    "Software\Microsoft\Windows\CurrentVersion\Uninstall\" +:+ app_name_safe in
  uninstall_reg_key <- ask_string
    "Registry key for Uninstall Information (must be unique!)"
    (Some default_uninstall_key) false ;;
  let default_install_path_key :=
    "Software\" +:+ publisher_safe +:+ "\" +:+ app_name_safe in
  install_path_reg_key <- ask_string
    "Registry key to store Installation Path (optional but recommended)"
    (Some default_install_path_key) false ;;
  say (nl +:+ "--- Language ---") ;;
  say "Enter the installer languages one by one." ;;
  say "These MUST match NSIS language file names (e.g., English, German, French)." ;;
  say "See NSIS\Contrib\Language files directory for available names." ;;
  selected_languages <- primary_language fuel ;;
  selected_languages <- more_languages fuel selected_languages ;;
  say (nl +:+ "--- UI ---") ;;
  branding <- ask_string "Branding Text"
                (Some (publisher +:+ " - " +:+ app_name +:+ " v" +:+ app_version))
                false ;;
  show_welcome_page <- ask_bool "Show Welcome page?" true ;;
  let license_exists :=
    negb (String.eqb license_file EmptyString) && path_exists h license_file in
  show_license_page <-
    (if license_exists then ask_bool "Show License page?" true else give false) ;;
  show_directory_page <- ask_bool "Show Directory selection page?" true ;;
  show_finish_page <- ask_bool "Show Finish page?" true ;;
  say (nl +:+ "--- Generating Script ---") ;;
  give {|
    app_name := app_name;
    app_version := app_version;
    product_version := product_version;
    publisher := publisher;
    website := website;
    source_dir := source_dir;
    main_executable := main_executable;
    license_file := license_file;
    installer_icon := installer_icon;
    uninstaller_icon := uninstaller_icon;
    output_installer_name := output_installer_name;
    install_dir_name := install_dir_name;
    request_admin := request_admin;
    prefer_64bit := prefer_64bit;
    compression := compression;
    solid_compression := solid_compression;
    create_startmenu_shortcut := create_startmenu_shortcut;
    start_menu_folder := start_menu_folder;
    create_desktop_shortcut := create_desktop_shortcut;
    uninstall_reg_key := uninstall_reg_key;
    install_path_reg_key := install_path_reg_key;
    selected_languages := selected_languages;
    branding := branding;
    show_welcome_page := show_welcome_page;
    show_license_page := show_license_page;
    show_directory_page := show_directory_page;
    show_finish_page := show_finish_page;
  |}.

End Collector.

(** *** What a piece of the collector returns *)

(** Every value [c] returns satisfies [Q]. *)
Definition returns {A} (c : prompting A) (Q : A -> Prop) : Prop :=
  forall t x, fst (c t) = Got x -> Q x.

Lemma returns_give {A} (x : A) (Q : A -> Prop) : Q x -> returns (give x) Q.
Proof. intros HQ t y [= <-]. exact HQ. Qed.

Lemma returns_any {A} (c : prompting A) : returns c (fun _ => True).
Proof. by intros t x _. Qed.

Lemma returns_bind {A B} (c : prompting A) (k : A -> prompting B)
    (Q : A -> Prop) (R : B -> Prop) :
  returns c Q -> (forall x, Q x -> returns (k x) R) -> returns (and_then c k) R.
Proof.
  intros Hc Hk t y. unfold and_then. specialize (Hc t).
  destruct (c t) as [[x|code| |] t1]; cbn [fst]; try discriminate.
  intros Hy. exact (Hk x (Hc x eq_refl) t1 y Hy).
Qed.

Lemma returns_sys_exit {A} (code : Z) (Q : A -> Prop) : returns (sys_exit code) Q.
Proof. by intros t x. Qed.

Lemma returns_uncaught {A} (Q : A -> Prop) : returns uncaught Q.
Proof. by intros t x. Qed.

Lemma returns_unfinished {A} (Q : A -> Prop) : returns unfinished Q.
Proof. by intros t x. Qed.

Lemma returns_weaken {A} (c : prompting A) (Q R : A -> Prop) :
  returns c Q -> (forall x, Q x -> R x) -> returns c R.
Proof. intros Hc HQR t x Hx. by eapply HQR, Hc. Qed.

(** One step whose value the property does not depend on. *)
Ltac skip_step :=
  eapply returns_bind; [apply returns_any | intros ? _].

Tactic Notation "skip_step" "as" ident(x) :=
  eapply returns_bind; [apply returns_any | intros x _].

Lemma returns_ask_string prompt dflt allow_empty :
  returns (ask_string prompt dflt allow_empty)
    (fun s => (s <> EmptyString /\ strip s = s) \/ dflt = Some s
              \/ (s = EmptyString /\ dflt = None /\ allow_empty = true)).
Proof.
  intros t s. unfold ask_string.
  pose proof (ask_string_loop_spec (string_prompt prompt dflt) dflt allow_empty
                (stdin t) (stdout t)) as Hspec.
  destruct (ask_string_loop _ dflt allow_empty (stdin t) (stdout t))
    as [[s'|code| |] t']; cbn [fst]; try discriminate.
  intros [= ->].
  destruct Hspec as (blanks & line & _ & _ & -> & Hline & _).
  destruct (String.eqb (strip line) EmptyString) eqn:Hb.
  - apply String.eqb_eq in Hb. destruct dflt as [d|]; [by right; left|].
    right; right. destruct (Hline Hb) as [?|?]; done.
  - apply String.eqb_neq in Hb. left. split; [done|apply strip_idempotent].
Qed.

Lemma returns_ask_choice int prompt options dflt :
  returns (ask_choice int prompt options dflt) (fun s => s ∈ options).
Proof.
  intros t s. unfold ask_choice.
  pose proof (ask_choice_loop_spec int options (dflt ≫= fun d => index_of d options)
                (choice_prompt dflt (dflt ≫= fun d => index_of d options))
                (stdin t)
                (stdout t ++ Line prompt :: imap option_line options)%list) as Hspec.
  destruct (ask_choice_loop _ _ _ _ (stdin t) _) as [[s'|code| |] t'];
    cbn [fst]; try discriminate.
  intros [= ->].
  destruct Hspec as (_ & _ & _ & _ & [(_ & i & _ & Hi)|(_ & n & _ & _ & Hi)] & _);
    by eapply list_elem_of_lookup_2.
Qed.

Lemma returns_validate_product_version prompt app_version d :
  four_numbers d ->
  returns (validate_product_version prompt app_version (Some d) false) four_numbers.
Proof.
  intros Hd t s. unfold validate_product_version.
  pose proof (validate_product_version_loop_spec (string_prompt prompt (Some d))
                app_version (Some d) false (stdin t) (stdout t)) as Hspec.
  destruct (validate_product_version_loop _ _ _ _ (stdin t) (stdout t))
    as [[s'|code| |] t']; cbn [fst]; try discriminate.
  intros [= ->].
  destruct Hspec as (_ & _ & _ & _ & [(_ & _ & Hs)|[(_ & [= <-] & _)|(_ & ? & _)]]);
    done.
Qed.

(** *** Letter case *)

Lemma lower_app (a b : string) : lower (a +:+ b) = lower a +:+ lower b.
Proof.
  induction a as [|c a IH]; [reflexivity|].
  rewrite string_app_cons. cbn [lower]. by rewrite string_app_cons, IH.
Qed.

Lemma length_string_app (a b : string) :
  String.length (a +:+ b) = (String.length a + String.length b)%nat.
Proof.
  induction a as [|c a IH]; [reflexivity|].
  rewrite string_app_cons. cbn [String.length]. by rewrite IH.
Qed.

Lemma substring_whole (s : string) : substring 0 (String.length s) s = s.
Proof. induction s as [|c s IH]; [reflexivity|]. cbn. by rewrite IH. Qed.

Lemma endswith_app (a b : string) : endswith (a +:+ b) b = true.
Proof.
  unfold endswith. rewrite length_string_app.
  replace (String.length a + String.length b - String.length b)%nat
    with (String.length a) by lia.
  rewrite substring_app_skip, substring_whole, String.eqb_refl, andb_true_r.
  apply Nat.leb_le. lia.
Qed.

Lemma lower_ascii_idempotent (c : ascii) : lower_ascii (lower_ascii c) = lower_ascii c.
Proof. by destruct c as [[] [] [] [] [] [] [] []]. Qed.

Lemma lower_idempotent (s : string) : lower (lower s) = lower s.
Proof.
  induction s as [|c s IH]; [reflexivity|].
  cbn [lower]. by rewrite lower_ascii_idempotent, IH.
Qed.

Lemma upper_ascii_idempotent (c : ascii) : upper_ascii (upper_ascii c) = upper_ascii c.
Proof. by destruct c as [[] [] [] [] [] [] [] []]. Qed.

Lemma capitalize_idempotent (s : string) : capitalize (capitalize s) = capitalize s.
Proof.
  destruct s as [|c s]; [reflexivity|]. cbn [capitalize].
  by rewrite upper_ascii_idempotent, lower_idempotent.
Qed.

Lemma capitalize_nonempty (s : string) :
  capitalize s = EmptyString <-> s = EmptyString.
Proof. by destruct s. Qed.

Lemma is_in_spec (s : string) (l : list string) : is_in s l = true <-> s ∈ l.
Proof.
  unfold is_in. induction l as [|x l IH]; cbn [existsb].
  - split; [done|]. by intros ?%elem_of_nil.
  - rewrite orb_true_iff, IH, String.eqb_eq, elem_of_cons. tauto.
Qed.

(** *** The languages *)

(** A name as the loops store it: not empty, and its own capitalization. *)
Definition language_name (l : string) : Prop :=
  l <> EmptyString /\ capitalize l = l.

Lemma returns_primary_language fuel :
  returns (primary_language fuel)
    (fun l => exists primary, l = [primary] /\ language_name primary).
Proof.
  induction fuel as [|fuel IH]; [apply returns_unfinished|].
  cbn [primary_language]. eapply returns_bind; [apply returns_any|].
  intros answered _.
  destruct (String.eqb (capitalize answered) EmptyString) eqn:Hempty; cbn [negb].
  - skip_step. exact IH.
  - apply returns_give. exists (capitalize answered). split; [done|].
    split; [by apply String.eqb_neq | apply capitalize_idempotent].
Qed.

Lemma returns_more_languages fuel selected :
  NoDup selected -> Forall language_name selected ->
  returns (more_languages fuel selected)
    (fun l => NoDup l /\ Forall language_name l
              /\ exists more, l = (selected ++ more)%list).
Proof.
  revert selected. induction fuel as [|fuel IH]; intros selected Hnodup Hnames;
    [apply returns_unfinished|].
  cbn [more_languages]. eapply returns_bind; [apply returns_any|].
  intros answered _.
  destruct (String.eqb (capitalize answered) EmptyString) eqn:Hempty.
  { apply returns_give. split; [done|]. split; [done|].
    exists []. by rewrite app_nil_r. }
  apply String.eqb_neq in Hempty.
  destruct (is_in (capitalize answered) selected) eqn:Hin; cbn [negb].
  - skip_step. by apply IH.
  - do 2 skip_step.
    eapply returns_weaken.
    + apply IH.
      * apply NoDup_app. split; [done|]. split; [|apply NoDup_singleton].
        intros lang Hlang ->%list_elem_of_singleton.
        apply is_in_spec in Hlang. congruence.
      * apply Forall_app. split; [done|]. apply Forall_singleton.
        split; [done | apply capitalize_idempotent].
    + intros l (Hl & Hnames' & more & ->). split; [done|]. split; [done|].
      exists (capitalize answered :: more). by rewrite <- app_assoc.
Qed.

(** *** The record *)

Lemma returns_ask_string_nonempty prompt d :
  d <> EmptyString ->
  returns (ask_string prompt (Some d) false) (fun s => s <> EmptyString).
Proof.
  intros Hd. eapply returns_weaken; [apply returns_ask_string|].
  intros s [[Hs _]|[[= <-]|(_ & ? & _)]]; done.
Qed.

Lemma returns_os_path_normpath fs path :
  returns (os_path_normpath fs path) (fun p => normpath fs path = Some p).
Proof.
  unfold os_path_normpath. destruct (normpath fs path) as [p|].
  - by apply returns_give.
  - apply returns_uncaught.
Qed.

Lemma returns_optional_file fs selected picked skipped :
  returns (optional_file fs selected picked skipped)
    (fun p => (selected = EmptyString /\ p = EmptyString)
              \/ (selected <> EmptyString /\ normpath fs selected = Some p)).
Proof.
  unfold optional_file.
  destruct (String.eqb selected EmptyString) eqn:Hs; cbn [negb].
  - apply String.eqb_eq in Hs. skip_step. apply returns_give. by left.
  - apply String.eqb_neq in Hs.
    eapply returns_bind; [apply returns_os_path_normpath|]. intros p Hp.
    skip_step. apply returns_give. by right.
Qed.

(** What holds of every record the collector hands to the renderer. *)
Record collected (h : host) (fs : os_path) (dlg : dialogs)
    (r : ConfigurationRecord) : Prop := Collected {
  collected_texts :
    app_name r <> EmptyString /\ app_version r <> EmptyString
    /\ publisher r <> EmptyString /\ install_dir_name r <> EmptyString
    /\ uninstall_reg_key r <> EmptyString /\ install_path_reg_key r <> EmptyString
    /\ branding r <> EmptyString;
  collected_version : four_numbers (product_version r);
  collected_source :
    source_dir_selected dlg <> EmptyString
    /\ normpath fs (source_dir_selected dlg) = Some (source_dir r);
  collected_executable :
    match main_executable r with
    | Some exe =>
        exe = basename fs (exe_selected dlg) /\ exe_selected dlg <> EmptyString
        /\ exists normalized,
             normpath fs (exe_selected dlg) = Some normalized
             /\ dirname fs normalized = source_dir r
    | None =>
        exe_selected dlg = EmptyString
        \/ exists normalized,
             normpath fs (exe_selected dlg) = Some normalized
             /\ dirname fs normalized <> source_dir r
    end;
  collected_license :
    (license_selected dlg = EmptyString /\ license_file r = EmptyString)
    \/ (license_selected dlg <> EmptyString
        /\ normpath fs (license_selected dlg) = Some (license_file r));
  collected_icon :
    (icon_selected dlg = EmptyString /\ installer_icon r = EmptyString)
    \/ (icon_selected dlg <> EmptyString
        /\ normpath fs (icon_selected dlg) = Some (installer_icon r));
  collected_unicon :
    (unicon_selected dlg = EmptyString /\ uninstaller_icon r = EmptyString)
    \/ (unicon_selected dlg <> EmptyString
        /\ normpath fs (unicon_selected dlg) = Some (uninstaller_icon r));
  collected_output : endswith (lower (output_installer_name r)) ".exe" = true;
  collected_64bit : prefer_64bit r = true -> request_admin r = true;
  collected_compression : compression r ∈ ["lzma"; "zlib"; "bzip2"];
  collected_folder :
    if create_startmenu_shortcut r
    then start_menu_folder r <> EmptyString
    else start_menu_folder r = EmptyString;
  collected_languages :
    NoDup (selected_languages r) /\ Forall language_name (selected_languages r)
    /\ exists primary more, selected_languages r = primary :: more;
  collected_license_page :
    show_license_page r = true ->
    license_file r <> EmptyString /\ path_exists h (license_file r) = true;
}.

Ltac record_fields :=
  cbn [app_name app_version publisher install_dir_name uninstall_reg_key
       install_path_reg_key branding product_version source_dir
       main_executable license_file installer_icon uninstaller_icon
       output_installer_name prefer_64bit request_admin compression
       create_startmenu_shortcut start_menu_folder selected_languages
       show_license_page].

Lemma collect_spec h fs dlg fuel :
  returns (collect h fs dlg fuel) (collected h fs dlg).
Proof.
  unfold collect.
  do 4 skip_step.
  eapply returns_bind; [by apply returns_ask_string_nonempty|]. intros app_name Happ.
  eapply returns_bind; [by apply returns_ask_string_nonempty|]. intros app_version Hver.
  eapply returns_bind.
  { apply returns_validate_product_version.
    exists "1", "0", "0", "0". by repeat split. }
  intros product_version Hproduct.
  eapply returns_bind; [by apply returns_ask_string_nonempty|]. intros publisher Hpub.
  skip_step. do 2 skip_step.
  eapply returns_bind with (Q := fun _ => source_dir_selected dlg <> EmptyString).
  { destruct (String.eqb (source_dir_selected dlg) EmptyString) eqn:Hsel.
    - skip_step. apply returns_sys_exit.
    - apply returns_give. by apply String.eqb_neq. }
  intros _ Hsel.
  eapply returns_bind; [apply returns_os_path_normpath|]. intros source_dir Hsrc.
  do 2 skip_step.
  eapply returns_bind with
    (Q := fun main_executable =>
       match main_executable with
       | Some exe =>
           exe = basename fs (exe_selected dlg) /\ exe_selected dlg <> EmptyString
           /\ exists normalized,
                normpath fs (exe_selected dlg) = Some normalized
                /\ dirname fs normalized = source_dir
       | None =>
           exe_selected dlg = EmptyString
           \/ exists normalized,
                normpath fs (exe_selected dlg) = Some normalized
                /\ dirname fs normalized <> source_dir
       end).
  { destruct (String.eqb (exe_selected dlg) EmptyString) eqn:Hexe; cbn [negb].
    - apply String.eqb_eq in Hexe. skip_step. apply returns_give. by left.
    - apply String.eqb_neq in Hexe.
      eapply returns_bind; [apply returns_os_path_normpath|]. intros normalized Hn.
      destruct (String.eqb (dirname fs normalized) source_dir) eqn:Hdir.
      + apply String.eqb_eq in Hdir. skip_step. apply returns_give.
        split; [done|]. split; [done|]. by exists normalized.
      + apply String.eqb_neq in Hdir. do 2 skip_step. apply returns_give.
        right. by exists normalized. }
  intros main_executable Hmain.
  skip_step.
  eapply returns_bind; [apply returns_optional_file|]. intros license_file Hlicense.
  skip_step.
  eapply returns_bind; [apply returns_optional_file|]. intros installer_icon Hicon.
  skip_step.
  eapply returns_bind; [apply returns_optional_file|]. intros uninstaller_icon Hunicon.
  cbv zeta.
  skip_step as answered_name. skip_step.
  eapply returns_bind; [by apply returns_ask_string_nonempty|]. intros install_dir_name Hdir.
  skip_step as request_admin.
  eapply returns_bind with (Q := fun p => p = true -> request_admin = true).
  { destruct request_admin; [by intros ? ? _ | by apply returns_give]. }
  intros prefer_64bit H64.
  eapply returns_bind; [apply returns_ask_choice|]. intros compression Hcomp.
  skip_step. skip_step.
  skip_step as create_startmenu_shortcut.
  eapply returns_bind with
    (Q := fun folder => if create_startmenu_shortcut
                        then folder <> EmptyString else folder = EmptyString).
  { destruct create_startmenu_shortcut; [|by apply returns_give].
    skip_step as sm_choice.
    destruct (String.eqb sm_choice "Use Publisher Name"); [by apply returns_give|].
    destruct (String.eqb sm_choice "Use Application Name"); [by apply returns_give|].
    by apply returns_ask_string_nonempty. }
  intros start_menu_folder Hfolder.
  skip_step as create_desktop_shortcut. skip_step.
  eapply returns_bind; [by apply returns_ask_string_nonempty|]. intros uninstall_reg_key Hukey.
  eapply returns_bind; [by apply returns_ask_string_nonempty|]. intros install_path_reg_key Hikey.
  do 4 skip_step.
  eapply returns_bind; [apply returns_primary_language|].
  intros first (primary & -> & Hprimary).
  eapply returns_bind.
  { apply returns_more_languages; [apply NoDup_singleton | by apply Forall_singleton]. }
  intros selected_languages (Hnodup & Hnames & more & ->).
  skip_step.
  eapply returns_bind.
  { apply returns_ask_string_nonempty. by destruct publisher. }
  intros branding Hbranding.
  skip_step as show_welcome_page.
  eapply returns_bind with
    (Q := fun shown => shown = true ->
            license_file <> EmptyString /\ path_exists h license_file = true).
  { destruct (negb (String.eqb license_file EmptyString)
              && path_exists h license_file) eqn:Hexists.
    - apply andb_true_iff in Hexists as [Hset Hexists].
      apply negb_true_iff, String.eqb_neq in Hset. by intros ? ? _ _.
    - by apply returns_give. }
  intros show_license_page Hshow.
  skip_step as show_directory_page. skip_step as show_finish_page.
  skip_step. apply returns_give. cbv beta in *.
  split; record_fields; try done.
  - destruct (endswith (lower answered_name) ".exe") eqn:Hends; cbn [negb]; [done|].
    rewrite lower_app. apply endswith_app.
  - split; [done|]. split; [done|]. by exists primary, more.
Qed.

(** *** How a piece of the collector ends *)

(** An interrupt came at the prompt the piece was waiting in: it is the
    event just before what is left of the input. *)
Definition interrupted (t t' : terminal) : Prop :=
  exists before, stdin t = (before ++ Interrupt :: stdin t')%list.

(** Started with fewer events than [fuel], [c] does not run out of rounds:
    it returns, having taken some events from the front of the input, or
    exits with code 1, at the end of the input or at an interrupt unless
    [cancelled], or fails, and then [failed] holds. *)
Definition ends {A} (fuel : nat) (cancelled failed : Prop) (c : prompting A)
  : Prop :=
  forall t, length (stdin t) < fuel ->
    match c t with
    | (Got _, t') => exists taken, stdin t = (taken ++ stdin t')%list
    | (Exit code, t') =>
        code = 1%Z /\ (stdin t' = [] \/ interrupted t t' \/ cancelled)
    | (Uncaught, _) => failed
    | (Unfinished, _) => False
    end.

(** A prompt takes at least one line before it returns, and exits only at
    the end of the input or at an interrupt. *)
Definition reads {A} (c : prompting A) : Prop :=
  forall t,
    match c t with
    | (Got _, t') =>
        exists taken, taken <> [] /\ stdin t = (taken ++ stdin t')%list
    | (Exit code, t') => code = 1%Z /\ (stdin t' = [] \/ interrupted t t')
    | (Uncaught, _) | (Unfinished, _) => False
    end.

Lemma reads_ends {A} fuel cancelled failed (c : prompting A) :
  reads c -> ends fuel cancelled failed c.
Proof.
  intros Hc t _. specialize (Hc t).
  destruct (c t) as [[x|code| |] t']; [| |done..].
  - destruct Hc as (taken & _ & Htaken). by exists taken.
  - destruct Hc as [-> [Hend|Hint]]; (split; [done|]); [by left | by right; left].
Qed.

Lemma ends_give {A} fuel cancelled failed (x : A) :
  ends fuel cancelled failed (give x).
Proof. intros t _. by exists []. Qed.

Lemma ends_say fuel cancelled failed text : ends fuel cancelled failed (say text).
Proof. intros t _. by exists []. Qed.

Lemma ends_showerror fuel cancelled failed title message :
  ends fuel cancelled failed (showerror title message).
Proof. intros t _. by exists []. Qed.

Lemma ends_bind_returns {A B} fuel cancelled failed (c : prompting A)
    (k : A -> prompting B) (Q : A -> Prop) :
  ends fuel cancelled failed c -> returns c Q ->
  (forall x, Q x -> ends fuel cancelled failed (k x)) ->
  ends fuel cancelled failed (and_then c k).
Proof.
  intros Hc HQ Hk t Ht. unfold and_then. specialize (Hc t Ht). specialize (HQ t).
  destruct (c t) as [[x|code| |] t1]; [|done..].
  destruct Hc as (taken & Htaken).
  assert (length (stdin t1) < fuel) as Ht1.
  { rewrite Htaken, length_app in Ht. lia. }
  specialize (Hk x (HQ x eq_refl) t1 Ht1).
  destruct (k x t1) as [[y|code| |] t2]; [| |done..].
  - destruct Hk as (taken' & Htaken'). exists (taken ++ taken')%list.
    by rewrite Htaken, Htaken', <- app_assoc.
  - destruct Hk as [-> [Hend|[(before & Hint)|Hcancel]]]; (split; [done|]).
    + by left.
    + right; left. exists (taken ++ before)%list.
      by rewrite Htaken, Hint, <- app_assoc.
    + by right; right.
Qed.

Lemma ends_bind {A B} fuel cancelled failed (c : prompting A) (k : A -> prompting B) :
  ends fuel cancelled failed c -> (forall x, ends fuel cancelled failed (k x)) ->
  ends fuel cancelled failed (and_then c k).
Proof.
  intros Hc Hk. apply ends_bind_returns with (Q := fun _ => True);
    [exact Hc | apply returns_any | by intros x _].
Qed.

Lemma taken_typed (rejected : list string) line rest :
  exists taken : list keyboard,
    taken <> []
    /\ (map Typed rejected ++ Typed line :: rest)%list = (taken ++ rest)%list.
Proof.
  exists (map Typed rejected ++ [Typed line])%list. split.
  - by destruct rejected.
  - by rewrite <- app_assoc.
Qed.

Lemma gave_up_left text complaint t rejected t' :
  gave_up text complaint (stdin t) (stdout t) rejected t' ->
  stdin t' = [] \/ interrupted t t'.
Proof.
  intros [(_ & Hend & _)|(Hint & _)]; [by left|right].
  by exists (map Typed rejected).
Qed.

Lemma reads_ask_string prompt dflt allow_empty :
  reads (ask_string prompt dflt allow_empty).
Proof.
  intros t. unfold ask_string.
  pose proof (ask_string_loop_spec (string_prompt prompt dflt) dflt allow_empty
                (stdin t) (stdout t)) as Hspec.
  destruct (ask_string_loop _ dflt allow_empty (stdin t) (stdout t))
    as [[s|code| |] t']; [| |done..].
  - destruct Hspec as (blanks & line & -> & _). apply taken_typed.
  - destruct Hspec as (-> & blanks & _ & _ & Hgave).
    split; [done | by eapply gave_up_left].
Qed.

Lemma reads_ask_bool prompt dflt : reads (ask_bool prompt dflt).
Proof.
  intros t. unfold ask_bool.
  pose proof (ask_bool_loop_spec (bool_prompt prompt dflt) dflt (stdin t) (stdout t))
    as Hspec.
  destruct (ask_bool_loop _ dflt (stdin t) (stdout t)) as [[b|code| |] t'];
    [| |done..].
  - destruct Hspec as (rejected & line & -> & _). apply taken_typed.
  - destruct Hspec as (-> & rejected & _ & Hgave).
    split; [done | by eapply gave_up_left].
Qed.

Lemma reads_ask_choice int prompt options d :
  d ∈ options -> reads (ask_choice int prompt options (Some d)).
Proof.
  intros Hd t. unfold ask_choice.
  pose proof (ask_choice_loop_spec int options (Some d ≫= fun d => index_of d options)
                (choice_prompt (Some d) (Some d ≫= fun d => index_of d options))
                (stdin t)
                (stdout t ++ Line prompt :: imap option_line options)%list) as Hspec.
  destruct (ask_choice_loop _ _ _ _ (stdin t) _) as [[s|code| |] t']; [| | |done].
  - destruct Hspec as (rejected & line & -> & _). apply taken_typed.
  - destruct Hspec as (-> & rejected & _ & [(_ & Hend)|Hint]);
      (split; [done|]); [by left | right; by exists (map Typed rejected)].
  - destruct Hspec as (i & Hidx & Hi).
    change (index_of d options = Some i) in Hidx.
    apply index_of_lookup in Hidx. congruence.
Qed.

Lemma reads_validate_product_version prompt app_version dflt allow_empty :
  reads (validate_product_version prompt app_version dflt allow_empty).
Proof.
  intros t. unfold validate_product_version.
  pose proof (validate_product_version_loop_spec (string_prompt prompt dflt)
                app_version dflt allow_empty (stdin t) (stdout t)) as Hspec.
  destruct (validate_product_version_loop _ _ _ _ (stdin t) (stdout t))
    as [[s|code| |] t']; [| |done..].
  - destruct Hspec as (rejected & line & -> & _). apply taken_typed.
  - destruct Hspec as (-> & rejected & _ & [(_ & Hend)|Hint]);
      (split; [done|]); [by left | right; by exists (map Typed rejected)].
Qed.

(** One more round of a loop, after a prompt that took [taken]. *)
Lemma ends_next_round {A} fuel cancelled failed (loop : prompting A)
    (t t1 : terminal) (taken : list keyboard) said :
  ends fuel cancelled failed loop ->
  taken <> [] -> stdin t = (taken ++ stdin t1)%list ->
  length (stdin t) < S fuel ->
  match loop {| stdin := stdin t1; stdout := said |} with
  | (Got _, t') => exists taken, stdin t = (taken ++ stdin t')%list
  | (Exit code, t') =>
      code = 1%Z /\ (stdin t' = [] \/ interrupted t t' \/ cancelled)
  | (Uncaught, _) => failed
  | (Unfinished, _) => False
  end.
Proof.
  intros Hloop Hne Htaken Ht.
  specialize (Hloop {| stdin := stdin t1; stdout := said |}). cbn [stdin] in Hloop.
  assert (length (stdin t1) < fuel) as Ht1.
  { rewrite Htaken, length_app in Ht. destruct taken; [done|]. cbn in Ht. lia. }
  specialize (Hloop Ht1).
  destruct (loop _) as [[l|code| |] t2]; [| |done..].
  - destruct Hloop as (taken' & Htaken'). exists (taken ++ taken')%list.
    by rewrite Htaken, Htaken', <- app_assoc.
  - destruct Hloop as [-> [Hend|[(before & Hint)|Hcancel]]]; (split; [done|]).
    + by left.
    + right; left. exists (taken ++ before)%list.
      cbn [stdin] in Hint. by rewrite Htaken, Hint, <- app_assoc.
    + by right; right.
Qed.

Lemma ends_primary_language fuel cancelled failed :
  ends fuel cancelled failed (primary_language fuel).
Proof.
  induction fuel as [|fuel IH]; intros t Ht; [lia|].
  cbn [primary_language]. unfold and_then at 1.
  pose proof (reads_ask_string "Enter the primary/default language"
                (Some "English") false t) as Hread.
  destruct (ask_string _ _ _ t) as [[answered|code| |] t1]; [| |done..].
  - destruct Hread as (taken & Hne & Htaken).
    destruct (negb (String.eqb (capitalize answered) EmptyString)).
    + by exists taken.
    + unfold and_then, say. by eapply ends_next_round.
  - destruct Hread as [-> [Hend|Hint]]; (split; [done|]); [by left | by right; left].
Qed.

Lemma ends_more_languages fuel cancelled failed selected :
  ends fuel cancelled failed (more_languages fuel selected).
Proof.
  revert selected. induction fuel as [|fuel IH]; intros selected t Ht; [lia|].
  cbn [more_languages]. unfold and_then at 1.
  pose proof (reads_ask_string
                ("Add another language? Current: " +:+ join ", " selected
                 +:+ " (Leave blank to finish)") None true t) as Hread.
  destruct (ask_string _ _ _ t) as [[answered|code| |] t1]; [| |done..].
  - destruct Hread as (taken & Hne & Htaken).
    destruct (String.eqb (capitalize answered) EmptyString); [by exists taken|].
    destruct (negb (is_in (capitalize answered) selected)).
    + destruct (any_char (Ascii.eqb " ") (capitalize answered)
                || any_char is_digit (capitalize answered));
        unfold and_then, say, give; cbn [stdin stdout];
        by eapply ends_next_round.
    + unfold and_then, say; cbn [stdin stdout]. by eapply ends_next_round.
  - destruct Hread as [-> [Hend|Hint]]; (split; [done|]); [by left | by right; left].
Qed.

Section CollectorEnds.

Variable h : host.
Variable fs : os_path.
Variable dlg : dialogs.

(** [os.path.normpath] raised on a path picked in a dialog. *)
Definition normpath_failed : Prop :=
  exists path,
    path ∈ [source_dir_selected dlg; exe_selected dlg; license_selected dlg;
            icon_selected dlg; unicon_selected dlg]
    /\ path <> EmptyString /\ normpath fs path = None.

Definition source_cancelled : Prop := source_dir_selected dlg = EmptyString.

Lemma ends_os_path_normpath fuel path :
  path ∈ [source_dir_selected dlg; exe_selected dlg; license_selected dlg;
          icon_selected dlg; unicon_selected dlg] ->
  path <> EmptyString ->
  ends fuel source_cancelled normpath_failed (os_path_normpath fs path).
Proof.
  intros Hin Hpath t _. unfold os_path_normpath.
  destruct (normpath fs path) as [p|] eqn:Hp; cbn; [by exists []|]. by exists path.
Qed.

Lemma ends_optional_file fuel selected picked skipped :
  selected ∈ [source_dir_selected dlg; exe_selected dlg; license_selected dlg;
              icon_selected dlg; unicon_selected dlg] ->
  ends fuel source_cancelled normpath_failed
    (optional_file fs selected picked skipped).
Proof.
  intros Hin. unfold optional_file.
  destruct (String.eqb selected EmptyString) eqn:Hs; cbn [negb].
  - apply ends_bind; [apply ends_say | intros _; apply ends_give].
  - apply String.eqb_neq in Hs.
    apply ends_bind; [by apply ends_os_path_normpath | intros p].
    apply ends_bind; [apply ends_say | intros _; apply ends_give].
Qed.

Ltac ends_prompt :=
  first
    [ apply ends_say
    | apply ends_give
    | apply ends_showerror
    | apply reads_ends, reads_ask_string
    | apply reads_ends, reads_ask_bool
    | apply reads_ends, reads_validate_product_version
    | apply reads_ends, reads_ask_choice; set_solver
    | apply ends_primary_language
    | apply ends_more_languages
    | apply ends_optional_file; set_solver ].

Lemma collect_ends fuel :
  ends fuel source_cancelled normpath_failed (collect h fs dlg fuel).
Proof.
  unfold collect.
  do 11 (apply ends_bind; [ends_prompt | intros ?]).
  apply ends_bind_returns with (Q := fun _ => source_dir_selected dlg <> EmptyString).
  { destruct (String.eqb (source_dir_selected dlg) EmptyString) eqn:Hsel;
      [|apply ends_give].
    apply String.eqb_eq in Hsel.
    apply ends_bind; [apply ends_say | intros _].
    intros t _. cbn. split; [done | by right; right]. }
  { destruct (String.eqb (source_dir_selected dlg) EmptyString) eqn:Hsel.
    - skip_step. apply returns_sys_exit.
    - apply returns_give. by apply String.eqb_neq. }
  intros _ Hsel.
  apply ends_bind; [apply ends_os_path_normpath; [set_solver|done] | intros source_dir].
  do 2 (apply ends_bind; [ends_prompt | intros ?]).
  apply ends_bind.
  { destruct (String.eqb (exe_selected dlg) EmptyString) eqn:Hexe; cbn [negb].
    - apply ends_bind; [ends_prompt | intros ?]. ends_prompt.
    - apply String.eqb_neq in Hexe.
      apply ends_bind; [apply ends_os_path_normpath; [set_solver|done] | intros normalized].
      destruct (String.eqb (dirname fs normalized) source_dir).
      + apply ends_bind; [ends_prompt | intros ?]. ends_prompt.
      + do 2 (apply ends_bind; [ends_prompt | intros ?]). ends_prompt. }
  intros main_executable.
  apply ends_bind; [ends_prompt | intros _].
  apply ends_bind; [ends_prompt | intros license_file].
  do 4 (apply ends_bind; [ends_prompt | intros ?]).
  cbv zeta.
  do 3 (apply ends_bind; [ends_prompt | intros ?]).
  apply ends_bind; [ends_prompt | intros request_admin].
  apply ends_bind; [destruct request_admin; ends_prompt | intros prefer_64bit].
  do 3 (apply ends_bind; [ends_prompt | intros ?]).
  apply ends_bind; [ends_prompt | intros create_startmenu_shortcut].
  apply ends_bind.
  { destruct create_startmenu_shortcut; [|ends_prompt].
    apply ends_bind; [ends_prompt | intros sm_choice].
    destruct (String.eqb sm_choice "Use Publisher Name"); [ends_prompt|].
    destruct (String.eqb sm_choice "Use Application Name"); ends_prompt. }
  intros start_menu_folder.
  do 13 (apply ends_bind; [ends_prompt | intros ?]).
  apply ends_bind.
  { destruct (negb (String.eqb license_file EmptyString)
              && path_exists h license_file); ends_prompt. }
  intros show_license_page.
  do 3 (apply ends_bind; [ends_prompt | intros ?]).
  ends_prompt.
Qed.

End CollectorEnds.

(** *** A sample session *)

Definition sample_os_path : os_path := {|
  normpath := fun path => Some path;
  dirname := fun _ => "C:\src\app";
  basename := fun _ => "editor.exe";
  isdir := fun path => String.eqb path "C:\src\app";
  isfile := fun path => negb (String.eqb path "C:\src\app");
|}.

(** Every dialog but the first is cancelled. *)
Definition cancelled_dialogs : dialogs := {|
  source_dir_selected := "C:\src\app";
  exe_selected := EmptyString;
  license_selected := EmptyString;
  icon_selected := EmptyString;
  unicon_selected := EmptyString;
|}.

Definition sample_dialogs : dialogs := {|
  source_dir_selected := "C:\src\app";
  exe_selected := "C:\src\app\editor.exe";
  license_selected := EmptyString;
  icon_selected := "C:\icons\app.ico";
  unicon_selected := EmptyString;
|}.

(** The user accepts every default. *)
Definition default_session : terminal :=
  {| stdin := replicate 22 (Typed EmptyString); stdout := [] |}.

Definition default_record : ConfigurationRecord := {|
  app_name := "My Application";
  app_version := "1.0.0";
  product_version := "1.0.0.0";
  publisher := "My Company";
  website := EmptyString;
  source_dir := "C:\src\app";
  main_executable := None;
  license_file := EmptyString;
  installer_icon := EmptyString;
  uninstaller_icon := EmptyString;
  output_installer_name := "My_Application_v1.0.0_Setup.exe";
  install_dir_name := "My Application";
  request_admin := true;
  prefer_64bit := true;
  compression := "lzma";
  solid_compression := true;
  create_startmenu_shortcut := true;
  start_menu_folder := "My Company";
  create_desktop_shortcut := true;
  uninstall_reg_key := "Software\Microsoft\Windows\CurrentVersion\Uninstall\MyApplication";
  install_path_reg_key := "Software\MyCompany\MyApplication";
  selected_languages := ["English"];
  branding := "My Company - My Application v1.0.0";
  show_welcome_page := true;
  show_license_page := false;
  show_directory_page := true;
  show_finish_page := true;
|}.

(** The user types some of the answers. *)
Definition typed_session : terminal :=
  {| stdin := map Typed
       [ "  Editor "; ""; "2.0.0.1"; "x.y"; ""; "editor-setup"; "";
         "No"; "4"; "2"; ""; "y"; "3"; "Tools"; ""; ""; "";
         "english"; "french"; "FRENCH"; "german"; "";
         ""; ""; ""; "" ];
     stdout := [] |}.

Definition typed_record : ConfigurationRecord := {|
  app_name := "Editor";
  app_version := "1.0.0";
  product_version := "2.0.0.1";
  publisher := "x.y";
  website := EmptyString;
  source_dir := "C:\src\app";
  main_executable := Some "editor.exe";
  license_file := EmptyString;
  installer_icon := "C:\icons\app.ico";
  uninstaller_icon := EmptyString;
  output_installer_name := "editor-setup.exe";
  install_dir_name := "Editor";
  request_admin := false;
  prefer_64bit := false;
  compression := "zlib";
  solid_compression := true;
  create_startmenu_shortcut := true;
  start_menu_folder := "Tools";
  create_desktop_shortcut := true;
  uninstall_reg_key := "Software\Microsoft\Windows\CurrentVersion\Uninstall\Editor";
  install_path_reg_key := "Software\xy\Editor";
  selected_languages := ["English"; "French"; "German"];
  branding := "x.y - Editor v1.0.0";
  show_welcome_page := true;
  show_license_page := false;
  show_directory_page := true;
  show_finish_page := true;
|}.

Lemma default_session_collects :
  fst (collect sample_host sample_os_path cancelled_dialogs 23 default_session)
  = Got default_record.
Proof. vm_compute. reflexivity. Qed.

Lemma typed_session_collects :
  fst (collect sample_host sample_os_path sample_dialogs 27 typed_session)
  = Got typed_record.
Proof. vm_compute. reflexivity. Qed.

(** The user presses Ctrl-C at the third prompt. *)
Definition interrupted_session : terminal :=
  {| stdin := [Typed "Editor"; Typed ""; Interrupt; Typed "1.0.0.0"];
     stdout := [] |}.

(** A disk that has the license file, and the dialogs that pick it; the
    record [license_file_gone] is what the collector makes of them when the
    user accepts every default. *)
Definition host_with_license : host := {|
  now_stamp := "2025-01-02 03:04:05";
  now_year := 2025;
  path_exists := fun path => String.eqb path "C:\docs\license.rtf";
  exists_other := fun v => inl (TypeError v);
  abspath := fun path => Some path;
  repr_list := fun _ => "[]";
|}.

Definition license_dialogs : dialogs := {|
  source_dir_selected := "C:\src\app";
  exe_selected := "C:\src\app\editor.exe";
  license_selected := "C:\docs\license.rtf";
  icon_selected := EmptyString;
  unicon_selected := EmptyString;
|}.

Lemma license_file_gone_is_collected :
  fst (collect host_with_license sample_os_path license_dialogs 24
         {| stdin := replicate 23 (Typed EmptyString); stdout := [] |})
  = Got license_file_gone.
Proof. vm_compute. reflexivity. Qed.

(** *** What the collector hands to the renderer *)

(** X15. On ASCII input, every record the collector completes keeps the
    invariants of the configuration: the product version is four numbers
    with dots between them; the name of the installer ends in [.exe] in
    some letter case; 64 bit is preferred only for an elevated install; the
    compression is one of the three methods offered; the start menu folder
    is named exactly when the start menu shortcut is wanted; the licence
    page is shown only if a licence file was picked and exists. *)
Theorem collected_record_consistent h fs dlg fuel t r :
  ascii_input t ->
  fst (collect h fs dlg fuel t) = Got r ->
  four_numbers (product_version r) /\
  endswith (lower (output_installer_name r)) ".exe" = true /\
  (prefer_64bit r = true -> request_admin r = true) /\
  compression r ∈ ["lzma"; "zlib"; "bzip2"] /\
  (if create_startmenu_shortcut r
   then start_menu_folder r <> EmptyString
   else start_menu_folder r = EmptyString) /\
  (show_license_page r = true ->
   license_file r <> EmptyString /\ path_exists h (license_file r) = true).
Proof.
  intros _ Hr.
  destruct (collect_spec h fs dlg fuel t r Hr)
    as [_ Hversion _ _ _ _ _ Hout H64 Hcomp Hfolder _ Hpage].
  exact (conj Hversion (conj Hout (conj H64 (conj Hcomp (conj Hfolder Hpage))))).
Qed.

Lemma collected_record_consistent_witness :
  four_numbers (product_version typed_record) /\
  endswith (lower (output_installer_name typed_record)) ".exe" = true /\
  (prefer_64bit typed_record = true -> request_admin typed_record = true) /\
  compression typed_record ∈ ["lzma"; "zlib"; "bzip2"] /\
  (if create_startmenu_shortcut typed_record
   then start_menu_folder typed_record <> EmptyString
   else start_menu_folder typed_record = EmptyString) /\
  (show_license_page typed_record = true ->
   license_file typed_record <> EmptyString
   /\ path_exists sample_host (license_file typed_record) = true).
Proof.
  apply (collected_record_consistent sample_host sample_os_path sample_dialogs 27
           typed_session typed_record).
  - reflexivity.
  - vm_compute. reflexivity.
Defined.

(** X16. On ASCII input, the list of languages of every record the
    collector completes is not empty, has no entry twice, and holds only
    names that are not empty and are written as [capitalize] writes them:
    a name typed again in another letter case is not added again. *)
Theorem collected_languages_distinct h fs dlg fuel t r :
  ascii_input t ->
  fst (collect h fs dlg fuel t) = Got r ->
  selected_languages r <> [] /\
  NoDup (selected_languages r) /\
  Forall language_name (selected_languages r).
Proof.
  intros _ Hr.
  destruct (collect_spec h fs dlg fuel t r Hr)
    as [_ _ _ _ _ _ _ _ _ _ _ (Hnodup & Hnames & primary & more & Hlist) _].
  split; [by rewrite Hlist | by split].
Qed.

Lemma collected_languages_distinct_witness :
  selected_languages typed_record = ["English"; "French"; "German"] /\
  (selected_languages typed_record <> [] /\
   NoDup (selected_languages typed_record) /\
   Forall language_name (selected_languages typed_record)).
Proof.
  split; [reflexivity|].
  apply (collected_languages_distinct sample_host sample_os_path sample_dialogs 27
           typed_session typed_record).
  - reflexivity.
  - vm_compute. reflexivity.
Defined.

(** X17. On ASCII input, in every record the collector completes the
    source directory is the normalized path picked in the first dialog,
    which was not cancelled; an executable is recorded only by its base
    name and only if the directory of its normalized path is that source
    directory, otherwise the entry is [None]; the licence file and the two
    icons are the normalized paths picked, or empty when their dialog was
    cancelled; and the application name, the application version, the
    publisher, the installation folder, the two registry keys and the
    branding text are never empty. *)
Theorem collected_paths_from_dialogs h fs dlg fuel t r :
  ascii_input t ->
  fst (collect h fs dlg fuel t) = Got r ->
  (source_dir_selected dlg <> EmptyString
   /\ normpath fs (source_dir_selected dlg) = Some (source_dir r)) /\
  match main_executable r with
  | Some exe =>
      exe = basename fs (exe_selected dlg) /\ exe_selected dlg <> EmptyString
      /\ exists normalized,
           normpath fs (exe_selected dlg) = Some normalized
           /\ dirname fs normalized = source_dir r
  | None =>
      exe_selected dlg = EmptyString
      \/ exists normalized,
           normpath fs (exe_selected dlg) = Some normalized
           /\ dirname fs normalized <> source_dir r
  end /\
  ((license_selected dlg = EmptyString /\ license_file r = EmptyString)
   \/ (license_selected dlg <> EmptyString
       /\ normpath fs (license_selected dlg) = Some (license_file r))) /\
  ((icon_selected dlg = EmptyString /\ installer_icon r = EmptyString)
   \/ (icon_selected dlg <> EmptyString
       /\ normpath fs (icon_selected dlg) = Some (installer_icon r))) /\
  ((unicon_selected dlg = EmptyString /\ uninstaller_icon r = EmptyString)
   \/ (unicon_selected dlg <> EmptyString
       /\ normpath fs (unicon_selected dlg) = Some (uninstaller_icon r))) /\
  (app_name r <> EmptyString /\ app_version r <> EmptyString
   /\ publisher r <> EmptyString /\ install_dir_name r <> EmptyString
   /\ uninstall_reg_key r <> EmptyString /\ install_path_reg_key r <> EmptyString
   /\ branding r <> EmptyString).
Proof.
  intros _ Hr.
  destruct (collect_spec h fs dlg fuel t r Hr)
    as [Htexts _ Hsource Hmain Hlicense Hicon Hunicon _ _ _ _ _ _].
  exact (conj Hsource (conj Hmain (conj Hlicense (conj Hicon (conj Hunicon Htexts))))).
Qed.

Lemma collected_paths_from_dialogs_witness :
  main_executable typed_record = Some "editor.exe" /\
  ((source_dir_selected sample_dialogs <> EmptyString
   /\ normpath sample_os_path (source_dir_selected sample_dialogs)
      = Some (source_dir typed_record)) /\
  match main_executable typed_record with
  | Some exe =>
      exe = basename sample_os_path (exe_selected sample_dialogs)
      /\ exe_selected sample_dialogs <> EmptyString
      /\ exists normalized,
           normpath sample_os_path (exe_selected sample_dialogs) = Some normalized
           /\ dirname sample_os_path normalized = source_dir typed_record
  | None =>
      exe_selected sample_dialogs = EmptyString
      \/ exists normalized,
           normpath sample_os_path (exe_selected sample_dialogs) = Some normalized
           /\ dirname sample_os_path normalized <> source_dir typed_record
  end /\
  ((license_selected sample_dialogs = EmptyString
    /\ license_file typed_record = EmptyString)
   \/ (license_selected sample_dialogs <> EmptyString
       /\ normpath sample_os_path (license_selected sample_dialogs)
          = Some (license_file typed_record))) /\
  ((icon_selected sample_dialogs = EmptyString
    /\ installer_icon typed_record = EmptyString)
   \/ (icon_selected sample_dialogs <> EmptyString
       /\ normpath sample_os_path (icon_selected sample_dialogs)
          = Some (installer_icon typed_record))) /\
  ((unicon_selected sample_dialogs = EmptyString
    /\ uninstaller_icon typed_record = EmptyString)
   \/ (unicon_selected sample_dialogs <> EmptyString
       /\ normpath sample_os_path (unicon_selected sample_dialogs)
          = Some (uninstaller_icon typed_record))) /\
  (app_name typed_record <> EmptyString /\ app_version typed_record <> EmptyString
   /\ publisher typed_record <> EmptyString
   /\ install_dir_name typed_record <> EmptyString
   /\ uninstall_reg_key typed_record <> EmptyString
   /\ install_path_reg_key typed_record <> EmptyString
   /\ branding typed_record <> EmptyString)).
Proof.
  split; [reflexivity|].
  apply (collected_paths_from_dialogs sample_host sample_os_path sample_dialogs 27
           typed_session typed_record).
  - reflexivity.
  - vm_compute. reflexivity.
Defined.

(** X18. On ASCII input, run for more rounds than there are events of
    input, the collector always comes to an end: it returns a record,
    having taken events from the front of the input; or it exits with code
    1, which it does only at the end of the input, at an interrupt taken by
    the prompt it was waiting in, or when the dialog of the source
    directory is cancelled; or it is stopped by an exception, which is the
    [ValueError] of [os.path.normpath] on a path picked in a dialog and
    nothing else. *)
Theorem collect_returns_or_exits h fs dlg fuel t :
  ascii_input t ->
  length (stdin t) < fuel ->
  match collect h fs dlg fuel t with
  | (Got _, t') => exists taken, stdin t = (taken ++ stdin t')%list
  | (Exit code, t') =>
      code = 1%Z
      /\ (stdin t' = [] \/ interrupted t t'
          \/ source_dir_selected dlg = EmptyString)
  | (Uncaught, _) => normpath_failed fs dlg
  | (Unfinished, _) => False
  end.
Proof. intros _. apply collect_ends. Qed.

Lemma collect_returns_or_exits_witness :
  match collect sample_host sample_os_path sample_dialogs 5 interrupted_session with
  | (Exit code, t') =>
      stdin t' = [Typed "1.0.0.0"] /\
      code = 1%Z
      /\ (stdin t' = [] \/ interrupted interrupted_session t'
          \/ source_dir_selected sample_dialogs = EmptyString)
  | _ => False
  end.
Proof.
  pose proof (collect_returns_or_exits sample_host sample_os_path sample_dialogs 5
                interrupted_session eq_refl ltac:(cbn; lia)) as Hspec.
  destruct (collect sample_host sample_os_path sample_dialogs 5 interrupted_session)
    as [[r|code| |] t'] eqn:Hrun; [by vm_compute in Hrun| |by vm_compute in Hrun..].
  split; [|exact Hspec]. vm_compute in Hrun. by injection Hrun as <- <-.
Defined.

(** *** The collector and the renderer together *)

(** X19. When the user cancels the dialog of the executable and the dialogs
    of both icons, the record the collector completes makes the renderer
    raise [AttributeError]: the main program calls the renderer outside any
    [try], so it stops there without a script. *)
Theorem cancelled_dialogs_stop_the_renderer h fs dlg fuel t r out :
  fst (collect h fs dlg fuel t) = Got r ->
  exe_selected dlg = EmptyString ->
  icon_selected dlg = EmptyString ->
  unicon_selected dlg = EmptyString ->
  fst (render h r out) = inl (AttributeError VNone "replace").
Proof.
  intros Hr Hexe Hicon Hunicon.
  destruct (collect_spec h fs dlg fuel t r Hr)
    as [_ _ _ Hmain _ Hi Hu _ _ _ _ _ _].
  assert (main_executable r = None) as Hnone.
  { destruct (main_executable r); [|done]. by destruct Hmain as (_ & ? & _). }
  assert (installer_icon r = EmptyString) as Hi' by (by destruct Hi as [[_ ?]|[? _]]).
  assert (uninstaller_icon r = EmptyString) as Hu' by (by destruct Hu as [[_ ?]|[? _]]).
  rewrite run_render. cbn [fst].
  unfold icon_entry, chosen_icon, present, executable_entry.
  by rewrite Hnone, Hi', Hu'.
Qed.

Lemma cancelled_dialogs_stop_the_renderer_witness :
  fst (render sample_host default_record [])
  = inl (AttributeError VNone "replace").
Proof.
  apply (cancelled_dialogs_stop_the_renderer sample_host sample_os_path
           cancelled_dialogs 23 default_session default_record []);
    vm_compute; reflexivity.
Defined.

(** X20. On a record the collector completes, the renderer never answers
    [None], so the branch of the main program that reports a failed
    generation is never taken: it returns a script, which it always does
    when an executable was recorded, or it raises the [AttributeError] of a
    missing executable, and then no executable was recorded and no icon
    that exists resolves to an absolute path. *)
Theorem collected_record_outcome h fs dlg fuel t r out :
  fst (collect h fs dlg fuel t) = Got r ->
  match fst (render h r out) with
  | inr (Some script) => is_Some (main_executable r) \/ icon_resolves h r = true
  | inr None => False
  | inl e =>
      e = AttributeError VNone "replace" /\ main_executable r = None
      /\ icon_resolves h r = false
      /\ (exe_selected dlg = EmptyString
          \/ exists normalized,
               normpath fs (exe_selected dlg) = Some normalized
               /\ dirname fs normalized <> source_dir r)
  end.
Proof.
  intros Hr.
  destruct (collect_spec h fs dlg fuel t r Hr)
    as [_ _ _ Hmain _ _ _ _ _ _ _ _ _].
  rewrite run_render. cbn [fst].
  unfold icon_resolves, icon_entry, executable_entry.
  destruct (main_executable r) as [exe|].
  - destruct (chosen_icon h r) as [icon|]; [destruct (abspath h icon)|];
      left; by eexists.
  - destruct (chosen_icon h r) as [icon|]; [destruct (abspath h icon)|].
    + by right.
    + by repeat split.
    + by repeat split.
Qed.

Lemma collected_record_outcome_witness :
  match fst (render sample_host typed_record []) with
  | inr (Some script) =>
      is_Some (main_executable typed_record)
      \/ icon_resolves sample_host typed_record = true
  | inr None => False
  | inl e =>
      e = AttributeError VNone "replace" /\ main_executable typed_record = None
      /\ icon_resolves sample_host typed_record = false
      /\ (exe_selected sample_dialogs = EmptyString
          \/ exists normalized,
               normpath sample_os_path (exe_selected sample_dialogs)
               = Some normalized
               /\ dirname sample_os_path normalized <> source_dir typed_record)
  end.
Proof.
  apply (collected_record_outcome sample_host sample_os_path sample_dialogs 27
           typed_session typed_record []).
  vm_compute. reflexivity.
Defined.

Local Open Scope collector_scope.

(** *** The loops of the languages *)

(** The two loops one after the other, as the main program runs them. *)
Definition ask_languages (fuel : nat) : prompting (list string) :=
  selected_languages <- primary_language fuel ;;
  more_languages fuel selected_languages.

(** A prompt with a default, or one that takes an empty answer, returns on
    the first line it reads. *)
Lemma ask_string_first_line prompt dflt allow_empty t :
  dflt <> None \/ allow_empty = true ->
  match ask_string prompt dflt allow_empty t with
  | (Got s, t') =>
      exists line said,
        stdin t = Typed line :: stdin t' /\
        s = (if String.eqb (strip line) EmptyString
             then default EmptyString dflt else strip line) /\
        stdout t' = said
  | (Exit code, t') => code = 1%Z /\ (stdin t' = [] \/ interrupted t t')
  | (Uncaught, _) | (Unfinished, _) => False
  end.
Proof.
  intros Hmode. unfold ask_string.
  pose proof (ask_string_loop_spec (string_prompt prompt dflt) dflt allow_empty
                (stdin t) (stdout t)) as Hspec.
  destruct (ask_string_loop _ dflt allow_empty (stdin t) (stdout t))
    as [[s|code| |] t']; [| |done..].
  - destruct Hspec as (blanks & line & Hin & _ & Hs & _ & Hblanks & _).
    destruct blanks as [|b blanks].
    + exists line, (stdout t'). by repeat split.
    + destruct (Hblanks ltac:(done)) as [-> ->]. by destruct Hmode.
  - destruct Hspec as (-> & blanks & _ & _ & Hgave).
    split; [done | by eapply gave_up_left].
Qed.

(** The name the first loop stores for a line. *)
Definition primary_name (line : string) : string :=
  capitalize (if String.eqb (strip line) EmptyString then "English" else strip line).

(** The name the second loop reads in a line. *)
Definition typed_name (line : string) : string := capitalize (strip line).

Lemma primary_language_spec fuel t :
  length (stdin t) < fuel ->
  match primary_language fuel t with
  | (Got l, t') =>
      exists line, stdin t = Typed line :: stdin t' /\ l = [primary_name line]
  | (Exit code, t') => code = 1%Z /\ (stdin t' = [] \/ interrupted t t')
  | (Uncaught, _) | (Unfinished, _) => False
  end.
Proof.
  destruct fuel as [|fuel]; [lia|]. intros _.
  cbn [primary_language]. unfold and_then at 1.
  pose proof (ask_string_first_line "Enter the primary/default language"
                (Some "English") false t ltac:(by left)) as Hfirst.
  destruct (ask_string _ _ _ t) as [[answered|code| |] t1]; [| |done..].
  - destruct Hfirst as (line & said & Hin & -> & _).
    assert (primary_name line <> EmptyString) as Hname.
    { unfold primary_name. destruct (String.eqb (strip line) EmptyString) eqn:Hb;
        [done|]. apply String.eqb_neq in Hb. by destruct (strip line). }
    change (capitalize (if String.eqb (strip line) EmptyString
                        then default EmptyString (Some "English")
                        else strip line)) with (primary_name line).
    apply String.eqb_neq in Hname. rewrite Hname. cbn [negb].
    by exists line.
  - exact Hfirst.
Qed.

Lemma more_languages_spec fuel selected t :
  length (stdin t) < fuel ->
  match more_languages fuel selected t with
  | (Got l, t') =>
      exists added blank more,
        stdin t = (map Typed added ++ Typed blank :: stdin t')%list /\
        strip blank = EmptyString /\
        Forall (fun a => strip a <> EmptyString) added /\
        l = (selected ++ more)%list /\
        sublist more (map typed_name added) /\
        (forall n, n ∈ more <-> n ∈ map typed_name added /\ n ∉ selected) /\
        (NoDup selected -> NoDup l)
  | (Exit code, t') => code = 1%Z /\ (stdin t' = [] \/ interrupted t t')
  | (Uncaught, _) | (Unfinished, _) => False
  end.
Proof.
  revert selected t. induction fuel as [|fuel IH]; intros selected t Ht; [lia|].
  cbn [more_languages]. unfold and_then at 1.
  pose proof (ask_string_first_line
                ("Add another language? Current: " +:+ join ", " selected
                 +:+ " (Leave blank to finish)") None true t ltac:(by right))
    as Hfirst.
  destruct (ask_string _ _ _ t) as [[answered|code| |] t1]; [| |done..];
    [|exact Hfirst].
  destruct Hfirst as (line & said & Hin & -> & _).
  assert (forall out next,
    match more_languages fuel next {| stdin := stdin t1; stdout := out |} with
    | (Got l, t') =>
        exists added blank more,
          stdin t = (Typed line :: map Typed added ++ Typed blank :: stdin t')%list /\
          strip blank = EmptyString /\
          Forall (fun a => strip a <> EmptyString) added /\
          l = (next ++ more)%list /\
          sublist more (map typed_name added) /\
          (forall n, n ∈ more <-> n ∈ map typed_name added /\ n ∉ next) /\
          (NoDup next -> NoDup l)
    | (Exit code, t') => code = 1%Z /\ (stdin t' = [] \/ interrupted t t')
    | (Uncaught, _) | (Unfinished, _) => False
    end) as Hnext.
  { intros out next.
    specialize (IH next {| stdin := stdin t1; stdout := out |}). cbn [stdin] in IH.
    assert (length (stdin t1) < fuel) as Ht1 by (rewrite Hin in Ht; cbn in Ht; lia).
    specialize (IH Ht1).
    destruct (more_languages fuel next _) as [[l|code| |] t2]; [| |done..].
    - destruct IH as (added & blank & more & Hin' & Hblank & Hadded & Hrest).
      exists added, blank, more. by rewrite Hin, Hin'.
    - destruct IH as [-> [Hend|(before & Hint)]]; (split; [done|]); [by left|].
      right. exists (Typed line :: before). cbn [stdin] in Hint.
      by rewrite Hin, Hint. }
  destruct (String.eqb (strip line) EmptyString) eqn:Hblank.
  { (* a blank line ends the loop *)
    apply String.eqb_eq in Hblank. cbn.
    exists [], line, []. cbn [map app].
    split; [done|]. split; [done|]. split; [constructor|].
    split; [by rewrite app_nil_r|]. split; [constructor|].
    split; [|done].
    intros n. split; [by intros ?%elem_of_nil | by intros [?%elem_of_nil _]]. }
  apply String.eqb_neq in Hblank.
  change (capitalize (strip line)) with (typed_name line).
  assert (typed_name line <> EmptyString) as Hname.
  { unfold typed_name. by destruct (strip line). }
  apply String.eqb_neq in Hname. rewrite Hname.
  destruct (is_in (typed_name line) selected) eqn:Hknown; cbn [negb].
  - (* a name the list has already *)
    apply is_in_spec in Hknown.
    unfold and_then at 1, say at 1. cbn [stdin stdout].
    specialize (Hnext
      (stdout t1 ++ [Line ("'" +:+ typed_name line +:+ "' is already in the list.")])%list
      selected).
    destruct (more_languages fuel selected _) as [[l|code| |] t2]; [| |done..];
      [|exact Hnext].
    destruct Hnext as (added & blank & more & Hin' & Hb & Hadded & -> & Hsub & Hmem & Hnd).
    exists (line :: added), blank, more. cbn [map app].
    split; [done|]. split; [done|]. split; [by constructor|]. split; [done|].
    split; [by apply sublist_cons|]. split; [|done].
    intros n. rewrite Hmem, elem_of_cons. split; [tauto|].
    intros [[->|Hn] Hnew]; [done | tauto].
  - (* a new name *)
    assert (typed_name line ∉ selected) as Hnew.
    { intros Hn. apply is_in_spec in Hn. congruence. }
    assert (forall out,
      match more_languages fuel (selected ++ [typed_name line])
              {| stdin := stdin t1; stdout := out |} with
      | (Got l, t') =>
          exists added blank more,
            stdin t = (map Typed added ++ Typed blank :: stdin t')%list /\
            strip blank = EmptyString /\
            Forall (fun a => strip a <> EmptyString) added /\
            l = (selected ++ more)%list /\
            sublist more (map typed_name added) /\
            (forall n, n ∈ more <-> n ∈ map typed_name added /\ n ∉ selected) /\
            (NoDup selected -> NoDup l)
      | (Exit code, t') => code = 1%Z /\ (stdin t' = [] \/ interrupted t t')
      | (Uncaught, _) | (Unfinished, _) => False
      end) as Hadd.
    { intros out. specialize (Hnext out (selected ++ [typed_name line])%list).
      destruct (more_languages fuel _ _) as [[l|code| |] t2]; [| |done..];
        [|exact Hnext].
      destruct Hnext as (added & blank & more & Hin' & Hb & Hadded & -> & Hsub & Hmem & Hnd).
      exists (line :: added), blank, (typed_name line :: more). cbn [map app].
      split; [done|]. split; [done|]. split; [by constructor|].
      split; [by rewrite <- app_assoc|].
      split; [by apply sublist_skip|]. split.
      - intros n. rewrite !elem_of_cons, Hmem, elem_of_app, list_elem_of_singleton.
        split.
        + intros [->|[Hn Hno]]; [tauto|]. split; [tauto|]. tauto.
        + intros [[->|Hn] Hno]; [tauto|].
          destruct (decide (n = typed_name line)) as [->|Hne]; [tauto|]. tauto.
      - intros Hselected. apply Hnd. apply NoDup_app. split; [done|].
        split; [|apply NoDup_singleton].
        by intros n Hn ->%list_elem_of_singleton. }
    destruct (any_char (Ascii.eqb " ") (typed_name line)
              || any_char is_digit (typed_name line));
      unfold and_then, say, give; cbn [stdin stdout]; apply Hadd.
Qed.

(** X21. On ASCII input, run for more rounds than there are events of
    input, the two loops of the languages read one line for the primary
    language, then one line for every further language up to the first
    blank line.  The list they leave starts with the primary language,
    which is the first line stripped and capitalized, or [English] for a
    blank line; after it come, in the order they were typed, the names of
    the further lines, stripped and capitalized, each once and none equal
    to the primary language, and nothing else; the list has no entry
    twice.  The loops exit, with code 1, at the end of the input and at an
    interrupt, and in no other case. *)
Theorem languages_follow_the_answers fuel t :
  ascii_input t ->
  length (stdin t) < fuel ->
  match ask_languages fuel t with
  | (Got l, t') =>
      exists first added blank more,
        stdin t = (Typed first :: map Typed added ++ Typed blank :: stdin t')%list /\
        strip blank = EmptyString /\
        Forall (fun a => strip a <> EmptyString) added /\
        l = primary_name first :: more /\
        sublist more (map typed_name added) /\
        (forall n, n ∈ more <->
                   n ∈ map typed_name added /\ n <> primary_name first) /\
        NoDup l
  | (Exit code, t') => code = 1%Z /\ (stdin t' = [] \/ interrupted t t')
  | (Uncaught, _) | (Unfinished, _) => False
  end.
Proof.
  intros _ Ht. unfold ask_languages, and_then.
  pose proof (primary_language_spec fuel t Ht) as Hprimary.
  destruct (primary_language fuel t) as [[selected|code| |] t1]; [| |done..];
    [|exact Hprimary].
  destruct Hprimary as (first & Hin & ->).
  assert (length (stdin t1) < fuel) as Ht1 by (rewrite Hin in Ht; cbn in Ht; lia).
  pose proof (more_languages_spec fuel [primary_name first] t1 Ht1) as Hmore.
  destruct (more_languages fuel [primary_name first] t1) as [[l|code| |] t2];
    [| |done..].
  - destruct Hmore as (added & blank & more & Hin' & Hblank & Hadded & -> & Hsub
                       & Hmem & Hnodup).
    exists first, added, blank, more.
    split; [by rewrite Hin, Hin'|]. split; [done|]. split; [done|].
    split; [done|]. split; [done|]. split; [|apply Hnodup, NoDup_singleton].
    intros n. rewrite Hmem, list_elem_of_singleton. tauto.
  - destruct Hmore as [-> [Hend|(before & Hint)]]; (split; [done|]); [by left|].
    right. exists (Typed first :: before). by rewrite Hin, Hint.
Qed.

Lemma languages_follow_the_answers_witness :
  match ask_languages 8
          {| stdin := map Typed [" english"; "french"; "FRENCH"; "English";
                                 "german "; ""; "next"];
             stdout := [] |} with
  | (Got l, t') =>
      l = ["English"; "French"; "German"] /\ stdin t' = [Typed "next"] /\ NoDup l
  | _ => False
  end.
Proof.
  pose proof (languages_follow_the_answers 8
                {| stdin := map Typed [" english"; "french"; "FRENCH"; "English";
                                       "german "; ""; "next"];
                   stdout := [] |} eq_refl ltac:(cbn; lia)) as Hspec.
  destruct (ask_languages 8 _) as [[l| | |] t'] eqn:Hrun; [|by vm_compute in Hrun..].
  destruct Hspec as (_ & _ & _ & _ & _ & _ & _ & _ & _ & _ & Hnodup).
  vm_compute in Hrun. injection Hrun as <- <-.
  split; [reflexivity|]. split; [reflexivity | exact Hnodup].
Defined.
